(** * Communication app: file endpoints, transfer-method label and credential services

    A shallow embedding of
    - [backend/src/files/file.controller.ts]   ([FileController], id-based file API),
    - [backend/src/files/files.controller.ts]  ([FilesController], relay upload and
      filename-based download),
    - [backend/src/auth/manual-auth.service.ts] and [google-auth.service.ts],
    - [frontend/components/MessageInput.tsx]   ([getFileTransferMethod]),
    - the Prisma migrations that define the [users], [messages] and [files] tables.

    Handlers are written in a state-and-exception monad over a [World] that holds
    the three tables, the file system, a schedule of collaborator faults and
    the trace of observable effects. *)

From Stdlib Require Import Ascii DecimalString DecimalNat FinFun.
From stdpp Require Import gmap strings list numbers.

Open Scope string_scope.
Open Scope Z_scope.

(** ** Exceptions

    The controllers import [BadRequestException] and [NotFoundException] from
    NestJS; every other thrown value (a Prisma error, a gateway error) is an
    [Error]. *)

Inductive Exception : Type :=
| BadRequestException (message : string)
| NotFoundException (message : string)
| Error (message : string).

Definition instanceof_NotFoundException (e : Exception) : bool :=
  match e with NotFoundException _ => true | _ => false end.

Definition instanceof_BadRequestException (e : Exception) : bool :=
  match e with BadRequestException _ => true | _ => false end.

#[global] Instance Exception_eq_dec : EqDecision Exception.
Proof. solve_decision. Defined.

(** ** Rows of the three tables (columns as in the migrations) *)

Module User.
Record t : Type := mk {
  id : string;
  email : string;
  username : string;
  password : option string;
  googleId : option string;
  avatar : option string;
  createdAt : nat;
  updatedAt : nat;
}.
End User.

Module Message.
Record t : Type := mk {
  id : string;
  content : string;
  createdAt : nat;
  isRead : bool;
  type : string;
  fileName : option string;
  fileSize : option Z;
  fileType : option string;
  fileUrl : option string;
  fileId : option string;
  senderId : string;
  receiverId : string;
}.
End Message.

Module File.
Record t : Type := mk {
  id : string;
  originalName : string;
  fileName : string;
  mimeType : string;
  size : Z;
  path : string;
  createdAt : nat;
  uploaderId : string;
}.
End File.

(** ** The file system

    What Node's [fs] sees, on a case-sensitive POSIX system without symbolic
    links: the working directory of the process and the tree of directories
    and regular files, each node under its list of names from the root.  A
    path is walked name by name as the operating system does: an empty name
    and ["."] stay where they are, [".."] climbs, and every step starts from
    a directory, so ["a/../b"] needs [a] to be an existing directory and
    ["b/"] needs [b] to be one. *)

Module Fs.

Inductive Node : Type :=
| File (size : Z)                     (* a regular file of [size] bytes *)
| Dir.

Record t : Type := mk {
  cwd : list string;                  (* process.cwd() *)
  nodes : gmap (list string) Node;    (* every node but the root *)
}.

(** The names of a path, split at each ["/"]. *)
Fixpoint components (p : string) : list string :=
  match p with
  | EmptyString => [EmptyString]
  | String c rest =>
    if Ascii.eqb c "/" then EmptyString :: components rest
    else match components rest with
         | name :: names => String c name :: names
         | [] => [String c EmptyString]
         end
  end.

Definition kind (fs : t) (at_ : list string) : option Node :=
  match at_ with
  | [] => Some Dir
  | _ => nodes fs !! at_
  end.

(** One name further from [at_], which must be a directory (ENOTDIR, ENOENT
    otherwise). *)
Definition step (fs : t) (at_ : list string) (name : string) : option (list string) :=
  match kind fs at_ with
  | Some Dir =>
    if String.eqb name EmptyString || String.eqb name "." then Some at_
    else if String.eqb name ".." then Some (removelast at_)
    else Some (at_ ++ [name])%list
  | _ => None
  end.

Fixpoint walk (fs : t) (at_ : list string) (names : list string) : option (list string) :=
  match names with
  | [] => Some at_
  | name :: names =>
    match step fs at_ name with
    | Some at_ => walk fs at_ names
    | None => None
    end
  end.

(** The node a path leads to, if any: from the root for an absolute path,
    from the working directory otherwise.  The empty path leads nowhere. *)
Definition realpath (fs : t) (p : string) : option (list string) :=
  match p with
  | EmptyString => None
  | String c _ =>
    match walk fs (if Ascii.eqb c "/" then [] else cwd fs) (components p) with
    | Some at_ => match kind fs at_ with Some _ => Some at_ | None => None end
    | None => None
    end
  end.

Definition stat (fs : t) (p : string) : option Node :=
  match realpath fs p with
  | Some at_ => kind fs at_
  | None => None
  end.

(** The length of the regular file a path leads to. *)
Definition file_size (fs : t) (p : string) : option Z :=
  match stat fs p with
  | Some (File size) => Some size
  | _ => None
  end.

Definition remove (at_ : list string) (fs : t) : t :=
  mk (cwd fs) (delete at_ (nodes fs)).

(** Removing the regular file a path leads to. *)
Definition unlink (fs : t) (p : string) : option t :=
  match realpath fs p with
  | Some at_ => match kind fs at_ with
                | Some (File _) => Some (remove at_ fs)
                | _ => None
                end
  | None => None
  end.

(** [path.normalize]'s pass over the names of a relative path: empty names
    and ["."] go, [".."] takes back the name before it or stays when there is
    none.  [seen] is what has been kept so far, last name first. *)
Fixpoint normalizeString (names seen : list string) : list string :=
  match names with
  | [] => rev seen
  | name :: names =>
    if String.eqb name EmptyString || String.eqb name "." then normalizeString names seen
    else if String.eqb name ".." then
      match seen with
      | last :: before =>
        if String.eqb last ".." then normalizeString names (name :: seen)
        else normalizeString names before
      | [] => normalizeString names [name]
      end
    else normalizeString names (name :: seen)
  end.

Fixpoint ends_with_separator (p : string) : bool :=
  match p with
  | EmptyString => false
  | String c EmptyString => Ascii.eqb c "/"
  | String _ rest => ends_with_separator rest
  end.

End Fs.

(** ** Observable effects, in the order they happen *)

Inductive Event : Type :=
| Persisted (m : Message.t)          (* prisma.message.create resolved *)
| FileRecorded (f : File.t)          (* prisma.file.create resolved *)
| Notified (m : Message.t)           (* chatGateway.notifyFileUploadComplete resolved *)
| Unlinked (path : string)           (* fs.unlinkSync *)
| Streamed (path : string).          (* createReadStream(path).pipe(res) *)

(** ** The world a request runs in *)

Record World : Type := mkWorld {
  users : list User.t;
  messages : list Message.t;
  files : list File.t;
  disk : Fs.t;
  faults : list (option string);      (* outcome of the next awaited collaborator calls *)
  clock : nat;                        (* source of cuid() and now() *)
  trace : list Event;
}.

Definition set_users (us : list User.t) (w : World) : World :=
  mkWorld us (messages w) (files w) (disk w) (faults w) (clock w) (trace w).
Definition set_messages (ms : list Message.t) (w : World) : World :=
  mkWorld (users w) ms (files w) (disk w) (faults w) (clock w) (trace w).
Definition set_files (fs : list File.t) (w : World) : World :=
  mkWorld (users w) (messages w) fs (disk w) (faults w) (clock w) (trace w).
Definition set_disk (d : Fs.t) (w : World) : World :=
  mkWorld (users w) (messages w) (files w) d (faults w) (clock w) (trace w).
Definition set_faults (fl : list (option string)) (w : World) : World :=
  mkWorld (users w) (messages w) (files w) (disk w) fl (clock w) (trace w).
Definition tick (w : World) : World :=
  mkWorld (users w) (messages w) (files w) (disk w) (faults w) (S (clock w)) (trace w).
Definition emit (e : Event) (w : World) : World :=
  mkWorld (users w) (messages w) (files w) (disk w) (faults w) (clock w) (trace w ++ [e]).

(** ** The handler monad: state plus exceptions *)

Definition M (A : Type) : Type := World -> (Exception + A) * World.

Definition ret {A} (a : A) : M A := fun w => (inr a, w).

Definition throw {A} (e : Exception) : M A := fun w => (inl e, w).

Definition bind {A B} (m : M A) (k : A -> M B) : M B := fun w =>
  match m w with
  | (inl e, w') => (inl e, w')
  | (inr a, w') => k a w'
  end.

Definition try_catch {A} (body : M A) (handler : Exception -> M A) : M A := fun w =>
  match body w with
  | (inl e, w') => handler e w'
  | (inr a, w') => (inr a, w')
  end.

Notation "x <- e ;; k" := (bind e (fun x => k))
  (at level 100, e at next level, right associativity).
Notation "e ;; k" := (bind e (fun _ : unit => k))
  (at level 100, right associativity).

(** An awaited call to a collaborator (Prisma, the chat gateway).  The head of
    [faults] decides whether the promise rejects, and with which message; an
    exhausted schedule means no further fault.  A collaborator never throws
    one of the NestJS HTTP exceptions. *)
Definition await {A} (call : M A) : M A := fun w =>
  match faults w with
  | Some e :: fl => (inl (Error e), set_faults fl w)
  | None :: fl => call (set_faults fl w)
  | [] => call w
  end.

Definition get {A} (f : World -> A) : M A := fun w => (inr (f w), w).
Definition modify (f : World -> World) : M unit := fun w => (inr tt, f w).

(** cuid() and now(): opaque, fresh per call. *)
Definition cuid (n : nat) : string := "c" +:+ NilEmpty.string_of_uint (Nat.to_uint n).

(** ** JavaScript helpers *)

(** Truthiness of a possibly-undefined string: [undefined] and the empty string are falsy. *)
Definition truthy (o : option string) : bool :=
  match o with
  | Some s => negb (String.eqb s EmptyString)
  | None => false
  end.

(** [a || b] on possibly-undefined strings. *)
Definition js_or (a b : option string) : option string :=
  if truthy a then a else b.

(** The double-quote character of a template literal. *)
Definition dquote : string := String (ascii_of_nat 34) EmptyString.

(** [!!x] for the result of a [findFirst]. *)
Definition found {A} (o : option A) : bool :=
  match o with Some _ => true | None => false end.

(** A nullable column compared with a given string in a Prisma [where]. *)
Definition column_is (c : option string) (s : string) : bool :=
  match c with Some x => String.eqb x s | None => false end.

(** ** [fs] and [path]

    The handlers look for regular files: [file.path] is the file multer has
    just written, and the names in file URLs and file records are multer's.
    [existsSync] and [statSync_size] answer for the regular file a path leads
    to.  Node's [existsSync] is also true of a directory, which only a
    client-chosen download name can lead to; the statement about names that
    are not on disk therefore asks that the path lead to nothing at all. *)

Definition existsSync (p : string) : M bool :=
  get (fun w => found (Fs.file_size (disk w) p)).

Definition unlinkSync (p : string) : M unit := fun w =>
  match Fs.unlink (disk w) p with
  | Some d => (inr tt, emit (Unlinked p) (set_disk d w))
  | None =>
    (inl (Error match Fs.stat (disk w) p with
                | Some _ => "EISDIR: illegal operation on a directory"
                | None => "ENOENT: no such file or directory"
                end), w)
  end.

(** [fs.statSync(p).size]; throws when the path is absent. *)
Definition statSync_size (p : string) : M Z := fun w =>
  match Fs.file_size (disk w) p with
  | Some n => (inr n, w)
  | None => (inl (Error "ENOENT: no such file or directory"), w)
  end.

Definition pipe_file (p : string) : M unit :=
  modify (emit (Streamed p)).

(** [join(process.cwd(), p)], written from the working directory instead of
    from the root: the names of [p] with [path.normalize] applied, and the
    trailing separator that [normalize] keeps.  A [".."] left at the front
    climbs out of the working directory, as it does in the joined path. *)
Definition join_cwd (p : string) : string :=
  let path := String.concat "/" (Fs.normalizeString (Fs.components p) []) in
  if String.eqb path EmptyString then (if Fs.ends_with_separator p then "./" else ".")
  else if Fs.ends_with_separator p then path +:+ "/"
  else path.

(** ** Prisma queries *)

Definition user_exists (id : string) (w : World) : bool :=
  found (find (fun u => String.eqb (User.id u) id) (users w)).

Definition prisma_file_findUnique (id : string) : M (option File.t) :=
  await (get (fun w => find (fun f => String.eqb (File.id f) id) (files w))).

Definition prisma_message_findFirst (where_ : Message.t -> bool) : M (option Message.t) :=
  await (get (fun w => find where_ (messages w))).

(** The [data] of [prisma.file.create]; [id] and [createdAt] take their
    defaults.  [files_uploaderId_fkey] rejects an unknown uploader. *)
Module FileCreateInput.
Record t : Type := mk {
  originalName : string;
  fileName : string;
  mimeType : string;
  size : Z;
  path : string;
  uploaderId : string;
}.
End FileCreateInput.

Definition prisma_file_create (data : FileCreateInput.t) : M File.t :=
  await (fun w =>
    if user_exists (FileCreateInput.uploaderId data) w then
      let f := File.mk (cuid (clock w))
                 (FileCreateInput.originalName data) (FileCreateInput.fileName data)
                 (FileCreateInput.mimeType data) (FileCreateInput.size data)
                 (FileCreateInput.path data) (clock w)
                 (FileCreateInput.uploaderId data) in
      (inr f, emit (FileRecorded f) (tick (set_files (files w ++ [f]) w)))
    else (inl (Error "Foreign key constraint failed: files_uploaderId_fkey"), w)).

(** The [data] of [prisma.message.create].  Columns left out take the
    defaults of the [messages] table: [isRead] DEFAULT false, [type] DEFAULT
    'text', nullable columns NULL.  Both foreign keys must name a user.  The
    [include]d sender and receiver are projections of [users] that no handler
    reads; the created row stands for the returned object. *)
Module MessageCreateInput.
Record t : Type := mk {
  content : string;
  isRead : option bool;
  type : option string;
  fileName : option string;
  fileSize : option Z;
  fileType : option string;
  fileUrl : option string;
  fileId : option string;
  senderId : string;
  receiverId : string;
}.
End MessageCreateInput.

Definition prisma_message_create (data : MessageCreateInput.t) : M Message.t :=
  await (fun w =>
    if user_exists (MessageCreateInput.senderId data) w
       && user_exists (MessageCreateInput.receiverId data) w then
      let m := Message.mk (cuid (clock w))
                 (MessageCreateInput.content data) (clock w)
                 (default false (MessageCreateInput.isRead data))
                 (default "text" (MessageCreateInput.type data))
                 (MessageCreateInput.fileName data) (MessageCreateInput.fileSize data)
                 (MessageCreateInput.fileType data) (MessageCreateInput.fileUrl data)
                 (MessageCreateInput.fileId data)
                 (MessageCreateInput.senderId data) (MessageCreateInput.receiverId data) in
      (inr m, emit (Persisted m) (tick (set_messages (messages w ++ [m]) w)))
    else (inl (Error "Foreign key constraint failed: messages"), w)).

(** ** Multer: the uploaded file and the interceptor options *)

Module MulterFile.
Record t : Type := mk {
  originalname : string;
  filename : string;
  mimetype : string;
  size : Z;
  path : string;
}.
End MulterFile.

Inductive FilterVerdict : Type :=
| Accept                      (* callback(null, true) *)
| Reject (e : Exception).     (* callback(error, false) *)

Record MulterOptions : Type := mkOptions {
  destination : string;
  limits_fileSize : Z;
  fileFilter : MulterFile.t -> FilterVerdict;
}.

(** What the [FileInterceptor] does with the file of a request before the
    handler runs.  multer asks [fileFilter] when the file part starts and
    fails the request with the filter's error.  It then reads the bytes and
    gives up with LIMIT_FILE_SIZE, which NestJS answers with 413 Payload Too
    Large, as soon as [limits.fileSize] bytes of the file have arrived: a file
    is stored only when it is shorter than the limit. *)
Inductive Interception : Type :=
| Stored
| Refused (e : Exception)
| PayloadTooLarge.

Definition FileInterceptor (options : MulterOptions) (file : MulterFile.t) : Interception :=
  match fileFilter options file with
  | Reject e => Refused e
  | Accept =>
    if bool_decide (MulterFile.size file < limits_fileSize options) then Stored
    else PayloadTooLarge
  end.

(** ** file.controller.ts *)

Module FileController.

Definition MAX_FILE_SIZE : Z := 50 * 1024 * 1024.

Definition ALLOWED_MIME_TYPES : list string := [
  "image/jpeg";
  "image/png";
  "image/gif";
  "image/webp";
  "image/svg+xml";
  "application/pdf";
  "application/msword";
  "application/vnd.openxmlformats-officedocument.wordprocessingml.document";
  "application/vnd.ms-excel";
  "application/vnd.openxmlformats-officedocument.spreadsheetml.sheet";
  "application/vnd.ms-powerpoint";
  "application/vnd.openxmlformats-officedocument.presentationml.presentation";
  "text/plain";
  "text/csv";
  "application/zip";
  "application/x-rar-compressed";
  "application/x-7z-compressed";
  "audio/mpeg";
  "audio/wav";
  "audio/ogg";
  "video/mp4";
  "video/mpeg";
  "video/quicktime";
  "video/webm"
].

(** [ALLOWED_MIME_TYPES.includes(s)] *)
Definition includes (l : list string) (s : string) : bool :=
  existsb (String.eqb s) l.

Definition uploadOptions : MulterOptions := {|
  destination := "./uploads";
  limits_fileSize := MAX_FILE_SIZE;
  fileFilter := fun file =>
    if includes ALLOWED_MIME_TYPES (MulterFile.mimetype file) then Accept
    else Reject (BadRequestException
                   ("File type " +:+ MulterFile.mimetype file +:+ " is not allowed"))
|}.

(** The [uploader] relation with [select: { id, username, avatar }]. *)
Record Uploader : Type := mkUploader {
  uploader_id : string;
  uploader_username : string;
  uploader_avatar : option string;
}.

Definition select_uploader (id : string) (w : World) : option Uploader :=
  (fun u => mkUploader (User.id u) (User.username u) (User.avatar u))
    <$> find (fun u => String.eqb (User.id u) id) (users w).

Record UploadReply : Type := mkUploadReply {
  reply_id : string;
  reply_originalName : string;
  reply_fileName : string;
  reply_mimeType : string;
  reply_size : Z;
  reply_createdAt : nat;
  reply_uploader : option Uploader;
}.

(** [POST files/upload], after the interceptor has stored the file.
    [sub] is [req.user.sub], set by the JWT guard. *)
Definition uploadFile (file : option MulterFile.t) (sub : string) : M UploadReply :=
  match file with
  | None => throw (BadRequestException "No file uploaded")
  | Some file =>
    try_catch
      (fileRecord <- prisma_file_create
         (FileCreateInput.mk (MulterFile.originalname file) (MulterFile.filename file)
            (MulterFile.mimetype file) (MulterFile.size file) (MulterFile.path file) sub) ;;
       uploader <- get (select_uploader (File.uploaderId fileRecord)) ;;
       ret (mkUploadReply (File.id fileRecord) (File.originalName fileRecord)
              (File.fileName fileRecord) (File.mimeType fileRecord)
              (File.size fileRecord) (File.createdAt fileRecord) uploader))
      (fun error => throw (BadRequestException "Failed to upload file"))
  end.

Definition checkFileAccess (fileId userId : string) : M bool :=
  file <- prisma_file_findUnique fileId ;;
  if match file with
     | Some f => String.eqb (File.uploaderId f) userId
     | None => false
     end
  then ret true
  else
    messageWithFile <- prisma_message_findFirst (fun m =>
      column_is (Message.fileId m) fileId
      && (String.eqb (Message.senderId m) userId
          || String.eqb (Message.receiverId m) userId)) ;;
    ret (found messageWithFile).

(** What [getFile] writes to the response: headers, then the piped stream.
    The [include]d uploader of its [findUnique] is not read. *)
Record Download : Type := mkDownload {
  Content_Type : string;
  Content_Disposition : string;
  Content_Length : Z;
  streamed : string;
}.

Definition getFile (id : string) (sub : string) : M Download :=
  try_catch
    (file <- prisma_file_findUnique id ;;
     match file with
     | None => throw (NotFoundException "File not found")
     | Some file =>
       hasAccess <- checkFileAccess id sub ;;
       if negb hasAccess then throw (NotFoundException "File not found")
       else
         let filePath := join_cwd (File.path file) in
         onDisk <- existsSync filePath ;;
         if negb onDisk then throw (NotFoundException "File not found on disk")
         else
           pipe_file filePath ;;
           ret (mkDownload (File.mimeType file)
                  ("attachment; filename=" +:+ dquote +:+ File.originalName file +:+ dquote)
                  (File.size file) filePath)
     end)
    (fun error =>
       if instanceof_NotFoundException error || instanceof_BadRequestException error
       then throw error
       else throw (NotFoundException "File not found")).

Record FileInfo : Type := mkFileInfo {
  info_id : string;
  info_originalName : string;
  info_mimeType : string;
  info_size : Z;
  info_createdAt : nat;
  info_uploader : option Uploader;
}.

Definition getFileInfo (id : string) (sub : string) : M FileInfo :=
  try_catch
    (file <- prisma_file_findUnique id ;;
     match file with
     | None => throw (NotFoundException "File not found")
     | Some file =>
       uploader <- get (select_uploader (File.uploaderId file)) ;;
       hasAccess <- checkFileAccess id sub ;;
       if negb hasAccess then throw (NotFoundException "File not found")
       else
         ret (mkFileInfo (File.id file) (File.originalName file) (File.mimeType file)
                (File.size file) (File.createdAt file) uploader)
     end)
    (fun error =>
       if instanceof_NotFoundException error
       then throw error
       else throw (NotFoundException "File not found")).

End FileController.

(** ** The chat gateway (collaborator)

    [chatGateway.notifyFileUploadComplete(message)] is awaited by the upload
    handler; it either resolves, having notified, or rejects. *)

Definition notifyFileUploadComplete (m : Message.t) : M unit :=
  await (modify (emit (Notified m))).

(** ** files.controller.ts *)

Module FilesController.

Definition uploadOptions : MulterOptions := {|
  destination := "./uploads";
  limits_fileSize := 50 * 1024 * 1024;
  fileFilter := fun file => Accept
|}.

(** [req.user] as the JWT strategy leaves it: either key may be missing. *)
Record JwtUser : Type := mkJwtUser {
  sub : option string;
  id : option string;
}.

(** [req.user?.sub || req.user?.id] *)
Definition requester (user : option JwtUser) : option string :=
  js_or (user ≫= sub) (user ≫= id).

Record UploadReply : Type := mkUploadReply {
  message : string;
  data : Message.t;
}.

(** [if (fs.existsSync(p)) fs.unlinkSync(p)] *)
Definition cleanup (p : string) : M unit :=
  present <- existsSync p ;;
  if present then unlinkSync p else ret tt.

(** The [data] of the message record created for an uploaded file. *)
Definition fileMessage (file : MulterFile.t) (senderId receiverId : string)
    : MessageCreateInput.t := {|
  MessageCreateInput.content := "Sent a file: " +:+ MulterFile.originalname file;
  MessageCreateInput.isRead := None;
  MessageCreateInput.type := Some "file";
  MessageCreateInput.fileName := Some (MulterFile.originalname file);
  MessageCreateInput.fileSize := Some (MulterFile.size file);
  MessageCreateInput.fileType := Some (MulterFile.mimetype file);
  MessageCreateInput.fileUrl := Some ("/files/download/" +:+ MulterFile.filename file);
  MessageCreateInput.fileId := None;
  MessageCreateInput.senderId := senderId;
  MessageCreateInput.receiverId := receiverId
|}.

(** [POST files/upload], after the interceptor has stored the file.
    [receiverId] is [body.receiverId]. *)
Definition uploadFile (file : option MulterFile.t) (receiverId : option string)
    (user : option JwtUser) : M UploadReply :=
  match file with
  | None => throw (BadRequestException "No file uploaded")
  | Some file =>
    let senderId := requester user in
    if negb (truthy senderId) then
      cleanup (MulterFile.path file) ;;
      throw (BadRequestException "Invalid user authentication")
    else if negb (truthy receiverId) then
      cleanup (MulterFile.path file) ;;
      throw (BadRequestException "Receiver ID is required")
    else
      try_catch
        (message <- prisma_message_create
                      (fileMessage file (default EmptyString senderId) (default EmptyString receiverId)) ;;
         notifyFileUploadComplete message ;;
         ret (mkUploadReply "File uploaded successfully" message))
        (fun error =>
           cleanup (MulterFile.path file) ;;
           throw error)
  end.

Record Download : Type := mkDownload {
  Content_Type : string;
  Content_Disposition : string;
  Content_Length : Z;
  streamed : string;
}.

(** [GET files/download/:filename] *)
Definition downloadFile (filename : string) (user : option JwtUser) : M Download :=
  let userId := requester user in
  if negb (truthy userId) then throw (BadRequestException "Invalid user authentication")
  else
    let userId := default EmptyString userId in
    let filePath := "./uploads/" +:+ filename in
    onDisk <- existsSync filePath ;;
    if negb onDisk then throw (NotFoundException "File not found")
    else
      try_catch
        (message <- prisma_message_findFirst (fun m =>
           column_is (Message.fileUrl m) ("/files/download/" +:+ filename)
           && (String.eqb (Message.senderId m) userId
               || String.eqb (Message.receiverId m) userId)) ;;
         match message with
         | None => throw (NotFoundException "File not found or access denied")
         | Some message =>
           size <- statSync_size filePath ;;
           pipe_file filePath ;;
           ret (mkDownload "application/octet-stream"
                  ("attachment; filename=" +:+ dquote
                     +:+ default "null" (Message.fileName message) +:+ dquote)
                  size filePath)
         end)
        (fun error =>
           if instanceof_NotFoundException error || instanceof_BadRequestException error
           then throw error
           else throw (NotFoundException "File not found")).

End FilesController.

(** ** MessageInput.tsx *)

Module MessageInput.

(** The browser [File] selected in the input; [size] is its byte length. *)
Record SelectedFile : Type := mkSelectedFile {
  name : string;
  size : Z;
}.

Definition getFileTransferMethod (selectedFile : option SelectedFile)
    (isUserOnline : bool) : string :=
  match selectedFile with
  | None => EmptyString
  | Some selectedFile =>
    let isLargeFile := bool_decide (10 * 1024 * 1024 < size selectedFile) in
    if isLargeFile then " (Server upload - large file)"
    else if negb isUserOnline then " (Server upload - user offline)"
    else " (P2P preferred, server fallback)"
  end.

End MessageInput.

(** ** User objects as Prisma returns them

    A row of [users] read through Prisma is a JavaScript object with one own
    property per column; [const { password, ...result } = user] copies every
    property except [password]. *)

Inductive JsValue : Type :=
| JsNull
| JsString (s : string)
| JsDate (t : nat).

Definition nullable (o : option string) : JsValue :=
  match o with Some s => JsString s | None => JsNull end.

Definition user_object (u : User.t) : gmap string JsValue :=
  <["id" := JsString (User.id u)]>
  (<["email" := JsString (User.email u)]>
  (<["username" := JsString (User.username u)]>
  (<["password" := nullable (User.password u)]>
  (<["googleId" := nullable (User.googleId u)]>
  (<["avatar" := nullable (User.avatar u)]>
  (<["createdAt" := JsDate (User.createdAt u)]>
  (<["updatedAt" := JsDate (User.updatedAt u)]> ∅))))))).

(** [const { password: _, ...result } = user] *)
Definition rest_without_password (user : gmap string JsValue) : gmap string JsValue :=
  delete "password" user.

(** [`${n}`] for a counter. *)
Definition decimal (n : nat) : string := NilEmpty.string_of_uint (Nat.to_uint n).

(** ** Prisma queries on [users]

    [users_email_key], [users_username_key] and [users_googleId_key] are unique
    indexes: a create or update that would break one is rejected. *)

Definition prisma_user_findUnique_email (email : string) : M (option User.t) :=
  await (get (fun w => find (fun u => String.eqb (User.email u) email) (users w))).

Definition prisma_user_findUnique_username (username : string) : M (option User.t) :=
  await (get (fun w => find (fun u => String.eqb (User.username u) username) (users w))).

Definition prisma_user_findUnique_googleId (googleId : string) : M (option User.t) :=
  await (get (fun w => find (fun u => column_is (User.googleId u) googleId) (users w))).

Module UserCreateInput.
Record t : Type := mk {
  email : string;
  username : string;
  password : option string;
  googleId : option string;
  avatar : option string;
}.
End UserCreateInput.

Definition unique_violation (email username : string) (googleId : option string)
    (us : list User.t) : bool :=
  existsb (fun u =>
    String.eqb (User.email u) email
    || String.eqb (User.username u) username
    || match googleId with
       | Some g => column_is (User.googleId u) g
       | None => false
       end) us.

Definition prisma_user_create (data : UserCreateInput.t) : M User.t :=
  await (fun w =>
    if unique_violation (UserCreateInput.email data) (UserCreateInput.username data)
         (UserCreateInput.googleId data) (users w)
    then (inl (Error "Unique constraint failed on users"), w)
    else
      let u := User.mk (cuid (clock w))
                 (UserCreateInput.email data) (UserCreateInput.username data)
                 (UserCreateInput.password data) (UserCreateInput.googleId data)
                 (UserCreateInput.avatar data) (clock w) (clock w) in
      (inr u, tick (set_users (users w ++ [u]) w))).

(** [prisma.user.update({ where: { email }, data: { googleId, avatar } })]:
    an [undefined] avatar leaves the column as it is; [updatedAt] is refreshed. *)
Definition prisma_user_update_by_email (email googleId : string) (avatar : option string)
    : M User.t :=
  await (fun w =>
    match find (fun u => String.eqb (User.email u) email) (users w) with
    | None => (inl (Error "Record to update not found"), w)
    | Some old =>
      if existsb (fun u => column_is (User.googleId u) googleId
                           && negb (String.eqb (User.email u) email)) (users w)
      then (inl (Error "Unique constraint failed on users"), w)
      else
        let new := User.mk (User.id old) (User.email old) (User.username old)
                     (User.password old) (Some googleId)
                     (match avatar with Some a => Some a | None => User.avatar old end)
                     (User.createdAt old) (clock w) in
        (inr new,
         tick (set_users
                 (map (fun u => if String.eqb (User.email u) email then new else u) (users w))
                 w))
    end).

(** ** bcryptjs (library) *)

Class Bcrypt : Type := {
  bcrypt_compare : string -> string -> bool;
  bcrypt_hash : string -> nat -> string;
}.

(** ** manual-auth.service.ts *)

Module ManualAuthService.
Section WithBcrypt.
Context `{Bcrypt}.

Definition validateCredentials (email password : string)
  : M (option (gmap string JsValue)) :=
user <- prisma_user_findUnique_email email ;;
match user with
| Some user =>
  if truthy (User.password user)
     && bcrypt_compare password (default EmptyString (User.password user))
  then ret (Some (rest_without_password (user_object user)))
  else ret None
| None => ret None
end.

Definition createUser (email username password : string) : M (gmap string JsValue) :=
let hashedPassword := bcrypt_hash password 10 in
user <- prisma_user_create
  (UserCreateInput.mk email username (Some hashedPassword) None None) ;;
ret (rest_without_password (user_object user)).

End WithBcrypt.
End ManualAuthService.

(** ** google-auth.service.ts *)

Module GoogleAuthService.

Record GoogleUser : Type := mkGoogleUser {
  googleId : string;
  email : string;
  username : string;
  avatar : option string;
}.

(** The [while] loop that looks for a free username.  [None] when [fuel]
    runs out; [fuel_suffices] below shows it does not. *)
Fixpoint findUniqueUsername (fuel : nat) (username uniqueUsername : string)
    (counter : nat) : M (option string) :=
  match fuel with
  | O => ret None
  | S fuel =>
    taken <- prisma_user_findUnique_username uniqueUsername ;;
    match taken with
    | Some _ => findUniqueUsername fuel username (username +:+ decimal counter) (S counter)
    | None => ret (Some uniqueUsername)
    end
  end.

Definition validateGoogleUser (googleUser : GoogleUser) : M (gmap string JsValue) :=
  user <- prisma_user_findUnique_googleId (googleId googleUser) ;;
  user <- match user with
          | Some user => ret user
          | None =>
            user <- prisma_user_findUnique_email (email googleUser) ;;
            match user with
            | Some _ =>
              prisma_user_update_by_email (email googleUser) (googleId googleUser)
                (avatar googleUser)
            | None =>
              fuel <- get (fun w => S (length (users w))) ;;
              uniqueUsername <- findUniqueUsername fuel (username googleUser)
                                  (username googleUser) 1 ;;
              match uniqueUsername with
              | None => throw (Error "username search did not finish")
              | Some uniqueUsername =>
                prisma_user_create
                  (UserCreateInput.mk (email googleUser) uniqueUsername None
                     (Some (googleId googleUser)) (avatar googleUser))
              end
            end
          end ;;
  ret (rest_without_password (user_object user)).

End GoogleAuthService.

(** ** Requests served by the modelled code, and runs of the server *)

Inductive Request : Type :=
| PostFile (file : option MulterFile.t) (sub : string)
| GetFile (id sub : string)
| GetFileInfo (id sub : string)
| PostRelayUpload (file : option MulterFile.t) (receiverId : option string)
    (user : option FilesController.JwtUser)
| GetDownload (filename : string) (user : option FilesController.JwtUser)
| ValidateCredentials (email password : string)
| CreateUser (email username password : string)
| ValidateGoogleUser (googleUser : GoogleAuthService.GoogleUser).

Definition after {A} (m : M A) (w : World) : World := snd (m w).

Definition handle `{Bcrypt} (r : Request) (w : World) : World :=
  match r with
  | PostFile file sub => after (FileController.uploadFile file sub) w
  | GetFile id sub => after (FileController.getFile id sub) w
  | GetFileInfo id sub => after (FileController.getFileInfo id sub) w
  | PostRelayUpload file receiverId user =>
      after (FilesController.uploadFile file receiverId user) w
  | GetDownload filename user => after (FilesController.downloadFile filename user) w
  | ValidateCredentials email password =>
      after (ManualAuthService.validateCredentials email password) w
  | CreateUser email username password =>
      after (ManualAuthService.createUser email username password) w
  | ValidateGoogleUser googleUser =>
      after (GoogleAuthService.validateGoogleUser googleUser) w
  end.

Definition serve `{Bcrypt} (rs : list Request) (w : World) : World :=
  fold_left (fun w r => handle r w) rs w.

(** ** Vocabulary of the statements *)


(** [users_email_key]: emails of [users] are unique. *)
Definition users_email_key (w : World) : Prop := NoDup (User.email <$> users w).

Definition is_uploader (w : World) (fileId account : string) : Prop :=
  exists f, In f (files w) /\ File.id f = fileId /\ File.uploaderId f = account.

Definition party (m : Message.t) (account : string) : Prop :=
  Message.senderId m = account \/ Message.receiverId m = account.

(** Some persisted message references the file by its [fileId] column and has
    the account as sender or receiver. *)
Definition in_message_with_file (w : World) (fileId account : string) : Prop :=
  exists m, In m (messages w) /\ Message.fileId m = Some fileId /\ party m account.

(** Some persisted message carries the download URL of [filename] and has the
    account as sender or receiver. *)
Definition in_message_with_url (w : World) (filename account : string) : Prop :=
  exists m, In m (messages w)
            /\ Message.fileUrl m = Some ("/files/download/" +:+ filename)
            /\ party m account.


(** Every [Notified m] in a trace comes after a [Persisted m]. *)
Definition persist_before_notify (tr : list Event) : Prop :=
  forall i m, tr !! i = Some (Notified m) ->
    exists j, (j < i)%nat /\ tr !! j = Some (Persisted m).

(** What a label of [getFileTransferMethod] announces. *)
Inductive Strategy : Type := p2p | relay.

Definition announced (label : string) : option Strategy :=
  if String.prefix " (Server upload" label then Some relay
  else if String.prefix " (P2P preferred" label then Some p2p
  else None.

(** Two worlds with the same tables, disk and trace: they differ at most in
    the fault schedule. *)
Definition same_state (w w' : World) : Prop :=
  users w' = users w /\ messages w' = messages w /\ files w' = files w
  /\ disk w' = disk w /\ clock w' = clock w /\ trace w' = trace w.

(** Same tables and users; the disk and the trace may have changed. *)
Definition same_tables (w w' : World) : Prop :=
  users w' = users w /\ messages w' = messages w /\ files w' = files w.

Definition lookup_file (w : World) (id : string) : option File.t :=
  find (fun f => String.eqb (File.id f) id) (files w).

(** The path leads to a regular file. *)
Definition on_disk (w : World) (p : string) : bool := found (Fs.file_size (disk w) p).

(** The decision [checkFileAccess] computes from the tables. *)
Definition access_decision (w : World) (fileId userId : string) : bool :=
  match find (fun f => String.eqb (File.id f) fileId) (files w) with
  | Some f => String.eqb (File.uploaderId f) userId
  | None => false
  end
  || found (find (fun m =>
              column_is (Message.fileId m) fileId
              && (String.eqb (Message.senderId m) userId
                  || String.eqb (Message.receiverId m) userId)) (messages w)).

Definition upload_path (filename : string) : string := "./uploads/" +:+ filename.

(** The [where] clause of the download's access query. *)
Definition url_query (filename userId : string) (m : Message.t) : bool :=
  column_is (Message.fileUrl m) ("/files/download/" +:+ filename)
  && (String.eqb (Message.senderId m) userId
      || String.eqb (Message.receiverId m) userId).

(** Every run of the relay upload ends in one of four ways. *)
Inductive UploadOutcome (p : string) (w w' : World)
    : Exception + FilesController.UploadReply -> Prop :=
| RejectedEarly msg unl :
    same_tables w w' ->
    trace w' = (trace w ++ unl)%list -> unl = [] \/ unl = [Unlinked p] ->
    UploadOutcome p w w' (inl (BadRequestException msg))
| StorageFailed e unl :
    same_tables w w' ->
    Fs.file_size (disk w') p = None ->
    trace w' = (trace w ++ unl)%list -> unl = [] \/ unl = [Unlinked p] ->
    UploadOutcome p w w' (inl e)
| NotifyFailed m e unl :
    messages w' = (messages w ++ [m])%list ->
    Message.isRead m = false -> Message.type m = "file" ->
    Fs.file_size (disk w') p = None ->
    trace w' = (trace w ++ Persisted m :: unl)%list -> unl = [] \/ unl = [Unlinked p] ->
    UploadOutcome p w w' (inl (Error e))
| Uploaded m :
    messages w' = (messages w ++ [m])%list ->
    Message.isRead m = false -> Message.type m = "file" ->
    disk w' = disk w ->
    trace w' = (trace w ++ [Persisted m; Notified m])%list ->
    UploadOutcome p w w' (inr (FilesController.mkUploadReply "File uploaded successfully" m)).

Definition unread (m : Message.t) : Prop := Message.isRead m = false.

(** A computation that leaves the persisted messages in place and appends
    only unread ones. *)
Definition appends_unread {A} (c : M A) : Prop :=
  forall w, exists added,
    messages (c w).2 = (messages w ++ added)%list /\ Forall unread added.

(** The candidates the loop tries, in order, with [fuel] iterations. *)
Fixpoint tried (fuel : nat) (username candidate : string) (counter : nat) : list string :=
  match fuel with
  | O => []
  | S fuel => candidate :: tried fuel username (username +:+ decimal counter) (S counter)
  end.

Definition taken (w : World) (s : string) : bool :=
  found (find (fun u => String.eqb (User.username u) s) (users w)).

(** A user of the table with the presented email whose stored, non-empty hash
    matches the presented password. *)
Definition verified `{Bcrypt} (w : World) (email password : string) (u : User.t) : Prop :=
  In u (users w) /\ User.email u = email
  /\ exists hash, User.password u = Some hash /\ hash <> EmptyString
                  /\ bcrypt_compare password hash = true.

(** ** Sample data *)

Definition alice : User.t :=
  User.mk "u-alice" "alice@example.org" "alice" (Some "hash:wonderland") None None 0 0.

Definition bob : User.t :=
  User.mk "u-bob" "bob@example.org" "bob" (Some "hash:builder") None None 1 1.

Definition carol : User.t :=
  User.mk "u-carol" "carol@example.org" "carol" None (Some "g-carol") None 2 2.

Definition report : File.t :=
  File.mk "f-1" "report.pdf" "7c9e.pdf" "application/pdf" 2048 "uploads/7c9e.pdf" 3 "u-alice".

(** The server runs in /srv/app; its upload directory holds one file. *)
Definition uploads_holding (name : string) (size : Z) : Fs.t :=
  Fs.mk ["srv"; "app"]
    {[ ["srv"] := Fs.Dir;
       ["srv"; "app"] := Fs.Dir;
       ["srv"; "app"; "uploads"] := Fs.Dir;
       ["srv"; "app"; "uploads"; name] := Fs.File size ]}.

Definition uploads_empty : Fs.t :=
  Fs.mk ["srv"; "app"]
    {[ ["srv"] := Fs.Dir;
       ["srv"; "app"] := Fs.Dir;
       ["srv"; "app"; "uploads"] := Fs.Dir ]}.

(** Alice has uploaded [report] through [FileController]; nobody has sent it. *)
Definition world_uploaded : World :=
  mkWorld [alice; bob; carol] [] [report] (uploads_holding "7c9e.pdf" 2048) [] 4 [].

Definition as_sub (account : string) : option FilesController.JwtUser :=
  Some (FilesController.mkJwtUser (Some account) None).

Definition cat_picture : MulterFile.t :=
  MulterFile.mk "cat.png" "ab12.png" "image/png" 4096 "uploads/ab12.png".

(** Multer has stored [cat_picture]; the next database call will fail. *)
Definition world_storage_down : World :=
  mkWorld [alice; bob; carol] [] [] (uploads_holding "ab12.png" 4096)
    [Some "connection lost"] 4 [].

(** Multer has stored [cat_picture]; the collaborators are quiet. *)
Definition world_ready : World :=
  mkWorld [alice; bob; carol] [] [] (uploads_holding "ab12.png" 4096) [] 4 [].

(** The message Alice's upload of [cat_picture] to Bob creates in
    [world_ready]. *)
Definition cat_message : Message.t :=
  Message.mk "c4" "Sent a file: cat.png" 4 false "file" (Some "cat.png") (Some 4096)
    (Some "image/png") (Some "/files/download/ab12.png") None "u-alice" "u-bob".

Definition dave : GoogleAuthService.GoogleUser :=
  GoogleAuthService.mkGoogleUser "g-dave" "dave@example.org" "alice" None.

(** A stand-in for bcryptjs in worked examples. *)
Definition sample_bcrypt : Bcrypt := {|
  bcrypt_compare := fun password hash => String.eqb hash ("hash:" +:+ password);
  bcrypt_hash := fun password rounds => "hash:" +:+ password
|}.

(** ** auth.service.ts *)

(** [JwtService.sign] of @nestjs/jwt (library). *)
Class JwtService : Type := {
  jwt_sign : gmap string JsValue -> string;
}.

(** An object literal [{ k: v, ... }] whose values are property reads: a read
    that yields [undefined] leaves a property that reads back as [undefined]
    and is dropped on serialisation, here an absent key. *)
Definition with_property (key : string) (value : option JsValue)
    (o : gmap string JsValue) : gmap string JsValue :=
  match value with
  | Some v => <[key := v]> o
  | None => o
  end.

Module AuthService.
Section WithServices.
Context `{Bcrypt} `{JwtService}.

Definition validateUser (email password : string) : M (option (gmap string JsValue)) :=
  ManualAuthService.validateCredentials email password.

Definition validateGoogleUser (googleUser : GoogleAuthService.GoogleUser)
    : M (gmap string JsValue) :=
  GoogleAuthService.validateGoogleUser googleUser.

Record LoginReply : Type := mkLoginReply {
  access_token : string;
  user : gmap string JsValue;
}.

(** [login] awaits nothing: it signs the payload and picks four properties. *)
Definition login (user : gmap string JsValue) : LoginReply :=
  let payload :=
    with_property "email" (user !! "email") (with_property "sub" (user !! "id") ∅) in
  mkLoginReply (jwt_sign payload)
    (with_property "id" (user !! "id")
       (with_property "email" (user !! "email")
          (with_property "username" (user !! "username")
             (with_property "avatar" (user !! "avatar") ∅)))).

Definition register (email username password : string) : M (gmap string JsValue) :=
  ManualAuthService.createUser email username password.

End WithServices.
End AuthService.

(** ** FileUpload.tsx *)

Module FileUpload.

Inductive FileKind : Type := image | video | audio | document | archive | other.

Inductive Icon : Type := Image | FileText | Archive | Music | Video.

Definition MAX_FILE_SIZE : Z := 50 * 1024 * 1024.

(** The object literal [ALLOWED_TYPES], own properties in source order. *)
Definition ALLOWED_TYPES : list (string * (FileKind * Icon)) := [
  ("image/jpeg", (image, Image));
  ("image/png", (image, Image));
  ("image/gif", (image, Image));
  ("image/webp", (image, Image));
  ("image/svg+xml", (image, Image));
  ("application/pdf", (document, FileText));
  ("application/msword", (document, FileText));
  ("application/vnd.openxmlformats-officedocument.wordprocessingml.document",
   (document, FileText));
  ("application/vnd.ms-excel", (document, FileText));
  ("application/vnd.openxmlformats-officedocument.spreadsheetml.sheet",
   (document, FileText));
  ("application/vnd.ms-powerpoint", (document, FileText));
  ("application/vnd.openxmlformats-officedocument.presentationml.presentation",
   (document, FileText));
  ("text/plain", (document, FileText));
  ("text/csv", (document, FileText));
  ("application/zip", (archive, Archive));
  ("application/x-rar-compressed", (archive, Archive));
  ("application/x-7z-compressed", (archive, Archive));
  ("audio/mpeg", (audio, Music));
  ("audio/wav", (audio, Music));
  ("audio/ogg", (audio, Music));
  ("video/mp4", (video, Video));
  ("video/mpeg", (video, Video));
  ("video/quicktime", (video, Video));
  ("video/webm", (video, Video))
].

(** The browser [File] handed to the component. *)
Record BrowserFile : Type := mkBrowserFile {
  name : string;
  type : string;
  size : Z;
}.

Record FilePreview : Type := mkFilePreview {
  file : BrowserFile;
  preview : option string;
  kind : FileKind;
}.

(** What [handleFileSelect] does: an [alert], or [setFilePreview] (with a
    [FileReader] started for an image). *)
Inductive Selection : Type :=
| Alert (message : string)
| Preview (p : FilePreview) (readAsDataURL : bool).

Section Browser.

(** [inherited key]: [Object.prototype] has a (truthy) property [key], which a
    lookup on an object literal finds when the literal has no own [key]. *)
Variable inherited : string -> bool.

(** [formatFileSize] rounds through floating-point logarithms; its result is
    only quoted inside an alert text. *)
Variable formatFileSize : Z -> string.

(** What [ALLOWED_TYPES[key]] evaluates to. *)
Inductive Entry : Type :=
| Own (entry : FileKind * Icon)
| Inherited.

Definition own_entry (key : string) : option (FileKind * Icon) :=
  snd <$> find (fun kv => String.eqb (fst kv) key) ALLOWED_TYPES.

Definition ALLOWED_TYPES_get (key : string) : option Entry :=
  match own_entry key with
  | Some entry => Some (Own entry)
  | None => if inherited key then Some Inherited else None
  end.

(** [ALLOWED_TYPES[mimeType]?.type || "other"] *)
Definition getFileType (mimeType : string) : FileKind :=
  match ALLOWED_TYPES_get mimeType with
  | Some (Own entry) => fst entry
  | _ => other
  end.

(** [ALLOWED_TYPES[mimeType]?.icon || FileText] *)
Definition getFileIcon (mimeType : string) : Icon :=
  match ALLOWED_TYPES_get mimeType with
  | Some (Own entry) => snd entry
  | _ => FileText
  end.

Definition createPreview (f : BrowserFile) : FilePreview * bool :=
  let fileType := getFileType (type f) in
  (mkFilePreview f None fileType,
   match fileType with image => true | _ => false end).

Definition handleFileSelect (f : BrowserFile) : Selection :=
  if negb (found (ALLOWED_TYPES_get (type f))) then
    Alert ("File type " +:+ type f +:+ " is not supported")
  else if bool_decide (MAX_FILE_SIZE < size f) then
    Alert ("File size must be less than " +:+ formatFileSize MAX_FILE_SIZE)
  else
    let '(p, reads) := createPreview f in Preview p reads.

(** [handleFileInputChange] and [handleDrop]: only [files[0]] is looked at. *)
Definition handleFiles (files : list BrowserFile) : option Selection :=
  handleFileSelect <$> head files.

End Browser.

End FileUpload.

(** ** The FileMessage component with a transfer status

    The variant that shows peer-to-peer and fallback transfers; its source
    follows [MessageInput] in MessageInput.tsx. *)

Module FileMessage.

Inductive TransferStatus : Type := pending | transferring | completed | failed.

Record TransferProgress : Type := mkTransferProgress {
  percentage : Z;
  status : TransferStatus;
}.

Record Props : Type := mkProps {
  fileName : string;
  fileSize : Z;
  fileType : string;
  fileData : option MessageInput.SelectedFile;
  fileUrl : option string;
  isOwn : bool;
  transferProgress : option TransferProgress;
  isFallbackUpload : bool;
}.

(** [transferProgress?.status === s] *)
Definition status_is (p : Props) (s : TransferStatus) : bool :=
  match transferProgress p with
  | Some t =>
    match status t, s with
    | pending, pending | transferring, transferring
    | completed, completed | failed, failed => true
    | _, _ => false
    end
  | None => false
  end.

Definition getStatusMessage (p : Props) : string :=
  if isOwn p then
    if isFallbackUpload p then "Sent via Mutler"
    else if found (fileData p) then "Sent via WebRTC DataChannel"
    else if status_is p transferring then "Sending..."
    else if status_is p failed then "Failed to send"
    else "Sent"
  else
    if isFallbackUpload p then "Received via Mutler"
    else if found (fileData p) then "Received via WebRTC DataChannel"
    else if status_is p transferring then "Receiving..."
    else if status_is p failed then "Failed to receive"
    else if truthy (fileUrl p) then "Available for download"
    else "File not available".

(** [fileData || fileUrl], as a condition. *)
Definition isFileAvailable (p : Props) : bool :=
  found (fileData p) || truthy (fileUrl p).

Definition isImageFile (p : Props) : bool := String.prefix "image/" (fileType p).

End FileMessage.

(** ** FileMessage.tsx

    The variant that shows a file recorded by [FileController] and fetches it
    by id. *)

(** [s.includes(sub)] *)
Fixpoint js_includes (sub s : string) : bool :=
  String.prefix sub s
  || match s with
     | EmptyString => false
     | String _ rest => js_includes sub rest
     end.

Module FileMessageById.

Definition getFileIcon (mimeType : string) : FileUpload.Icon :=
  if String.prefix "image/" mimeType then FileUpload.Image
  else if String.prefix "video/" mimeType then FileUpload.Video
  else if String.prefix "audio/" mimeType then FileUpload.Music
  else if js_includes "zip" mimeType || js_includes "rar" mimeType
          || js_includes "7z" mimeType
  then FileUpload.Archive
  else FileUpload.FileText.

Definition getFileTypeColor (mimeType : string) : string :=
  if String.prefix "image/" mimeType then "text-green-600 bg-green-50"
  else if String.prefix "video/" mimeType then "text-purple-600 bg-purple-50"
  else if String.prefix "audio/" mimeType then "text-blue-600 bg-blue-50"
  else if js_includes "pdf" mimeType then "text-red-600 bg-red-50"
  else if js_includes "zip" mimeType || js_includes "rar" mimeType
          || js_includes "7z" mimeType
  then "text-orange-600 bg-orange-50"
  else "text-gray-600 bg-gray-50".

Definition isPreviewable (mimeType : string) : bool :=
  String.prefix "image/" mimeType || String.eqb mimeType "application/pdf".

End FileMessageById.

(** ** Further vocabulary *)

(** Tables and disk are the same in both worlds. *)
Definition same_store (w w' : World) : Prop :=
  users w' = users w /\ messages w' = messages w /\ files w' = files w
  /\ disk w' = disk w.

(** A computation that never writes to a table or to the disk. *)
Definition read_only {A} (c : M A) : Prop := forall w, same_store w (c w).2.

(** The next [cuid()] is not yet the id of a file, nor referenced by a
    message. *)
Definition fresh_file_id (w : World) : Prop :=
  lookup_file w (cuid (clock w)) = None
  /\ forall m, In m (messages w) -> Message.fileId m <> Some (cuid (clock w)).

(** Every foreign key of [messages] and [files] names a user. *)
Definition foreign_keys (w : World) : Prop :=
  (forall m, In m (messages w) ->
     user_exists (Message.senderId m) w = true
     /\ user_exists (Message.receiverId m) w = true)
  /\ (forall f, In f (files w) -> user_exists (File.uploaderId f) w = true).

(** The constraints of the schema the handlers rely on. *)
Definition integrity (w : World) : Prop := foreign_keys w /\ users_email_key w.

(** A computation that keeps the constraints and forgets no user. *)
Definition keeps_integrity {A} (c : M A) : Prop :=
  forall w, integrity w ->
    integrity (c w).2
    /\ forall id, user_exists id w = true -> user_exists id (c w).2 = true.

(** The names [Object.prototype] defines in a browser. *)
Definition Object_prototype (key : string) : bool :=
  existsb (String.eqb key)
    ["constructor"; "__defineGetter__"; "__defineSetter__"; "hasOwnProperty";
     "__lookupGetter__"; "__lookupSetter__"; "isPrototypeOf"; "propertyIsEnumerable";
     "toString"; "valueOf"; "__proto__"; "toLocaleString"].

(** A stand-in for [formatFileSize] in worked examples. *)
Definition sample_formatFileSize (bytes : Z) : string :=
  if bool_decide (bytes = 50 * 1024 * 1024) then "50 MB" else "?".

(** A stand-in for the JWT signer in worked examples. *)
Definition sample_jwt : JwtService := {|
  jwt_sign := fun payload =>
    match payload !! "sub" with
    | Some (JsString s) => "token:" +:+ s
    | _ => "token"
    end
|}.

(** Alice sent [cat_picture] to Bob but the notification will fail. *)
Definition world_notify_down : World :=
  mkWorld [alice; bob; carol] [] [] (uploads_holding "ab12.png" 4096)
    [None; Some "socket closed"] 4 [].

(** The record a successful relay upload creates in [w]. *)
Definition relayed_message (file : MulterFile.t) (sender receiver : string) (w : World)
    : Message.t :=
  Message.mk (cuid (clock w)) ("Sent a file: " +:+ MulterFile.originalname file) (clock w)
    false "file" (Some (MulterFile.originalname file)) (Some (MulterFile.size file))
    (Some (MulterFile.mimetype file))
    (Some ("/files/download/" +:+ MulterFile.filename file)) None sender receiver.

(** The record a successful metadata upload creates in [w]. *)
Definition recorded_file (file : MulterFile.t) (sub : string) (w : World) : File.t :=
  File.mk (cuid (clock w)) (MulterFile.originalname file) (MulterFile.filename file)
    (MulterFile.mimetype file) (MulterFile.size file) (MulterFile.path file) (clock w) sub.

Definition world_empty : World := mkWorld [] [] [] uploads_empty [] 0 [].

(** The row [prisma.user.update] writes when it links [g] to [old]. *)
Definition linked_user (old : User.t) (g : GoogleAuthService.GoogleUser) (w : World)
    : User.t :=
  User.mk (User.id old) (User.email old) (User.username old) (User.password old)
    (Some (GoogleAuthService.googleId g))
    (match GoogleAuthService.avatar g with Some a => Some a | None => User.avatar old end)
    (User.createdAt old) (clock w).

(** The table after linking [g] to the account with its email. *)
Definition linked_users (old : User.t) (g : GoogleAuthService.GoogleUser) (w : World)
    : list User.t :=
  map (fun u => if String.eqb (User.email u) (GoogleAuthService.email g)
                then linked_user old g w else u) (users w).

(** The row [prisma.user.create] writes for a first Google sign-in. *)
Definition google_user (g : GoogleAuthService.GoogleUser) (name : string) (w : World)
    : User.t :=
  User.mk (cuid (clock w)) (GoogleAuthService.email g) name None
    (Some (GoogleAuthService.googleId g)) (GoogleAuthService.avatar g) (clock w) (clock w).

Definition by_googleId (g : GoogleAuthService.GoogleUser) (u : User.t) : bool :=
  column_is (User.googleId u) (GoogleAuthService.googleId g).

Definition by_email (g : GoogleAuthService.GoogleUser) (u : User.t) : bool :=
  String.eqb (User.email u) (GoogleAuthService.email g).

Definition alice_on_google : GoogleAuthService.GoogleUser :=
  GoogleAuthService.mkGoogleUser "g-alice" "alice@example.org" "alice" None.

(** A relay upload, a first Google sign-in and a registration. *)
Definition sample_requests : list Request :=
  [PostRelayUpload (Some cat_picture) (Some "u-bob") (as_sub "u-alice");
   ValidateGoogleUser dave;
   CreateUser "erin@example.org" "erin" "s3cret"].

(** * Properties *)

(** ** Walking paths *)

Module FsFacts.
Import Fs.

(** Taking a regular file away changes no step of any walk: no walk goes on
    from a regular file. *)
Lemma step_remove fs at_ size from name :
  kind fs at_ = Some (File size) ->
  step (remove at_ fs) from name = step fs from name.
Proof.
  intros Hfile. unfold step.
  assert (Hkind : kind (remove at_ fs) from = kind fs from
                  \/ (kind (remove at_ fs) from = None /\ kind fs from = Some (File size))).
  { destruct from as [|n from]; [by left |].
    destruct at_ as [|a at_]; [discriminate |]. simpl in *.
    destruct (decide (a :: at_ = n :: from)) as [Heq | Hne].
    - right. rewrite <- Heq. by rewrite lookup_delete_eq.
    - left. by rewrite lookup_delete_ne. }
  destruct Hkind as [-> | [-> ->]]; done.
Qed.

Lemma walk_remove fs at_ size from names :
  kind fs at_ = Some (File size) ->
  walk (remove at_ fs) from names = walk fs from names.
Proof.
  intros Hfile. revert from. induction names as [|name names IH]; intros from; [done |].
  simpl. rewrite (step_remove fs at_ size) by done.
  destruct (step fs from name); [apply IH | done].
Qed.

Lemma kind_remove fs at_ size from :
  kind fs at_ = Some (File size) ->
  kind (remove at_ fs) from = if decide (from = at_) then None else kind fs from.
Proof.
  intros Hfile. destruct at_ as [|a at_]; [discriminate |].
  destruct (decide (from = a :: at_)) as [-> | Hne].
  - apply lookup_delete_eq.
  - destruct from as [|n from]; [done |]. by apply lookup_delete_ne.
Qed.

Lemma realpath_remove fs at_ size p :
  kind fs at_ = Some (File size) ->
  realpath (remove at_ fs) p
  = if decide (realpath fs p = Some at_) then None else realpath fs p.
Proof.
  intros Hfile. unfold realpath. destruct p as [|c rest]; [by case_decide |].
  change (cwd (remove at_ fs)) with (cwd fs).
  rewrite (walk_remove fs at_ size) by done.
  destruct (walk fs _ _) as [to|]; [| by case_decide].
  rewrite (kind_remove fs at_ size) by done.
  destruct (decide (to = at_)) as [-> | Hne].
  - rewrite Hfile. by case_decide.
  - destruct (kind fs to); case_decide as Heq; try done. by injection Heq.
Qed.

Lemma file_size_remove fs at_ size p :
  kind fs at_ = Some (File size) ->
  file_size (remove at_ fs) p
  = if decide (realpath fs p = Some at_) then None else file_size fs p.
Proof.
  intros Hfile. unfold file_size, stat. rewrite (realpath_remove fs at_ size) by done.
  destruct (decide (realpath fs p = Some at_)) as [Heq | Hne]; [done |].
  destruct (realpath fs p) as [to|]; [| done].
  rewrite (kind_remove fs at_ size) by done.
  destruct (decide (to = at_)) as [-> | _]; [by destruct Hne | done].
Qed.

(** [unlink] succeeds exactly on a path that leads to a regular file. *)
Lemma unlink_file_size fs p :
  found (unlink fs p) = found (file_size fs p).
Proof.
  unfold unlink, file_size, stat.
  destruct (realpath fs p) as [at_|]; [| done].
  by destruct (kind fs at_) as [[size|]|].
Qed.

Lemma unlink_spec fs p d :
  unlink fs p = Some d ->
  exists at_ size, realpath fs p = Some at_ /\ kind fs at_ = Some (File size)
                   /\ d = remove at_ fs.
Proof.
  unfold unlink. destruct (realpath fs p) as [at_|]; [| done].
  destruct (kind fs at_) as [[size|]|] eqn:Hkind; [| done ..].
  intros [= <-]. eauto.
Qed.

(** After [unlink] the path leads to no regular file, and the paths that
    led elsewhere lead where they did. *)
Lemma file_size_unlink fs p d :
  unlink fs p = Some d -> file_size d p = None.
Proof.
  intros (at_ & size & Hpath & Hkind & ->)%unlink_spec.
  rewrite (file_size_remove fs at_ size) by done. by rewrite decide_True.
Qed.

Lemma file_size_unlink_other fs p d q :
  unlink fs p = Some d -> realpath fs q <> realpath fs p ->
  file_size d q = file_size fs q.
Proof.
  intros (at_ & size & Hpath & Hkind & ->)%unlink_spec Hother.
  rewrite (file_size_remove fs at_ size) by done. rewrite decide_False; congruence.
Qed.

(** A leading ["./"] changes nothing for a relative path. *)
Lemma realpath_dot_slash fs c rest :
  Ascii.eqb c "/" = false ->
  realpath fs ("./" +:+ String c rest) = realpath fs (String c rest).
Proof.
  intros Hrel.
  assert (Hnames : components ("./" +:+ String c rest) = "." :: components (String c rest))
    by reflexivity.
  unfold realpath.
  change ("./" +:+ String c rest) with (String "." (String "/" (String c rest))) in *.
  rewrite Hnames. change (Ascii.eqb "." "/") with false. rewrite Hrel.
  destruct (components (String c rest)) as [|name names] eqn:Hsplit.
  { simpl in Hsplit. rewrite Hrel in Hsplit. by destruct (components rest). }
  simpl. unfold step.
  destruct (kind fs (cwd fs)) as [[size|]|] eqn:Hcwd; simpl; rewrite ?Hcwd; done.
Qed.

Lemma file_size_dot_slash fs c rest :
  Ascii.eqb c "/" = false ->
  file_size fs ("./" +:+ String c rest) = file_size fs (String c rest).
Proof. intros Hrel. unfold file_size, stat. by rewrite realpath_dot_slash. Qed.

Lemma walk_app fs from names more :
  walk fs from (names ++ more)
  = match walk fs from names with
    | Some at_ => walk fs at_ more
    | None => None
    end.
Proof.
  revert from. induction names as [|name names IH]; intros from; [done |].
  simpl. destruct (step fs from name); [apply IH | done].
Qed.

Lemma components_cons p : exists name names, components p = name :: names.
Proof.
  destruct p as [|c rest]; simpl; [eauto |].
  destruct (Ascii.eqb c "/"); [eauto |]. destruct (components rest); eauto.
Qed.

(** A ["."] in front of further names changes nothing. *)
Lemma walk_dot fs from name names :
  walk fs from ("." :: name :: names) = walk fs from (name :: names).
Proof.
  simpl. unfold step.
  destruct (kind fs from) as [[size|]|] eqn:Hfrom; simpl; rewrite ?Hfrom; done.
Qed.

Lemma file_size_uploads_dot fs filename :
  file_size fs ("./uploads/./" +:+ filename) = file_size fs ("./uploads/" +:+ filename).
Proof.
  unfold file_size, stat, realpath.
  change ("./uploads/./" +:+ filename)
    with (String "." (String "/" ("uploads/./" +:+ filename))).
  change ("./uploads/" +:+ filename)
    with (String "." (String "/" ("uploads/" +:+ filename))).
  change (components (String "." (String "/" ("uploads/./" +:+ filename))))
    with (["."; "uploads"] ++ "." :: components filename)%list.
  change (components (String "." (String "/" ("uploads/" +:+ filename))))
    with (["."; "uploads"] ++ components filename)%list.
  lazy beta iota. change (Ascii.eqb "." "/") with false. lazy beta iota.
  rewrite !walk_app.
  destruct (walk fs (cwd fs) ["."; "uploads"]) as [at_|]; [| done].
  destruct (components_cons filename) as (name & names & ->).
  by rewrite walk_dot.
Qed.

End FsFacts.

(** ** Running monadic code *)

Lemma await_quiet {A} (call : M A) (w : World) :
  faults w = [] -> await call w = call w.
Proof. intros Hq. unfold await. by rewrite Hq. Qed.

Lemma column_is_true (c : option string) (s : string) :
  column_is c s = true <-> c = Some s.
Proof.
  destruct c as [x|]; simpl.
  - rewrite String.eqb_eq. split; [by intros -> | by intros [= ->]].
  - split; [done | discriminate].
Qed.

Lemma find_pkey {A} (key : A -> string) (l : list A) (x : A) :
  NoDup (key <$> l) -> In x l ->
  find (fun y => String.eqb (key y) (key x)) l = Some x.
Proof.
  induction l as [|y l IH]; simpl; [done |].
  intros Hnd [-> | Hin].
  - by rewrite String.eqb_refl.
  - inversion Hnd as [|? ? Hy Hnd']; subst.
    destruct (String.eqb (key y) (key x)) eqn:E.
    + apply String.eqb_eq in E. exfalso. apply Hy. rewrite E.
      apply list_elem_of_fmap. exists x. split; [done | by apply list_elem_of_In].
    + by apply IH.
Qed.

Lemma found_find {A} (p : A -> bool) (l : list A) :
  found (find p l) = true <-> exists x, In x l /\ p x = true.
Proof.
  destruct (find p l) as [x|] eqn:E; simpl.
  - apply find_some in E. split; [eauto | done].
  - split; [done |]. intros (x & Hin & Hp).
    by rewrite (find_none _ _ E x Hin) in Hp.
Qed.

Lemma same_state_refl w : same_state w w.
Proof. by repeat split. Qed.

Lemma same_state_set_faults fl w : same_state w (set_faults fl w).
Proof. by repeat split. Qed.

Lemma same_state_trans w1 w2 w3 :
  same_state w1 w2 -> same_state w2 w3 -> same_state w1 w3.
Proof.
  intros (?&?&?&?&?&?) (?&?&?&?&?&?). repeat split; congruence.
Qed.

#[local] Hint Resolve same_state_refl same_state_set_faults : core.

(** An awaited read either rejects or returns what the tables hold. *)
Lemma await_get_returns {A} (f : World -> A) (w w' : World) (a : A) :
  await (get f) w = (inr a, w') ->
  same_state w w' /\ (a = f w \/ exists fl, a = f (set_faults fl w)).
Proof.
  unfold await, get. destruct (faults w) as [|[e|] fl]; intros [= <- <-]; eauto.
Qed.

Lemma await_get_quiet {A} (f : World -> A) (w : World) :
  faults w = [] -> await (get f) w = (inr (f w), w).
Proof. intros Hq. by rewrite await_quiet. Qed.

(** An awaited read either rejects with a plain [Error] or returns. *)
Lemma await_get_cases {A} (f : World -> A) (w : World) :
  (exists e w1, same_state w w1 /\ await (get f) w = (inl (Error e), w1))
  \/ (exists w1, same_state w w1 /\ await (get f) w = (inr (f w1), w1)).
Proof.
  unfold await, get. destruct (faults w) as [|[e|] fl]; eauto 6.
Qed.



(** Inversion of a [bind] that returned. *)
Lemma bind_returns {A B} (m : M A) (k : A -> M B) w w' b :
  bind m k w = (inr b, w') ->
  exists a w1, m w = (inr a, w1) /\ k a w1 = (inr b, w').
Proof.
  unfold bind. destruct (m w) as [[e|a] w1]; [discriminate | eauto].
Qed.

Lemma bind_throws {A B} (m : M A) (k : A -> M B) w w' e :
  bind m k w = (inl e, w') ->
  m w = (inl e, w') \/ exists a w1, m w = (inr a, w1) /\ k a w1 = (inl e, w').
Proof.
  unfold bind. destruct (m w) as [[e'|a] w1]; intros Hk; [left | right; eauto].
  by injection Hk as -> ->.
Qed.

Module FileControllerFacts.
Import FileController.


Lemma checkFileAccess_quiet fileId userId w :
  faults w = [] ->
  checkFileAccess fileId userId w = (inr (access_decision w fileId userId), w).
Proof.
  intros Hq. unfold checkFileAccess, access_decision, bind,
    prisma_file_findUnique, prisma_message_findFirst.
  rewrite await_get_quiet by done.
  destruct (match find _ (files w) with Some _ => _ | None => _ end); [done |].
  by rewrite await_get_quiet.
Qed.

Lemma party_decide (m : Message.t) (account : string) :
  String.eqb (Message.senderId m) account || String.eqb (Message.receiverId m) account = true
  <-> party m account.
Proof.
  unfold party. rewrite orb_true_iff, !String.eqb_eq. done.
Qed.

(** The decision never grants more than the Access Guard states. *)
Lemma access_decision_sound w fileId account :
  access_decision w fileId account = true ->
  is_uploader w fileId account \/ in_message_with_file w fileId account.
Proof.
  unfold access_decision. rewrite orb_true_iff, found_find.
  intros [Hup | (m & Hin & Hm)].
  - left. destruct (find _ (files w)) as [f|] eqn:Hf; [|discriminate].
    apply find_some in Hf as [Hin Hid].
    apply String.eqb_eq in Hid, Hup. by exists f.
  - right. apply andb_true_iff in Hm as [Hid Hp].
    exists m. split; [done |]. split; [by apply column_is_true | by apply party_decide].
Qed.


Lemma access_decision_same w w1 fileId userId :
  same_state w w1 -> access_decision w1 fileId userId = access_decision w fileId userId.
Proof. intros (_ & Hm & Hf & _). unfold access_decision. by rewrite Hm, Hf. Qed.

Lemma checkFileAccess_cases fileId userId w :
  (exists e w1, same_state w w1 /\ checkFileAccess fileId userId w = (inl (Error e), w1))
  \/ (exists w1, same_state w w1
       /\ checkFileAccess fileId userId w = (inr (access_decision w fileId userId), w1)).
Proof.
  unfold checkFileAccess, access_decision, bind, prisma_file_findUnique,
    prisma_message_findFirst.
  destruct (await_get_cases (fun w => find (fun f => String.eqb (File.id f) fileId) (files w)) w)
    as [(e & w1 & Hs & ->) | (w1 & Hs & ->)]; [left; eauto |].
  destruct Hs as (Hu & Hm & Hf & Hd & Hc & Ht). rewrite Hf.
  destruct (match find _ (files w) with Some _ => _ | None => _ end).
  { right. exists w1. by repeat split. }
  match goal with |- context [await (get ?f) w1] =>
    destruct (await_get_cases f w1) as [(e & w2 & Hs & ->) | (w2 & Hs & ->)]
  end.
  - left. exists e, w2. split; [|done].
    eapply same_state_trans; [|exact Hs]. by repeat split.
  - right. exists w2. destruct Hs as (Hu' & Hm' & Hs). rewrite Hm', Hm. split; [|done].
    destruct Hs as (? & ? & ? & ?). repeat split; congruence.
Qed.

(** A missing file and a file the requester may not read end the same way,
    whatever the collaborators do. *)
Lemma getFile_hidden id sub w :
  lookup_file w id = None \/ access_decision w id sub = false ->
  exists w1, same_state w w1
    /\ getFile id sub w = (inl (NotFoundException "File not found"), w1).
Proof.
  intros Hhide. unfold getFile, try_catch, bind at 1, prisma_file_findUnique.
  destruct (await_get_cases (fun w => find (fun f => String.eqb (File.id f) id) (files w)) w)
    as [(e & w1 & Hs & ->) | (w1 & Hs & ->)]; [by exists w1 |].
  pose proof Hs as (_ & _ & Hf & _). rewrite Hf.
  fold (lookup_file w id). destruct (lookup_file w id) as [f|] eqn:Hfile.
  2:{ by exists w1. }
  destruct Hhide as [? | Hno]; [discriminate |].
  unfold bind.
  destruct (checkFileAccess_cases id sub w1) as [(e & w2 & Hs2 & ->) | (w2 & Hs2 & ->)].
  - exists w2. split; [by eapply same_state_trans | done].
  - rewrite (access_decision_same w w1), Hno by done. simpl.
    exists w2. split; [by eapply same_state_trans | done].
Qed.

Lemma getFileInfo_hidden id sub w :
  lookup_file w id = None \/ access_decision w id sub = false ->
  exists w1, same_state w w1
    /\ getFileInfo id sub w = (inl (NotFoundException "File not found"), w1).
Proof.
  intros Hhide. unfold getFileInfo, try_catch, bind at 1, prisma_file_findUnique.
  destruct (await_get_cases (fun w => find (fun f => String.eqb (File.id f) id) (files w)) w)
    as [(e & w1 & Hs & ->) | (w1 & Hs & ->)]; [by exists w1 |].
  pose proof Hs as (_ & _ & Hf & _). rewrite Hf.
  fold (lookup_file w id). destruct (lookup_file w id) as [f|] eqn:Hfile.
  2:{ by exists w1. }
  destruct Hhide as [? | Hno]; [discriminate |].
  unfold bind, get.
  destruct (checkFileAccess_cases id sub w1) as [(e & w2 & Hs2 & ->) | (w2 & Hs2 & ->)].
  - exists w2. split; [by eapply same_state_trans | done].
  - rewrite (access_decision_same w w1), Hno by done. simpl.
    exists w2. split; [by eapply same_state_trans | done].
Qed.


(** With quiet collaborators, [getFile] streams every recorded file on disk
    that the requester may read. *)
Lemma getFile_quiet id sub w f :
  faults w = [] ->
  lookup_file w id = Some f ->
  access_decision w id sub = true ->
  on_disk w (join_cwd (File.path f)) = true ->
  getFile id sub w =
    (inr (mkDownload (File.mimeType f)
            ("attachment; filename=" +:+ dquote +:+ File.originalName f +:+ dquote)
            (File.size f) (join_cwd (File.path f))),
     emit (Streamed (join_cwd (File.path f))) w).
Proof.
  intros Hq Hfile Hacc Hdisk.
  unfold getFile, try_catch, bind at 1, prisma_file_findUnique.
  rewrite await_get_quiet by done. fold (lookup_file w id). rewrite Hfile.
  unfold bind. rewrite checkFileAccess_quiet, Hacc by done. simpl.
  unfold existsSync, get. fold (on_disk w (join_cwd (File.path f))).
  by rewrite Hdisk.
Qed.

End FileControllerFacts.

Module FilesControllerFacts.
Import FilesController.

Lemma truthy_Some (o : option string) :
  truthy o = true <-> exists s, o = Some s /\ s <> EmptyString.
Proof.
  destruct o as [s|]; simpl.
  - rewrite negb_true_iff. split.
    + intros Hne. exists s. split; [done |]. intros ->. by rewrite String.eqb_refl in Hne.
    + intros (? & [= <-] & Hne). by apply String.eqb_neq.
  - split; [done | by intros (? & ? & _)].
Qed.

Lemma url_query_spec w filename account :
  found (find (url_query filename account) (messages w)) = true
  <-> in_message_with_url w filename account.
Proof.
  rewrite found_find. unfold in_message_with_url, url_query.
  split; intros (m & Hin & Hm); exists m; (split; [done |]).
  - apply andb_true_iff in Hm as [Hurl Hp].
    split; [by apply column_is_true | by apply FileControllerFacts.party_decide].
  - destruct Hm as [Hurl Hp]. apply andb_true_iff.
    split; [by apply column_is_true | by apply FileControllerFacts.party_decide].
Qed.


(** Without such a message the download is refused with a 404, whatever the
    collaborators do; with quiet collaborators the refusal reads
    "File not found or access denied". *)
Lemma downloadFile_refused filename user account w :
  requester user = Some account -> account <> EmptyString ->
  on_disk w (upload_path filename) = true ->
  find (url_query filename account) (messages w) = None ->
  exists msg w1, same_state w w1
    /\ downloadFile filename user w = (inl (NotFoundException msg), w1)
    /\ (faults w = [] -> msg = "File not found or access denied").
Proof.
  intros Hreq Hne Hon Hnone. unfold downloadFile.
  assert (Hu : truthy (requester user) = true) by (apply truthy_Some; eauto).
  rewrite Hu, Hreq. simpl.
  unfold bind at 1, existsSync, get. fold (upload_path filename).
  fold (on_disk w (upload_path filename)). rewrite Hon. simpl.
  unfold try_catch, bind at 1, prisma_message_findFirst.
  fold (url_query filename account).
  unfold await, get. destruct (faults w) as [|[e|] fl] eqn:Hfl; rewrite ?Hnone; simpl.
  - exists "File not found or access denied", w. by repeat split.
  - exists "File not found", (set_faults fl w).
    split; [done |]. split; [done |]. intros Hnil. discriminate Hnil.
  - exists "File not found or access denied", (set_faults fl w).
    split; [done |]. split; [|done].
    change (messages (set_faults fl w)) with (messages w). by rewrite Hnone.
Qed.

(** The disk check comes before the query. *)
Lemma downloadFile_missing filename user w :
  truthy (requester user) = true ->
  on_disk w (upload_path filename) = false ->
  downloadFile filename user w = (inl (NotFoundException "File not found"), w).
Proof.
  intros Hu Hoff. unfold downloadFile. rewrite Hu. simpl.
  unfold bind, existsSync, get. fold (upload_path filename).
  fold (on_disk w (upload_path filename)). by rewrite Hoff.
Qed.

Lemma downloadFile_quiet filename user account w :
  faults w = [] ->
  requester user = Some account -> account <> EmptyString ->
  on_disk w (upload_path filename) = true ->
  in_message_with_url w filename account ->
  exists d, downloadFile filename user w
            = (inr d, emit (Streamed (upload_path filename)) w).
Proof.
  intros Hq Hreq Hne Hon Hmsg. unfold downloadFile.
  assert (Hu : truthy (requester user) = true) by (apply truthy_Some; eauto).
  rewrite Hu, Hreq. simpl.
  unfold bind at 1, existsSync, get. fold (upload_path filename).
  fold (on_disk w (upload_path filename)). rewrite Hon. simpl.
  unfold try_catch, bind at 1, prisma_message_findFirst.
  fold (url_query filename account).
  rewrite await_get_quiet by done.
  apply url_query_spec in Hmsg.
  destruct (find (url_query filename account) (messages w)) as [m|]; [|discriminate].
  unfold bind, statSync_size, pipe_file, modify, ret.
  unfold on_disk in Hon.
  destruct (Fs.file_size (disk w) (upload_path filename)); [|discriminate].
  eauto.
Qed.

(** *** The relay upload *)

Lemma same_state_tables w w' : same_state w w' -> same_tables w w'.
Proof. intros (?&?&?&_). by repeat split. Qed.

(** [cleanup] never throws: it unlinks only what [existsSync] has found. *)
Lemma cleanup_run p w :
  cleanup p w
  = (inr tt, match Fs.unlink (disk w) p with
             | Some d => emit (Unlinked p) (set_disk d w)
             | None => w
             end).
Proof.
  unfold cleanup, bind, existsSync, get, unlinkSync, ret.
  pose proof (FsFacts.unlink_file_size (disk w) p) as Hfound.
  destruct (Fs.file_size (disk w) p); destruct (Fs.unlink (disk w) p) eqn:Hunlink;
    simpl in *; rewrite ?Hunlink; done.
Qed.

Lemma cleanup_cases p w :
  exists w1 unl, cleanup p w = (inr tt, w1)
    /\ same_tables w w1
    /\ Fs.file_size (disk w1) p = None
    /\ trace w1 = (trace w ++ unl)%list
    /\ (unl = [] \/ unl = [Unlinked p]).
Proof.
  rewrite cleanup_run.
  pose proof (FsFacts.unlink_file_size (disk w) p) as Hfound.
  destruct (Fs.unlink (disk w) p) as [d|] eqn:Hunlink.
  - eexists _, [Unlinked p]. split; [done |]. repeat split; simpl; auto.
    by apply (FsFacts.file_size_unlink (disk w)).
  - exists w, []. split; [done |]. repeat split; auto.
    + by destruct (Fs.file_size (disk w) p).
    + by rewrite app_nil_r.
Qed.

Lemma message_create_cases data w :
  (exists e w1, same_state w w1 /\ prisma_message_create data w = (inl e, w1))
  \/ (exists m w1, prisma_message_create data w = (inr m, w1)
       /\ users w1 = users w /\ files w1 = files w /\ disk w1 = disk w
       /\ messages w1 = (messages w ++ [m])%list
       /\ trace w1 = (trace w ++ [Persisted m])%list
       /\ Message.isRead m = default false (MessageCreateInput.isRead data)
       /\ Message.type m = default "text" (MessageCreateInput.type data)
       /\ Message.senderId m = MessageCreateInput.senderId data
       /\ Message.receiverId m = MessageCreateInput.receiverId data).
Proof.
  unfold prisma_message_create, await.
  destruct (faults w) as [|[e|] fl]; [| left; eauto |];
    match goal with |- context [if ?c then _ else _] => destruct c end;
    try (left; eauto; fail);
    right; eexists _, _; (split; [done |]); by repeat split.
Qed.

Lemma notify_cases m w :
  (exists e w1, same_state w w1 /\ notifyFileUploadComplete m w = (inl (Error e), w1))
  \/ (exists w1, notifyFileUploadComplete m w = (inr tt, w1)
       /\ same_tables w w1 /\ disk w1 = disk w
       /\ trace w1 = (trace w ++ [Notified m])%list).
Proof.
  unfold notifyFileUploadComplete, await, modify.
  destruct (faults w) as [|[e|] fl]; [| left; eauto |];
    right; eexists; (split; [done |]); by repeat split.
Qed.

Lemma uploadFile_outcome file receiverId user w r w' :
  uploadFile (Some file) receiverId user w = (r, w') ->
  UploadOutcome (MulterFile.path file) w w' r.
Proof.
  unfold uploadFile.
  destruct (truthy (requester user)) eqn:Hs; simpl.
  2:{ unfold bind. destruct (cleanup_cases (MulterFile.path file) w)
        as (w1 & unl & -> & Ht & _ & Htr & Hunl). simpl.
      intros [= <- <-]. by eapply RejectedEarly. }
  destruct (truthy receiverId) eqn:Hr; simpl.
  2:{ unfold bind. destruct (cleanup_cases (MulterFile.path file) w)
        as (w1 & unl & -> & Ht & _ & Htr & Hunl). simpl.
      intros [= <- <-]. by eapply RejectedEarly. }
  unfold try_catch, bind at 1.
  destruct (message_create_cases
              (fileMessage file (default EmptyString (requester user)) (default EmptyString receiverId)) w)
    as [(e & w1 & Hs1 & ->) | (m & w1 & -> & Hu & Hf & Hd & Hm & Htr & Hread & Hkind & _)].
  - unfold bind. destruct (cleanup_cases (MulterFile.path file) w1)
      as (w2 & unl & -> & (Hu2 & Hm2 & Hf2) & Hgone & Htr2 & Hunl). simpl.
    intros [= <- <-].
    destruct Hs1 as (Hu1 & Hm1 & Hf1 & _ & _ & Htr1).
    eapply StorageFailed; [| done | by rewrite Htr2, Htr1 | done].
    repeat split; congruence.
  - unfold bind at 1.
    destruct (notify_cases m w1)
      as [(e & w2 & Hs2 & ->) | (w2 & -> & (Hu2 & Hm2 & Hf2) & Hd2 & Htr2)].
    + unfold bind. destruct (cleanup_cases (MulterFile.path file) w2)
        as (w3 & unl & -> & (Hu3 & Hm3 & Hf3) & Hgone & Htr3 & Hunl). simpl.
      intros [= <- <-].
      destruct Hs2 as (_ & Hm2 & _ & _ & _ & Htr2).
      eapply NotifyFailed; [| done | done | done | | done].
      * by rewrite Hm3, Hm2, Hm.
      * rewrite Htr3, Htr2, Htr. by rewrite <- app_assoc.
    + simpl. intros [= <- <-].
      eapply Uploaded; [by rewrite Hm2, Hm | done | done | by rewrite Hd2 |].
      rewrite Htr2, Htr. by rewrite <- app_assoc.
Qed.

(** A failed write of the message record. *)
Lemma uploadFile_storage_failure file receiverId user w e w1 :
  truthy (requester user) = true -> truthy receiverId = true ->
  prisma_message_create
    (fileMessage file (default EmptyString (requester user)) (default EmptyString receiverId)) w
    = (inl e, w1) ->
  exists w' unl,
    uploadFile (Some file) receiverId user w = (inl e, w')
    /\ same_tables w w'
    /\ Fs.file_size (disk w') (MulterFile.path file) = None
    /\ trace w' = (trace w ++ unl)%list
    /\ (unl = [] \/ unl = [Unlinked (MulterFile.path file)]).
Proof.
  intros Hs Hr Hfail. unfold uploadFile. rewrite Hs, Hr. simpl.
  unfold try_catch, bind at 1. rewrite Hfail.
  destruct (message_create_cases
              (fileMessage file (default EmptyString (requester user)) (default EmptyString receiverId)) w)
    as [(e' & w1' & Hs1 & Heq) | (m & w1' & Heq & _)];
    rewrite Heq in Hfail; [|discriminate].
  injection Hfail as -> ->.
  unfold bind. destruct (cleanup_cases (MulterFile.path file) w1)
    as (w2 & unl & -> & (Hu2 & Hm2 & Hf2) & Hgone & Htr2 & Hunl). simpl.
  exists w2, unl. destruct Hs1 as (Hu1 & Hm1 & Hf1 & _ & _ & Htr1).
  split; [done |]. split; [repeat split; congruence |].
  split; [done |]. split; [by rewrite Htr2, Htr1 | done].
Qed.

End FilesControllerFacts.

Example world_uploaded_id_check :
  FileController.checkFileAccess "f-1" "u-alice" world_uploaded = (inr true, world_uploaded).
Proof. reflexivity. Qed.



(** * Properties of the specification *)

(** ** C1: the access check, path by path *)




Lemma bob_cannot_read_report :
  ~ (is_uploader world_uploaded "f-1" "u-bob"
     \/ in_message_with_file world_uploaded "f-1" "u-bob").
Proof.
  intros [(f & Hin & _ & Hup) | (m & Hin & _)].
  - destruct Hin as [<- | []]. discriminate Hup.
  - destruct Hin.
Defined.

Lemma bob_not_in_message_with_url :
  ~ in_message_with_url world_uploaded "7c9e.pdf" "u-bob".
Proof. intros (m & Hin & _). destruct Hin. Defined.

Lemma not_authorized_decision w fileId account :
  ~ (is_uploader w fileId account \/ in_message_with_file w fileId account) ->
  access_decision w fileId account = false.
Proof.
  intros Hno. destruct (access_decision w fileId account) eqn:Hd; [|done].
  by apply FileControllerFacts.access_decision_sound in Hd.
Qed.

(** ** C5: the error of a refused retrieval *)

(** C5, as stated, fails: a refused id-based retrieval is answered exactly
    like a retrieval of an id that does not exist.  Bob may not read [report]
    ("f-1"); his request and a request for the unknown id "f-404" get the same
    [NotFoundException]. *)
Lemma refused_get_equals_missing_get :
  ~ (forall w id missing sub,
       lookup_file w id <> None ->
       ~ (is_uploader w id sub \/ in_message_with_file w id sub) ->
       lookup_file w missing = None ->
       (FileController.getFile id sub w).1 <> (FileController.getFile missing sub w).1).
Proof.
  intros Hclaim.
  apply (Hclaim world_uploaded "f-1" "f-404" "u-bob");
    [discriminate | exact bob_cannot_read_report | reflexivity | reflexivity].
Qed.

(** C5 (amended).  A negative access check makes the request fail with a
    [NotFoundException] on both paths; the controllers have no separate
    access-denied error.  The id-based retrieval answers "File not found", the
    message of a missing id, whatever the collaborators and the disk do.  The
    filename-based download of an account that is in no message with the
    file's URL answers with a [NotFoundException] as well, and for a file on
    disk and quiet collaborators its message is "File not found or access
    denied".  Nothing is streamed in either case. *)
Theorem refusal_is_not_found (w : World) (id sub filename account : string)
    (user : option FilesController.JwtUser) :
  (~ (is_uploader w id sub \/ in_message_with_file w id sub) ->
   exists w1, same_state w w1
     /\ FileController.getFile id sub w = (inl (NotFoundException "File not found"), w1))
  /\ (FilesController.requester user = Some account -> account <> EmptyString ->
      ~ in_message_with_url w filename account ->
      exists msg w1, same_state w w1
        /\ FilesController.downloadFile filename user w = (inl (NotFoundException msg), w1)
        /\ (faults w = [] -> on_disk w (upload_path filename) = true ->
            msg = "File not found or access denied")).
Proof.
  split.
  - intros Hno. apply FileControllerFacts.getFile_hidden. right.
    by apply not_authorized_decision.
  - intros Hreq Hne Hnomsg.
    destruct (on_disk w (upload_path filename)) eqn:Hon.
    + destruct (FilesControllerFacts.downloadFile_refused filename user account w)
        as (msg & w1 & Hsame & Hrun & Hmsg); try done.
      * destruct (find _ (messages w)) as [m|] eqn:Hfind; [|done].
        exfalso. apply Hnomsg, FilesControllerFacts.url_query_spec. by rewrite Hfind.
      * exists msg, w1. auto.
    + exists "File not found", w. split; [by repeat split |]. split; [| done].
      apply FilesControllerFacts.downloadFile_missing; [| done].
      apply FilesControllerFacts.truthy_Some. eauto.
Qed.

Lemma refusal_is_not_found_witness :
  (exists w1, same_state world_uploaded w1
     /\ FileController.getFile "f-1" "u-bob" world_uploaded
        = (inl (NotFoundException "File not found"), w1))
  /\ (exists msg w1, same_state world_uploaded w1
        /\ FilesController.downloadFile "7c9e.pdf" (as_sub "u-bob") world_uploaded
           = (inl (NotFoundException msg), w1)
        /\ (faults world_uploaded = [] ->
            on_disk world_uploaded (upload_path "7c9e.pdf") = true ->
            msg = "File not found or access denied")).
Proof.
  exact (conj
           (proj1 (refusal_is_not_found world_uploaded "f-1" "u-bob" "7c9e.pdf" "u-bob"
                     (as_sub "u-bob")) bob_cannot_read_report)
           (proj2 (refusal_is_not_found world_uploaded "f-1" "u-bob" "7c9e.pdf" "u-bob"
                     (as_sub "u-bob")) eq_refl ltac:(discriminate)
              bob_not_in_message_with_url)).
Defined.

(** ** C8: a forbidden file looks like a missing one *)

(** C8.  For a requester without access, [getFile] and [getFileInfo] answer
    with the [NotFoundException] "File not found" that an unknown id gets,
    whatever the collaborators do, and leave tables, disk and trace as they
    were: the two cases cannot be told apart. *)
Theorem forbidden_looks_missing (w : World) (id missing sub : string) :
  ~ (is_uploader w id sub \/ in_message_with_file w id sub) ->
  lookup_file w missing = None ->
  (exists w1 w2, same_state w w1 /\ same_state w w2
     /\ FileController.getFile id sub w = (inl (NotFoundException "File not found"), w1)
     /\ FileController.getFile missing sub w
        = (inl (NotFoundException "File not found"), w2))
  /\ (exists w1 w2, same_state w w1 /\ same_state w w2
        /\ FileController.getFileInfo id sub w
           = (inl (NotFoundException "File not found"), w1)
        /\ FileController.getFileInfo missing sub w
           = (inl (NotFoundException "File not found"), w2)).
Proof.
  intros Hno Hmissing. apply not_authorized_decision in Hno. split.
  - destruct (FileControllerFacts.getFile_hidden id sub w) as (w1 & Hs1 & Hr1); [by right |].
    destruct (FileControllerFacts.getFile_hidden missing sub w) as (w2 & Hs2 & Hr2);
      [by left |].
    by exists w1, w2.
  - destruct (FileControllerFacts.getFileInfo_hidden id sub w) as (w1 & Hs1 & Hr1);
      [by right |].
    destruct (FileControllerFacts.getFileInfo_hidden missing sub w) as (w2 & Hs2 & Hr2);
      [by left |].
    by exists w1, w2.
Qed.

Lemma forbidden_looks_missing_witness :
  exists w1 w2, same_state world_uploaded w1 /\ same_state world_uploaded w2
    /\ FileController.getFile "f-1" "u-bob" world_uploaded
       = (inl (NotFoundException "File not found"), w1)
    /\ FileController.getFile "f-404" "u-bob" world_uploaded
       = (inl (NotFoundException "File not found"), w2).
Proof.
  exact (proj1 (forbidden_looks_missing world_uploaded "f-1" "f-404" "u-bob"
                  bob_cannot_read_report eq_refl)).
Defined.

(** ** C2: the announced transfer method *)

(** C2.  For a selected file, the label announces the server (relay) upload
    exactly when the size exceeds 10 MiB or the receiver is offline, and the
    peer-to-peer transfer exactly otherwise; above 10 MiB it announces the
    server upload, as a large file, whether or not the receiver is online. *)
Theorem transfer_method_policy (selectedFile : MessageInput.SelectedFile)
    (isUserOnline : bool) :
  let label := MessageInput.getFileTransferMethod (Some selectedFile) in
  (10 * 1024 * 1024 < MessageInput.size selectedFile \/ isUserOnline = false
   <-> announced (label isUserOnline) = Some relay)
  /\ (MessageInput.size selectedFile <= 10 * 1024 * 1024 /\ isUserOnline = true
      <-> announced (label isUserOnline) = Some p2p)
  /\ (10 * 1024 * 1024 < MessageInput.size selectedFile ->
      forall online, announced (label online) = Some relay
                     /\ label online = " (Server upload - large file)")
  /\ (MessageInput.size selectedFile <= 10 * 1024 * 1024 ->
      label false = " (Server upload - user offline)"
      /\ label true = " (P2P preferred, server fallback)").
Proof.
  simpl. unfold MessageInput.getFileTransferMethod.
  destruct (bool_decide_reflect (10 * 1024 * 1024 < MessageInput.size selectedFile))
    as [Hlarge | Hsmall].
  - split; [| split; [| split]].
    + split; [done | by left].
    + split; [lia | discriminate].
    + intros _ online. by split.
    + lia.
  - destruct isUserOnline; (split; [| split; [| split]]); try (intros; lia);
      try (intros _; by split).
    + split; [intros [? | ?]; [lia | discriminate] | discriminate].
    + split; [done | intros _; split; [lia | done]].
    + split; [done | by right].
    + split; [intros [_ ?]; discriminate | discriminate].
Qed.

(** ** C3: persist, then notify *)

Lemma persist_before_notify_none (tr : list Event) :
  (forall m, ~ In (Notified m) tr) -> persist_before_notify tr.
Proof.
  intros Hnone i m Hi. exfalso. apply (Hnone m).
  apply list_elem_of_In, list_elem_of_lookup. eauto.
Qed.

Lemma uploadFile_quiet_success file sender receiver user w :
  faults w = [] ->
  FilesController.requester user = Some sender -> sender <> EmptyString ->
  receiver <> EmptyString ->
  user_exists sender w = true -> user_exists receiver w = true ->
  exists m w',
    FilesController.uploadFile (Some file) (Some receiver) user w
    = (inr (FilesController.mkUploadReply "File uploaded successfully" m), w')
    /\ trace w' = (trace w ++ [Persisted m; Notified m])%list
    /\ Message.senderId m = sender /\ Message.receiverId m = receiver.
Proof.
  intros Hq Hreq Hs Hr Hes Her. unfold FilesController.uploadFile.
  assert (Hts : truthy (FilesController.requester user) = true)
    by (apply FilesControllerFacts.truthy_Some; eauto).
  assert (Htr : truthy (Some receiver) = true)
    by (apply FilesControllerFacts.truthy_Some; eauto).
  rewrite Hts, Htr, Hreq. simpl.
  unfold try_catch, bind, prisma_message_create, notifyFileUploadComplete, await, modify.
  rewrite Hq. simpl. rewrite Hes, Her. simpl. rewrite Hq.
  eexists _, _. split; [reflexivity |]. simpl. split; [|done].
  by rewrite <- app_assoc.
Qed.

(** C3.  In every run of the relay upload the trace is only extended, every
    notification in the extension comes after the persistence of the same
    message, and a notified message is a persisted record of kind "file"
    that the reply carries.  When the collaborators are quiet and sender and
    receiver are users, the run does persist and then notify. *)
Theorem relay_upload_persists_before_notifying (file : option MulterFile.t)
    (receiverId : option string) (user : option FilesController.JwtUser) (w : World) :
  let run := FilesController.uploadFile file receiverId user w in
  (exists new,
     trace run.2 = (trace w ++ new)%list
     /\ persist_before_notify new
     /\ (forall m, In (Notified m) new ->
           In m (messages run.2) /\ Message.type m = "file"
           /\ run.1 = inr (FilesController.mkUploadReply "File uploaded successfully" m)))
  /\ (forall f sender receiver,
        file = Some f -> receiverId = Some receiver ->
        faults w = [] ->
        FilesController.requester user = Some sender -> sender <> EmptyString ->
        receiver <> EmptyString ->
        user_exists sender w = true -> user_exists receiver w = true ->
        exists m, run.1 = inr (FilesController.mkUploadReply "File uploaded successfully" m)
                  /\ trace run.2 = (trace w ++ [Persisted m; Notified m])%list).
Proof.
  simpl. split.
  - destruct file as [file|].
    2:{ exists []. simpl. split; [by rewrite app_nil_r |].
        split; [apply persist_before_notify_none; intros m [] | intros m []]. }
    destruct (FilesController.uploadFile (Some file) receiverId user w) as [r w'] eqn:Hrun.
    apply FilesControllerFacts.uploadFile_outcome in Hrun. simpl.
    destruct Hrun as [msg unl Ht Htr Hunl | e unl Ht Hgone Htr Hunl
                     | m e unl Hm Hread Hkind Hgone Htr Hunl | m Hm Hread Hkind Hd Htr].
    + exists unl. split; [done |].
      assert (Hnone : forall m, ~ In (Notified m) unl)
        by (intros m; destruct Hunl as [-> | ->]; simpl; intuition discriminate).
      split; [by apply persist_before_notify_none | intros m Hin; by destruct (Hnone m)].
    + exists unl. split; [done |].
      assert (Hnone : forall m, ~ In (Notified m) unl)
        by (intros m; destruct Hunl as [-> | ->]; simpl; intuition discriminate).
      split; [by apply persist_before_notify_none | intros m Hin; by destruct (Hnone m)].
    + exists (Persisted m :: unl). split; [done |].
      assert (Hnone : forall m', ~ In (Notified m') (Persisted m :: unl))
        by (intros m'; destruct Hunl as [-> | ->]; simpl; intuition discriminate).
      split; [by apply persist_before_notify_none | intros m' Hin; by destruct (Hnone m')].
    + exists [Persisted m; Notified m]. split; [done |]. split.
      * intros [|[|i]] m'; simpl; [discriminate | | by destruct i].
        intros [= <-]. exists 0%nat. split; [lia | done].
      * intros m' [Hin | [Hin | []]]; [discriminate |]. injection Hin as <-.
        split; [| by split]. rewrite Hm. apply in_or_app. right. by left.
  - intros f sender receiver -> -> Hq Hreq Hs Hr Hes Her.
    destruct (uploadFile_quiet_success f sender receiver user w)
      as (m & w' & -> & Htr & _); try done.
    by exists m.
Qed.

Example relay_upload_run :
  let run := FilesController.uploadFile (Some cat_picture) (Some "u-bob")
               (as_sub "u-alice") world_ready in
  run.1 = inr (FilesController.mkUploadReply "File uploaded successfully" cat_message)
  /\ messages run.2 = [cat_message]
  /\ trace run.2 = [Persisted cat_message; Notified cat_message].
Proof. by vm_compute. Qed.

(** Bob, the receiver, can then download the file by its name; Carol cannot. *)
Example relay_download_run :
  let w := after (FilesController.uploadFile (Some cat_picture) (Some "u-bob")
                    (as_sub "u-alice")) world_ready in
  (exists d, (FilesController.downloadFile "ab12.png" (as_sub "u-bob") w).1 = inr d)
  /\ (FilesController.downloadFile "ab12.png" (as_sub "u-carol") w).1
     = inl (NotFoundException "File not found or access denied").
Proof. split; [eexists |]; by vm_compute. Qed.

(** ** C4: a failed write aborts the relay upload *)

(** C4.  When the write of the message record fails, by a database fault or
    by a constraint, the relay upload ends with that same error, no table has
    changed, the uploaded file is no longer on disk, and the only effect that
    may have been added to the trace is the removal of that file. *)
Theorem storage_failure_aborts_upload (file : MulterFile.t) (receiverId : option string)
    (user : option FilesController.JwtUser) (w w1 : World) (e : Exception) :
  truthy (FilesController.requester user) = true ->
  truthy receiverId = true ->
  prisma_message_create
    (FilesController.fileMessage file
       (default EmptyString (FilesController.requester user))
       (default EmptyString receiverId)) w = (inl e, w1) ->
  exists w' unl,
    FilesController.uploadFile (Some file) receiverId user w = (inl e, w')
    /\ users w' = users w /\ messages w' = messages w /\ files w' = files w
    /\ Fs.file_size (disk w') (MulterFile.path file) = None
    /\ trace w' = (trace w ++ unl)%list
    /\ (unl = [] \/ unl = [Unlinked (MulterFile.path file)]).
Proof.
  intros Hs Hr Hfail.
  destruct (FilesControllerFacts.uploadFile_storage_failure file receiverId user w e w1)
    as (w' & unl & Hrun & (Hu & Hm & Hf) & Hgone & Htr & Hunl); try done.
  exists w', unl. by repeat split.
Qed.

Lemma storage_failure_aborts_upload_witness :
  exists w' unl,
    FilesController.uploadFile (Some cat_picture) (Some "u-bob") (as_sub "u-alice")
      world_storage_down = (inl (Error "connection lost"), w')
    /\ users w' = users world_storage_down
    /\ messages w' = messages world_storage_down
    /\ files w' = files world_storage_down
    /\ Fs.file_size (disk w') (MulterFile.path cat_picture) = None
    /\ trace w' = (trace world_storage_down ++ unl)%list
    /\ (unl = [] \/ unl = [Unlinked (MulterFile.path cat_picture)]).
Proof.
  exact (storage_failure_aborts_upload cat_picture (Some "u-bob") (as_sub "u-alice")
           world_storage_down (set_faults [] world_storage_down)
           (Error "connection lost") eq_refl eq_refl eq_refl).
Defined.

Example storage_failure_run :
  (FilesController.uploadFile (Some cat_picture) (Some "u-bob") (as_sub "u-alice")
     world_storage_down).1 = inl (Error "connection lost")
  /\ trace (FilesController.uploadFile (Some cat_picture) (Some "u-bob") (as_sub "u-alice")
              world_storage_down).2 = [Unlinked "uploads/ab12.png"].
Proof. vm_compute. done. Qed.

(** ** C6: messages are created unread and never rewritten *)

Lemma appends_unread_keep {A} (c : M A) :
  (forall w, messages (c w).2 = messages w) -> appends_unread c.
Proof. intros Hkeep w. exists []. by rewrite Hkeep, app_nil_r. Qed.

Lemma appends_ret {A} (a : A) : appends_unread (ret a).
Proof. by apply appends_unread_keep. Qed.

Lemma appends_throw {A} (e : Exception) : appends_unread (@throw A e).
Proof. by apply appends_unread_keep. Qed.

Lemma appends_get {A} (f : World -> A) : appends_unread (get f).
Proof. by apply appends_unread_keep. Qed.

Lemma appends_bind {A B} (c : M A) (k : A -> M B) :
  appends_unread c -> (forall a, appends_unread (k a)) -> appends_unread (bind c k).
Proof.
  intros Hc Hk w. unfold bind. destruct (Hc w) as (add1 & Hm1 & Hu1).
  destruct (c w) as [[e|a] w1]; simpl in *; [by exists add1 |].
  destruct (Hk a w1) as (add2 & Hm2 & Hu2).
  exists (add1 ++ add2)%list. rewrite Hm2, Hm1, <- app_assoc.
  split; [done | by apply Forall_app].
Qed.

Lemma appends_try_catch {A} (body : M A) (handler : Exception -> M A) :
  appends_unread body -> (forall e, appends_unread (handler e)) ->
  appends_unread (try_catch body handler).
Proof.
  intros Hb Hh w. unfold try_catch. destruct (Hb w) as (add1 & Hm1 & Hu1).
  destruct (body w) as [[e|a] w1]; simpl in *; [| by exists add1].
  destruct (Hh e w1) as (add2 & Hm2 & Hu2).
  exists (add1 ++ add2)%list. rewrite Hm2, Hm1, <- app_assoc.
  split; [done | by apply Forall_app].
Qed.

Lemma appends_await {A} (call : M A) : appends_unread call -> appends_unread (await call).
Proof.
  intros Hc w. unfold await. destruct (faults w) as [|[e|] fl]; [apply Hc | |].
  - exists []. by rewrite app_nil_r.
  - apply (Hc (set_faults fl w)).
Qed.

Lemma appends_existsSync p : appends_unread (existsSync p).
Proof. apply appends_get. Qed.

Lemma appends_unlinkSync p : appends_unread (unlinkSync p).
Proof.
  apply appends_unread_keep. intros w. unfold unlinkSync.
  by destruct (Fs.unlink (disk w) p).
Qed.

Lemma appends_pipe_file p : appends_unread (pipe_file p).
Proof. by apply appends_unread_keep. Qed.

Lemma appends_statSync_size p : appends_unread (statSync_size p).
Proof.
  apply appends_unread_keep. intros w. unfold statSync_size.
  by destruct (Fs.file_size (disk w) p).
Qed.

Lemma appends_notify m : appends_unread (notifyFileUploadComplete m).
Proof. apply appends_await. by apply appends_unread_keep. Qed.

Lemma appends_file_create data : appends_unread (prisma_file_create data).
Proof.
  apply appends_await, appends_unread_keep. intros w.
  by destruct (user_exists _ w).
Qed.

Lemma appends_user_create data : appends_unread (prisma_user_create data).
Proof.
  apply appends_await, appends_unread_keep. intros w.
  by destruct (unique_violation _ _ _ _).
Qed.

Lemma appends_user_update email googleId avatar :
  appends_unread (prisma_user_update_by_email email googleId avatar).
Proof.
  apply appends_await, appends_unread_keep. intros w.
  destruct (find _ (users w)); [|done]. by destruct (existsb _ _).
Qed.

(** The table default: a message created without [isRead] is unread. *)
Lemma appends_message_create data :
  MessageCreateInput.isRead data = None \/ MessageCreateInput.isRead data = Some false ->
  appends_unread (prisma_message_create data).
Proof.
  intros Hdefault. apply appends_await. intros w.
  destruct (user_exists _ w && user_exists _ w); simpl.
  - eexists [_]. split; [done |]. constructor; [|done].
    unfold unread. simpl. by destruct Hdefault as [-> | ->].
  - exists []. by rewrite app_nil_r.
Qed.

Create HintDb appends discriminated.

#[local] Hint Resolve appends_ret appends_throw appends_get appends_await
  appends_existsSync appends_unlinkSync appends_pipe_file appends_statSync_size
  appends_notify appends_file_create appends_user_create appends_user_update
  : appends.

(** Walks a handler body: sequencing, handlers, branches, then the leaves. *)
Ltac appends_step :=
  match goal with
  | |- appends_unread (bind _ _) => apply appends_bind; [| intros ?]
  | |- appends_unread (try_catch _ _) => apply appends_try_catch; [| intros ?]
  | |- appends_unread (if ?b then _ else _) => destruct b
  | |- appends_unread (match ?x with _ => _ end) => destruct x
  | |- appends_unread (prisma_message_create _) => apply appends_message_create; by left
  | |- appends_unread _ => solve [auto with appends]
  end.

Ltac appends := repeat appends_step.

Lemma appends_checkFileAccess fileId userId :
  appends_unread (FileController.checkFileAccess fileId userId).
Proof.
  unfold FileController.checkFileAccess, prisma_file_findUnique, prisma_message_findFirst.
  appends.
Qed.

#[local] Hint Resolve appends_checkFileAccess : appends.

Lemma appends_cleanup p : appends_unread (FilesController.cleanup p).
Proof. unfold FilesController.cleanup. appends. Qed.

#[local] Hint Resolve appends_cleanup : appends.

Lemma appends_findUniqueUsername fuel username candidate counter :
  appends_unread (GoogleAuthService.findUniqueUsername fuel username candidate counter).
Proof.
  revert candidate counter. induction fuel as [|fuel IH]; intros candidate counter; simpl.
  - apply appends_ret.
  - unfold prisma_user_findUnique_username. appends.
Qed.

#[local] Hint Resolve appends_findUniqueUsername : appends.

Lemma appends_handle `{Bcrypt} (r : Request) (w : World) :
  exists added,
    messages (handle r w) = (messages w ++ added)%list /\ Forall unread added.
Proof.
  assert (Hgoal : forall A (c : M A), appends_unread c ->
            exists added, messages (after c w) = (messages w ++ added)%list
                          /\ Forall unread added)
    by (intros A c Hc; apply Hc).
  destruct r; simpl; apply Hgoal.
  - unfold FileController.uploadFile. appends.
  - unfold FileController.getFile, prisma_file_findUnique. appends.
  - unfold FileController.getFileInfo, prisma_file_findUnique. appends.
  - unfold FilesController.uploadFile. appends.
  - unfold FilesController.downloadFile, prisma_message_findFirst. appends.
  - unfold ManualAuthService.validateCredentials, prisma_user_findUnique_email. appends.
  - unfold ManualAuthService.createUser. appends.
  - unfold GoogleAuthService.validateGoogleUser, prisma_user_findUnique_googleId,
      prisma_user_findUnique_email. appends.
Qed.

(** C6.  Over every sequence of requests the modelled code can serve, the
    [messages] table only grows at its end: each message added since the
    start is unread, and each message persisted at the start is still there,
    unchanged, so no [isRead] goes back from true to false. *)
Theorem messages_created_unread_and_kept `{Bcrypt} (rs : list Request) (w : World) :
  (exists added,
     messages (serve rs w) = (messages w ++ added)%list /\ Forall unread added)
  /\ (forall i m, messages w !! i = Some m -> messages (serve rs w) !! i = Some m).
Proof.
  assert (Hgrow : exists added,
            messages (serve rs w) = (messages w ++ added)%list /\ Forall unread added).
  { revert w. induction rs as [|r rs IH]; intros w.
    - exists []. by rewrite app_nil_r.
    - destruct (appends_handle r w) as (add1 & Hm1 & Hu1).
      destruct (IH (handle r w)) as (add2 & Hm2 & Hu2).
      exists (add1 ++ add2)%list.
      change (serve (r :: rs) w) with (serve rs (handle r w)).
      rewrite Hm2, Hm1, <- app_assoc.
      split; [done | by apply Forall_app]. }
  split; [done |].
  destruct Hgrow as (added & -> & _). intros i m Hi. by apply lookup_app_l_Some.
Qed.

(** ** The username search of the Google sign-in terminates *)

Module GoogleAuthFacts.
Import GoogleAuthService.

Lemma append_cancel (s x y : string) : s +:+ x = s +:+ y -> x = y.
Proof. induction s as [|a s IH]; simpl; [done |]. intros [= Heq]. by apply IH. Qed.

Lemma append_self (s x : string) : s = s +:+ x -> x = EmptyString.
Proof. induction s as [|a s IH]; simpl; [done |]. intros [= Heq]. by apply IH. Qed.

Lemma decimal_inj (j k : nat) : decimal j = decimal k -> j = k.
Proof.
  unfold decimal. intros Heq. apply Unsigned.to_uint_inj.
  apply (f_equal NilEmpty.uint_of_string) in Heq.
  rewrite !NilEmpty.usu in Heq. by injection Heq.
Qed.

Lemma decimal_nonempty (k : nat) : decimal k <> EmptyString.
Proof.
  unfold decimal. intros Heq.
  assert (Hnil : Nat.to_uint k = Decimal.Nil).
  { apply (f_equal NilEmpty.uint_of_string) in Heq.
    rewrite NilEmpty.usu in Heq. by injection Heq. }
  pose proof (Unsigned.of_to k) as Hk. rewrite Hnil in Hk. simpl in Hk. subst k.
  discriminate Hnil.
Qed.

Lemma tried_numbered fuel username counter :
  tried fuel username (username +:+ decimal counter) (S counter)
  = map (fun k => username +:+ decimal k) (seq counter fuel).
Proof.
  revert counter. induction fuel as [|fuel IH]; intros counter; simpl; [done |].
  by rewrite IH.
Qed.

Lemma tried_distinct fuel username : List.NoDup (tried fuel username username 1).
Proof.
  destruct fuel as [|fuel]; simpl; [constructor |].
  rewrite tried_numbered. constructor.
  - intros Hin. apply in_map_iff in Hin as (k & Heq & _).
    symmetry in Heq. apply append_self in Heq. by apply decimal_nonempty in Heq.
  - apply Injective_map_NoDup; [| apply seq_NoDup].
    intros j k Heq. by apply decimal_inj, (append_cancel username).
Qed.

Lemma taken_in w s : taken w s = true -> In s (map User.username (users w)).
Proof.
  unfold taken. rewrite found_find. intros (u & Hin & Heq).
  apply String.eqb_eq in Heq. apply in_map_iff. eauto.
Qed.

(** With quiet collaborators the loop reads and never writes; it stops at
    the first free candidate, or reports that every candidate it tried was
    taken. *)
Lemma findUniqueUsername_quiet w username :
  faults w = [] ->
  forall fuel candidate counter,
    (exists s, findUniqueUsername fuel username candidate counter w = (inr (Some s), w)
               /\ taken w s = false)
    \/ (findUniqueUsername fuel username candidate counter w = (inr None, w)
        /\ Forall (fun s => taken w s = true) (tried fuel username candidate counter)).
Proof.
  intros Hq. induction fuel as [|fuel IH]; intros candidate counter; simpl.
  - right. by split.
  - unfold bind, prisma_user_findUnique_username. rewrite await_get_quiet by done.
    destruct (find _ (users w)) as [u|] eqn:Hfind.
    + destruct (IH (username +:+ decimal counter) (S counter))
        as [(s & -> & Hfree) | [-> Hall]]; [left; eauto |].
      right. split; [done |]. constructor; [|done]. unfold taken. by rewrite Hfind.
    + left. exists candidate. split; [done |]. unfold taken. by rewrite Hfind.
Qed.

(** [fuel_suffices]: one more iteration than there are users is enough. *)
Lemma fuel_suffices w username :
  faults w = [] ->
  exists s, findUniqueUsername (S (length (users w))) username username 1 w
            = (inr (Some s), w)
            /\ taken w s = false.
Proof.
  intros Hq.
  destruct (findUniqueUsername_quiet w username Hq (S (length (users w))) username 1)
    as [Hfound | [_ Hall]]; [done |].
  exfalso.
  assert (Hle : (length (tried (S (length (users w))) username username 1)
                 <= length (map User.username (users w)))%nat).
  { apply List.NoDup_incl_length; [apply tried_distinct |].
    intros s Hin. apply taken_in. by apply (proj1 (List.Forall_forall _ _) Hall). }
  assert (Hlen : forall fuel candidate counter,
            length (tried fuel username candidate counter) = fuel).
  { induction fuel as [|fuel IH]; intros; simpl; [done | by rewrite IH]. }
  rewrite Hlen, length_map in Hle. lia.
Qed.

Lemma find_none_existsb {A} (p q : A -> bool) (l : list A) :
  find p l = None -> (forall x, q x = true -> p x = true) -> existsb q l = false.
Proof.
  intros Hnone Himp. induction l as [|x l IH]; simpl in *; [done |].
  destruct (p x) eqn:Hp; [discriminate |].
  destruct (q x) eqn:Hq; [by rewrite (Himp x Hq) in Hp |]. by apply IH.
Qed.

(** With quiet collaborators the Google sign-in always returns an account. *)
Lemma validateGoogleUser_quiet (g : GoogleUser) (w : World) :
  faults w = [] ->
  exists account w', validateGoogleUser g w = (inr account, w').
Proof.
  intros Hq. unfold validateGoogleUser.
  unfold bind at 1, prisma_user_findUnique_googleId. rewrite await_get_quiet by done.
  destruct (find (fun u => column_is (User.googleId u) (googleId g)) (users w))
    as [u|] eqn:Hgoogle.
  { unfold bind, ret. eauto. }
  unfold bind at 1. unfold bind at 1, prisma_user_findUnique_email.
  rewrite await_get_quiet by done.
  destruct (find (fun u => String.eqb (User.email u) (email g)) (users w))
    as [u|] eqn:Hemail.
  - unfold prisma_user_update_by_email. rewrite await_quiet by done. rewrite Hemail.
    rewrite (find_none_existsb _ _ _ Hgoogle).
    + unfold ret. eauto.
    + intros x Hx. by apply andb_true_iff in Hx as [? _].
  - unfold bind at 1, get. unfold bind at 1.
    destruct (fuel_suffices w (username g) Hq) as (s & -> & Hfree).
    unfold prisma_user_create. rewrite await_quiet by done. simpl.
    assert (Hok : unique_violation (email g) s (Some (googleId g)) (users w) = false).
    { unfold unique_violation. clear Hq.
      unfold taken in Hfree. destruct (find _ (users w)) as [?|] eqn:Hname in Hfree;
        [discriminate |].
      induction (users w) as [|x l IH]; simpl in *; [done |].
      destruct (String.eqb (User.email x) (email g)); [discriminate |].
      destruct (String.eqb (User.username x) s); [discriminate |].
      destruct (column_is (User.googleId x) (googleId g)); [discriminate |].
      simpl. by apply IH. }
    rewrite Hok. unfold ret. eauto.
Qed.

End GoogleAuthFacts.

(** ** C7: the credential verifier *)

Lemma world_uploaded_email_key : users_email_key world_uploaded.
Proof. apply (bool_decide_unpack _). vm_compute. exact I. Defined.

Lemma rest_has_no_password (user : gmap string JsValue) :
  rest_without_password user !! "password" = None.
Proof. apply lookup_delete_eq. Qed.

Lemma rest_keeps_id (u : User.t) :
  rest_without_password (user_object u) !! "id" = Some (JsString (User.id u)).
Proof.
  unfold rest_without_password, user_object.
  rewrite lookup_delete_ne by done. apply lookup_insert_eq.
Qed.

Lemma validateCredentials_quiet `{Bcrypt} w email password :
  faults w = [] ->
  ManualAuthService.validateCredentials email password w
  = (inr match find (fun u => String.eqb (User.email u) email) (users w) with
         | Some user =>
           if truthy (User.password user)
              && bcrypt_compare password (default EmptyString (User.password user))
           then Some (rest_without_password (user_object user))
           else None
         | None => None
         end, w).
Proof.
  intros Hq. unfold ManualAuthService.validateCredentials, bind,
    prisma_user_findUnique_email.
  rewrite await_get_quiet by done.
  destruct (find _ (users w)) as [u|]; [|done].
  by destruct (truthy _ && _).
Qed.

(** C7.  Whenever the verifier returns, it returns an account exactly when
    some user has the presented email, a stored hash, and a bcrypt match; the
    account is that user's record without [password], so it still holds [id].
    In every other case it returns null.  With a quiet database it returns. *)
Theorem credential_verifier_spec `{Bcrypt} (w : World) (email password : string) :
  users_email_key w ->
  (forall r w',
     ManualAuthService.validateCredentials email password w = (inr r, w') ->
     match r with
     | Some account =>
       exists u, verified w email password u
                 /\ account = rest_without_password (user_object u)
                 /\ account !! "id" = Some (JsString (User.id u))
                 /\ account !! "password" = None
     | None => ~ exists u, verified w email password u
     end)
  /\ (faults w = [] ->
      exists r, ManualAuthService.validateCredentials email password w = (inr r, w)).
Proof.
  intros Hkey. split.
  2:{ intros Hq. eexists. by apply validateCredentials_quiet. }
  intros r w' Hrun. unfold ManualAuthService.validateCredentials in Hrun.
  apply bind_returns in Hrun as (found_user & w1 & Hfind & Hrun).
  apply await_get_returns in Hfind as [_ Hfound].
  assert (Hu : found_user = find (fun u => String.eqb (User.email u) email) (users w))
    by (by destruct Hfound as [-> | [fl ->]]).
  clear Hfound. subst found_user.
  destruct (find _ (users w)) as [u|] eqn:Hfind.
  - pose proof (find_some _ _ Hfind) as [Hin Hemail]. apply String.eqb_eq in Hemail.
    destruct (truthy (User.password u)
              && bcrypt_compare password (default EmptyString (User.password u)))
      eqn:Hcheck; injection Hrun as <- <-.
    + apply andb_true_iff in Hcheck as [Hstored Hmatch].
      apply FilesControllerFacts.truthy_Some in Hstored as (hash & Hhash & Hne).
      rewrite Hhash in Hmatch. simpl in Hmatch.
      exists u. split; [| split; [done | split]].
      * split; [done |]. split; [done |]. by exists hash.
      * apply rest_keeps_id.
      * apply rest_has_no_password.
    + intros (u' & Hin' & Hemail' & hash & Hhash & Hne & Hmatch).
      assert (u' = u) as ->.
      { pose proof (find_pkey User.email (users w) u' Hkey Hin') as Hsame.
        rewrite Hemail' in Hsame. congruence. }
      rewrite Hhash in Hcheck. simpl in Hcheck. rewrite Hmatch, andb_true_r in Hcheck.
      apply negb_false_iff, String.eqb_eq in Hcheck. done.
  - injection Hrun as <- <-. intros (u' & Hin' & Hemail' & _).
    apply (find_none _ _ Hfind) in Hin'. apply String.eqb_neq in Hin'. done.
Qed.

Lemma credential_verifier_spec_witness :
  users_email_key world_uploaded
  /\ (faults world_uploaded = [] ->
      exists r, @ManualAuthService.validateCredentials sample_bcrypt
                  "alice@example.org" "wonderland" world_uploaded
                = (inr r, world_uploaded)).
Proof.
  split; [exact world_uploaded_email_key |].
  exact (proj2 (@credential_verifier_spec sample_bcrypt world_uploaded
                  "alice@example.org" "wonderland" world_uploaded_email_key)).
Defined.

Example alice_signs_in :
  exists account,
    @ManualAuthService.validateCredentials sample_bcrypt
      "alice@example.org" "wonderland" world_uploaded = (inr (Some account), world_uploaded)
    /\ account !! "id" = Some (JsString "u-alice")
    /\ account !! "password" = None.
Proof. eexists. split; [reflexivity |]. by vm_compute. Qed.

Example carol_has_no_password :
  @ManualAuthService.validateCredentials sample_bcrypt
    "carol@example.org" "anything" world_uploaded = (inr None, world_uploaded).
Proof. reflexivity. Qed.

(** ** C9: no result carries the password *)

Lemma createUser_quiet `{Bcrypt} w email username password :
  faults w = [] ->
  unique_violation email username None (users w) = false ->
  exists account w',
    ManualAuthService.createUser email username password w = (inr account, w').
Proof.
  intros Hq Hfree. unfold ManualAuthService.createUser, bind, prisma_user_create.
  rewrite await_quiet by done. simpl. rewrite Hfree. unfold ret. eauto.
Qed.

(** C9.  Whatever [validateCredentials], [createUser] and
    [validateGoogleUser] return, the returned object has no [password]
    property.  The operations do return: with a quiet database
    [validateGoogleUser] always yields an account, and [createUser] does so
    whenever email and username are free. *)
Theorem results_carry_no_password `{Bcrypt} (w : World) :
  (forall email password account w',
     ManualAuthService.validateCredentials email password w = (inr (Some account), w') ->
     account !! "password" = None)
  /\ (forall email username password account w',
        ManualAuthService.createUser email username password w = (inr account, w') ->
        account !! "password" = None)
  /\ (forall googleUser account w',
        GoogleAuthService.validateGoogleUser googleUser w = (inr account, w') ->
        account !! "password" = None)
  /\ (forall googleUser, faults w = [] ->
        exists account w',
          GoogleAuthService.validateGoogleUser googleUser w = (inr account, w'))
  /\ (forall email username password, faults w = [] ->
        unique_violation email username None (users w) = false ->
        exists account w',
          ManualAuthService.createUser email username password w = (inr account, w')).
Proof.
  split; [| split; [| split; [| split]]].
  - intros email password account w' Hrun.
    unfold ManualAuthService.validateCredentials in Hrun.
    apply bind_returns in Hrun as (user & w1 & _ & Hrun).
    destruct user as [user|]; [|discriminate].
    destruct (truthy _ && _); [|discriminate].
    injection Hrun as <- <-. apply rest_has_no_password.
  - intros email username password account w' Hrun.
    unfold ManualAuthService.createUser in Hrun.
    apply bind_returns in Hrun as (user & w1 & _ & Hrun).
    injection Hrun as <- <-. apply rest_has_no_password.
  - intros googleUser account w' Hrun.
    unfold GoogleAuthService.validateGoogleUser in Hrun.
    apply bind_returns in Hrun as (first & w1 & _ & Hrun).
    apply bind_returns in Hrun as (user & w2 & _ & Hrun).
    injection Hrun as <- <-. apply rest_has_no_password.
  - intros googleUser Hq. by apply GoogleAuthFacts.validateGoogleUser_quiet.
  - intros email username password Hq Hfree. by apply createUser_quiet.
Qed.

(** Dave signs in with Google for the first time; "alice" is taken, so the
    search settles on "alice1". *)
Example dave_signs_in :
  exists account w',
    GoogleAuthService.validateGoogleUser dave world_uploaded = (inr account, w')
    /\ account !! "username" = Some (JsString "alice1")
    /\ account !! "password" = None.
Proof. eexists _, _. split; [reflexivity |]. by vm_compute. Qed.

(** ** C10: admission rules of the two upload endpoints *)

Lemma includes_In (l : list string) (s : string) :
  FileController.includes l s = true <-> In s l.
Proof.
  unfold FileController.includes. rewrite existsb_exists. split.
  - intros (x & Hin & Heq). apply String.eqb_eq in Heq. by subst.
  - intros Hin. exists s. split; [done | apply String.eqb_refl].
Qed.

Lemma whitelist_distinct : NoDup FileController.ALLOWED_MIME_TYPES.
Proof. apply (bool_decide_unpack _). vm_compute. exact I. Qed.

Lemma filter_accepts_whitelisted (file : MulterFile.t) :
  fileFilter FileController.uploadOptions file = Accept
  <-> In (MulterFile.mimetype file) FileController.ALLOWED_MIME_TYPES.
Proof.
  rewrite <- includes_In. unfold FileController.uploadOptions, fileFilter.
  destruct (FileController.includes _ _); split; done.
Qed.

(** C10, as stated, fails on the count: the MIME types that
    [FileController]'s filter accepts are not 23 in number.  The whitelist
    has 24 distinct entries. *)
Lemma whitelist_is_not_23_types :
  ~ (exists types : list string,
       List.NoDup types /\ length types = 23%nat
       /\ forall file, fileFilter FileController.uploadOptions file = Accept
                       <-> In (MulterFile.mimetype file) types).
Proof.
  intros (types & _ & Hlen & Haccept).
  assert (Hle : (length FileController.ALLOWED_MIME_TYPES <= length types)%nat).
  { apply List.NoDup_incl_length; [apply NoDup_ListNoDup, whitelist_distinct |].
    intros t Hin.
    apply (Haccept (MulterFile.mk EmptyString EmptyString t 0 EmptyString)).
    by apply filter_accepts_whitelisted. }
  rewrite Hlen in Hle. simpl in Hle. lia.
Qed.

(** C10 (amended).  Both upload endpoints limit the file to 50 MiB.
    [FileController]'s filter accepts a file exactly when its MIME type is one
    of the 24 distinct whitelisted types and rejects every other file with a
    [BadRequestException]; [FilesController]'s filter accepts every file. *)
Theorem upload_admission_rules (file : MulterFile.t) :
  (fileFilter FileController.uploadOptions file = Accept
   <-> In (MulterFile.mimetype file) FileController.ALLOWED_MIME_TYPES)
  /\ (fileFilter FileController.uploadOptions file <> Accept
      <-> fileFilter FileController.uploadOptions file
          = Reject (BadRequestException
                      ("File type " +:+ MulterFile.mimetype file +:+ " is not allowed")))
  /\ fileFilter FilesController.uploadOptions file = Accept
  /\ limits_fileSize FileController.uploadOptions = 50 * 1024 * 1024
  /\ limits_fileSize FilesController.uploadOptions = 50 * 1024 * 1024
  /\ length FileController.ALLOWED_MIME_TYPES = 24%nat
  /\ NoDup FileController.ALLOWED_MIME_TYPES.
Proof.
  split; [apply filter_accepts_whitelisted |].
  split.
  { unfold FileController.uploadOptions, fileFilter.
    destruct (FileController.includes _ _); split; done. }
  repeat split. apply whitelist_distinct.
Qed.

Example svg_is_admitted_html_is_not :
  fileFilter FileController.uploadOptions
    (MulterFile.mk "logo.svg" "1.svg" "image/svg+xml" 10 "uploads/1.svg") = Accept
  /\ fileFilter FileController.uploadOptions
       (MulterFile.mk "page.html" "2.html" "text/html" 10 "uploads/2.html")
     = Reject (BadRequestException "File type text/html is not allowed")
  /\ fileFilter FilesController.uploadOptions
       (MulterFile.mk "page.html" "2.html" "text/html" 10 "uploads/2.html") = Accept.
Proof. by vm_compute. Qed.

(** * Further properties of the code *)

(** ** Handlers that only read *)

Lemma same_store_refl w : same_store w w.
Proof. by repeat split. Qed.

Lemma same_store_trans w1 w2 w3 :
  same_store w1 w2 -> same_store w2 w3 -> same_store w1 w3.
Proof. intros (?&?&?&?) (?&?&?&?). repeat split; congruence. Qed.

Lemma same_state_store w w' : same_state w w' -> same_store w w'.
Proof. intros (?&?&?&?&_). by repeat split. Qed.

Lemma read_only_keep {A} (c : M A) :
  (forall w, same_store w (c w).2) -> read_only c.
Proof. done. Qed.

Lemma read_only_ret {A} (a : A) : read_only (ret a).
Proof. intros w. apply same_store_refl. Qed.

Lemma read_only_throw {A} (e : Exception) : read_only (@throw A e).
Proof. intros w. apply same_store_refl. Qed.

Lemma read_only_get {A} (f : World -> A) : read_only (get f).
Proof. intros w. apply same_store_refl. Qed.

Lemma read_only_bind {A B} (c : M A) (k : A -> M B) :
  read_only c -> (forall a, read_only (k a)) -> read_only (bind c k).
Proof.
  intros Hc Hk w. unfold bind. pose proof (Hc w) as H1.
  destruct (c w) as [[e|a] w1]; simpl in *; [done |].
  eapply same_store_trans; [exact H1 | apply Hk].
Qed.

Lemma read_only_try_catch {A} (body : M A) (handler : Exception -> M A) :
  read_only body -> (forall e, read_only (handler e)) -> read_only (try_catch body handler).
Proof.
  intros Hb Hh w. unfold try_catch. pose proof (Hb w) as H1.
  destruct (body w) as [[e|a] w1]; simpl in *; [|done].
  eapply same_store_trans; [exact H1 | apply Hh].
Qed.

Lemma read_only_await {A} (call : M A) : read_only call -> read_only (await call).
Proof.
  intros Hc w. unfold await. destruct (faults w) as [|[e|] fl]; [apply Hc | |].
  - by repeat split.
  - apply (Hc (set_faults fl w)).
Qed.

Lemma read_only_pipe_file p : read_only (pipe_file p).
Proof. intros w. by repeat split. Qed.

Lemma read_only_existsSync p : read_only (existsSync p).
Proof. apply read_only_get. Qed.

Lemma read_only_statSync_size p : read_only (statSync_size p).
Proof.
  intros w. unfold statSync_size. destruct (Fs.file_size (disk w) p); apply same_store_refl.
Qed.

Create HintDb reads discriminated.

#[local] Hint Resolve read_only_ret read_only_throw read_only_get read_only_await
  read_only_pipe_file read_only_existsSync read_only_statSync_size : reads.

Ltac read_only_step :=
  match goal with
  | |- read_only (bind _ _) => apply read_only_bind; [| intros ?]
  | |- read_only (try_catch _ _) => apply read_only_try_catch; [| intros ?]
  | |- read_only (if ?b then _ else _) => destruct b
  | |- read_only (match ?x with _ => _ end) => destruct x
  | |- read_only _ => solve [auto with reads]
  end.

Ltac reads := repeat read_only_step.

Lemma read_only_checkFileAccess fileId userId :
  read_only (FileController.checkFileAccess fileId userId).
Proof.
  unfold FileController.checkFileAccess, prisma_file_findUnique, prisma_message_findFirst.
  reads.
Qed.

#[local] Hint Resolve read_only_checkFileAccess : reads.

(** X1.  The GET handlers, the access check and the credential verifier never
    write: after any run, under any schedule of collaborator faults, the three
    tables and the disk are as they were. *)
Theorem reading_handlers_never_write `{Bcrypt} (w : World) :
  (forall fileId userId, same_store w (after (FileController.checkFileAccess fileId userId) w))
  /\ (forall id sub, same_store w (after (FileController.getFile id sub) w))
  /\ (forall id sub, same_store w (after (FileController.getFileInfo id sub) w))
  /\ (forall filename user,
        same_store w (after (FilesController.downloadFile filename user) w))
  /\ (forall email password,
        same_store w (after (ManualAuthService.validateCredentials email password) w)).
Proof.
  assert (Hgoal : forall A (c : M A), read_only c -> same_store w (after c w))
    by (intros A c Hc; apply Hc).
  split; [| split; [| split; [| split]]]; intros; apply Hgoal.
  - apply read_only_checkFileAccess.
  - unfold FileController.getFile, prisma_file_findUnique. reads.
  - unfold FileController.getFileInfo, prisma_file_findUnique. reads.
  - unfold FilesController.downloadFile, prisma_message_findFirst. reads.
  - unfold ManualAuthService.validateCredentials, prisma_user_findUnique_email. reads.
Qed.

(** ** Outcomes of the id-based endpoints *)

Lemma getFile_permitted id sub w f :
  lookup_file w id = Some f ->
  access_decision w id sub = true ->
  exists w1, same_state w w1
    /\ (FileController.getFile id sub w = (inl (NotFoundException "File not found"), w1)
        \/ (on_disk w (join_cwd (File.path f)) = false
            /\ FileController.getFile id sub w
               = (inl (NotFoundException "File not found on disk"), w1))
        \/ (on_disk w (join_cwd (File.path f)) = true
            /\ FileController.getFile id sub w
               = (inr (FileController.mkDownload (File.mimeType f)
                         ("attachment; filename=" +:+ dquote +:+ File.originalName f
                            +:+ dquote)
                         (File.size f) (join_cwd (File.path f))),
                  emit (Streamed (join_cwd (File.path f))) w1))).
Proof.
  intros Hfile Hacc.
  destruct (FileController.getFile id sub w) as [r w'] eqn:Hrun.
  unfold FileController.getFile, try_catch, bind at 1, prisma_file_findUnique in Hrun.
  destruct (await_get_cases (fun w => find (fun f => String.eqb (File.id f) id) (files w)) w)
    as [(e & w1 & Hs & Heq) | (w1 & Hs & Heq)]; rewrite Heq in Hrun; clear Heq.
  { injection Hrun as <- <-. exists w1. split; [done | by left]. }
  pose proof Hs as (_ & _ & Hf & Hd & _ & _). rewrite Hf in Hrun.
  fold (lookup_file w id) in Hrun. rewrite Hfile in Hrun. unfold bind in Hrun.
  destruct (FileControllerFacts.checkFileAccess_cases id sub w1)
    as [(e & w2 & Hs2 & Heq) | (w2 & Hs2 & Heq)]; rewrite Heq in Hrun; clear Heq.
  { injection Hrun as <- <-. exists w2. split; [by eapply same_state_trans | by left]. }
  rewrite (FileControllerFacts.access_decision_same w w1), Hacc in Hrun by done.
  simpl in Hrun.
  pose proof Hs2 as (_ & _ & _ & Hd2 & _ & _).
  unfold existsSync, get, pipe_file, modify, ret in Hrun.
  fold (on_disk w2 (join_cwd (File.path f))) in Hrun.
  assert (Hsame : on_disk w2 (join_cwd (File.path f)) = on_disk w (join_cwd (File.path f))).
  { unfold on_disk. by rewrite Hd2, Hd. }
  rewrite Hsame in Hrun. exists w2. split; [by eapply same_state_trans |].
  destruct (on_disk w (join_cwd (File.path f))); simpl in Hrun;
    injection Hrun as <- <-; right; [right | left]; done.
Qed.

(** X2.  [getFile] either streams the recorded file, once, or fails with a
    [NotFoundException]: database errors are reported as "File not found"
    too.  A failure leaves tables, disk and trace as they were.  With quiet
    collaborators, "File not found on disk" is the answer exactly for a
    readable record whose file is gone. *)
Theorem getFile_outcomes (id sub : string) (w : World) :
  ((exists msg w', FileController.getFile id sub w = (inl (NotFoundException msg), w')
                   /\ same_state w w'
                   /\ (msg = "File not found" \/ msg = "File not found on disk"))
   \/ (exists f d w', FileController.getFile id sub w = (inr d, w')
                      /\ lookup_file w id = Some f
                      /\ FileController.streamed d = join_cwd (File.path f)
                      /\ FileController.Content_Type d = File.mimeType f
                      /\ FileController.Content_Length d = File.size f
                      /\ trace w' = (trace w ++ [Streamed (join_cwd (File.path f))])%list))
  /\ (faults w = [] ->
      ((FileController.getFile id sub w).1 = inl (NotFoundException "File not found on disk")
       <-> exists f, lookup_file w id = Some f /\ access_decision w id sub = true
                     /\ on_disk w (join_cwd (File.path f)) = false)).
Proof.
  split.
  - destruct (lookup_file w id) as [f|] eqn:Hfile.
    2:{ left. destruct (FileControllerFacts.getFile_hidden id sub w) as (w1 & Hs & Hr);
          [by left |]. exists "File not found", w1. auto. }
    destruct (access_decision w id sub) eqn:Hacc.
    2:{ left. destruct (FileControllerFacts.getFile_hidden id sub w) as (w1 & Hs & Hr);
          [by right |]. exists "File not found", w1. auto. }
    destruct (getFile_permitted id sub w f Hfile Hacc)
      as (w1 & Hs & [Hr | [[Hoff Hr] | [Hon Hr]]]).
    + left. exists "File not found", w1. auto.
    + left. exists "File not found on disk", w1. auto.
    + right. eexists f, _, _. split; [exact Hr |]. repeat split.
      simpl. destruct Hs as (_ & _ & _ & _ & _ & ->). done.
  - intros Hq. split.
    + intros Hres.
      destruct (lookup_file w id) as [f|] eqn:Hfile.
      2:{ destruct (FileControllerFacts.getFile_hidden id sub w) as (w1 & _ & Hr);
            [by left |]. rewrite Hr in Hres. discriminate. }
      destruct (access_decision w id sub) eqn:Hacc.
      2:{ destruct (FileControllerFacts.getFile_hidden id sub w) as (w1 & _ & Hr);
            [by right |]. rewrite Hr in Hres. discriminate. }
      exists f. split; [done |]. split; [done |].
      destruct (on_disk w (join_cwd (File.path f))) eqn:Hon; [|done].
      rewrite (FileControllerFacts.getFile_quiet id sub w f) in Hres by done.
      discriminate.
    + intros (f & Hfile & Hacc & Hoff).
      unfold FileController.getFile, try_catch, bind at 1, prisma_file_findUnique.
      rewrite await_get_quiet by done. fold (lookup_file w id). rewrite Hfile.
      unfold bind. rewrite FileControllerFacts.checkFileAccess_quiet, Hacc by done. simpl.
      unfold existsSync, get. fold (on_disk w (join_cwd (File.path f))).
      by rewrite Hoff.
Qed.

Lemma getFileInfo_permitted id sub w f :
  lookup_file w id = Some f ->
  access_decision w id sub = true ->
  exists w1, same_state w w1
    /\ (FileController.getFileInfo id sub w
        = (inl (NotFoundException "File not found"), w1)
        \/ FileController.getFileInfo id sub w
           = (inr (FileController.mkFileInfo (File.id f) (File.originalName f)
                     (File.mimeType f) (File.size f) (File.createdAt f)
                     (FileController.select_uploader (File.uploaderId f) w)), w1)).
Proof.
  intros Hfile Hacc.
  destruct (FileController.getFileInfo id sub w) as [r w'] eqn:Hrun.
  unfold FileController.getFileInfo, try_catch, bind at 1, prisma_file_findUnique in Hrun.
  destruct (await_get_cases (fun w => find (fun f => String.eqb (File.id f) id) (files w)) w)
    as [(e & w1 & Hs & Heq) | (w1 & Hs & Heq)]; rewrite Heq in Hrun; clear Heq.
  { injection Hrun as <- <-. exists w1. split; [done | by left]. }
  pose proof Hs as (Hu & _ & Hf & _). rewrite Hf in Hrun.
  fold (lookup_file w id) in Hrun. rewrite Hfile in Hrun. unfold bind, get in Hrun.
  destruct (FileControllerFacts.checkFileAccess_cases id sub w1)
    as [(e & w2 & Hs2 & Heq) | (w2 & Hs2 & Heq)]; rewrite Heq in Hrun; clear Heq.
  { injection Hrun as <- <-. exists w2. split; [by eapply same_state_trans | by left]. }
  rewrite (FileControllerFacts.access_decision_same w w1), Hacc in Hrun by done.
  simpl in Hrun. injection Hrun as <- <-.
  exists w2. split; [by eapply same_state_trans |]. right.
  unfold FileController.select_uploader. by rewrite Hu.
Qed.

Lemma getFileInfo_quiet id sub w f :
  faults w = [] ->
  lookup_file w id = Some f -> access_decision w id sub = true ->
  FileController.getFileInfo id sub w
  = (inr (FileController.mkFileInfo (File.id f) (File.originalName f)
            (File.mimeType f) (File.size f) (File.createdAt f)
            (FileController.select_uploader (File.uploaderId f) w)), w).
Proof.
  intros Hq Hfile Hacc.
  unfold FileController.getFileInfo, try_catch, bind at 1, prisma_file_findUnique.
  rewrite await_get_quiet by done. fold (lookup_file w id). rewrite Hfile.
  unfold bind, get. rewrite FileControllerFacts.checkFileAccess_quiet, Hacc by done.
  done.
Qed.

(** X3.  [getFileInfo] never touches the disk or the trace: it answers "File not
    found", or the metadata of the record with its uploader's summary.  With
    quiet collaborators it answers every readable record, whether or not the
    file is still on disk. *)
Theorem getFileInfo_outcomes (id sub : string) (w : World) :
  (exists w', same_state w w'
     /\ (FileController.getFileInfo id sub w = (inl (NotFoundException "File not found"), w')
         \/ exists f, lookup_file w id = Some f
                      /\ access_decision w id sub = true
                      /\ FileController.getFileInfo id sub w
                         = (inr (FileController.mkFileInfo (File.id f) (File.originalName f)
                                   (File.mimeType f) (File.size f) (File.createdAt f)
                                   (FileController.select_uploader (File.uploaderId f) w)),
                            w')))
  /\ (faults w = [] ->
      forall f, lookup_file w id = Some f -> access_decision w id sub = true ->
        FileController.getFileInfo id sub w
        = (inr (FileController.mkFileInfo (File.id f) (File.originalName f)
                  (File.mimeType f) (File.size f) (File.createdAt f)
                  (FileController.select_uploader (File.uploaderId f) w)), w)).
Proof.
  split.
  - destruct (lookup_file w id) as [f|] eqn:Hfile.
    2:{ destruct (FileControllerFacts.getFileInfo_hidden id sub w) as (w1 & Hs & Hr);
          [by left |]. exists w1. auto. }
    destruct (access_decision w id sub) eqn:Hacc.
    2:{ destruct (FileControllerFacts.getFileInfo_hidden id sub w) as (w1 & Hs & Hr);
          [by right |]. exists w1. auto. }
    destruct (getFileInfo_permitted id sub w f Hfile Hacc) as (w1 & Hs & [Hr | Hr]);
      exists w1; (split; [done |]); [by left | right; by exists f].
  - intros Hq f Hfile Hacc. by apply getFileInfo_quiet.
Qed.

(** ** The filename-based download *)

(** X4.  The download checks in a fixed order and stops at the first failure:
    a request without a usable [sub] or [id] is a bad request, and a name
    under which the upload directory holds nothing, neither a file nor a
    directory, is "File not found"; neither consults the database, so the
    world, fault schedule included, is exactly as before.  The disk check
    follows the path as the operating system does, so a name with ["./"] in
    front is on disk exactly when the name itself is.  An empty [sub] falls
    back to [id]. *)
Theorem download_checks_before_querying (filename : string)
    (user : option FilesController.JwtUser) (w : World) :
  (truthy (FilesController.requester user) = false ->
   FilesController.downloadFile filename user w
   = (inl (BadRequestException "Invalid user authentication"), w))
  /\ (truthy (FilesController.requester user) = true ->
      Fs.stat (disk w) (upload_path filename) = None ->
      FilesController.downloadFile filename user w
      = (inl (NotFoundException "File not found"), w))
  /\ on_disk w (upload_path ("./" +:+ filename)) = on_disk w (upload_path filename)
  /\ (forall id,
        FilesController.requester
          (Some (FilesController.mkJwtUser (Some EmptyString) id)) = id
        /\ FilesController.requester (Some (FilesController.mkJwtUser None id)) = id)
  /\ (forall sub id, sub <> EmptyString ->
        FilesController.requester (Some (FilesController.mkJwtUser (Some sub) id))
        = Some sub).
Proof.
  split; [| split; [| split; [| split]]].
  - intros Hu. unfold FilesController.downloadFile. by rewrite Hu.
  - intros Hu Hnothing. apply FilesControllerFacts.downloadFile_missing; [done |].
    unfold on_disk, Fs.file_size. by rewrite Hnothing.
  - unfold on_disk. f_equal. apply FsFacts.file_size_uploads_dot.
  - intros id. by split.
  - intros sub id Hne. unfold FilesController.requester, js_or. simpl.
    apply String.eqb_neq in Hne. by rewrite Hne.
Qed.

(** A stored file asked for under another spelling of its name is found on
    disk, but no message carries that spelling. *)
Example respelled_download_run :
  let w := after (FilesController.uploadFile (Some cat_picture) (Some "u-bob")
                    (as_sub "u-alice")) world_ready in
  on_disk w (upload_path "./ab12.png") = true
  /\ (FilesController.downloadFile "./ab12.png" (as_sub "u-bob") w).1
     = inl (NotFoundException "File not found or access denied")
  /\ (FilesController.downloadFile "zz/../ab12.png" (as_sub "u-bob") w).1
     = inl (NotFoundException "File not found")
  /\ (FilesController.downloadFile "ab12.png/" (as_sub "u-bob") w).1
     = inl (NotFoundException "File not found").
Proof. by vm_compute. Qed.

(** ** The relay upload: rejections before the database *)

(** X5.  Before it touches the database the relay upload rejects, in this order:
    a request without a file; a request without a usable [sub] or [id], even
    when the receiver is missing too; a request without a receiver.  The last
    two remove the stored file.  No rejection changes a table, notifies
    anyone or consumes a database call. *)
Theorem relay_upload_rejects_early (file : MulterFile.t) (receiverId : option string)
    (user : option FilesController.JwtUser) (w : World) :
  FilesController.uploadFile None receiverId user w
  = (inl (BadRequestException "No file uploaded"), w)
  /\ (truthy (FilesController.requester user) = false ->
      exists w', FilesController.uploadFile (Some file) receiverId user w
                 = (inl (BadRequestException "Invalid user authentication"), w')
                 /\ w' = (FilesController.cleanup (MulterFile.path file) w).2)
  /\ (truthy (FilesController.requester user) = true -> truthy receiverId = false ->
      exists w', FilesController.uploadFile (Some file) receiverId user w
                 = (inl (BadRequestException "Receiver ID is required"), w')
                 /\ w' = (FilesController.cleanup (MulterFile.path file) w).2)
  /\ (let w' := (FilesController.cleanup (MulterFile.path file) w).2 in
      users w' = users w /\ messages w' = messages w /\ files w' = files w
      /\ faults w' = faults w
      /\ Fs.file_size (disk w') (MulterFile.path file) = None
      /\ (forall p, Fs.realpath (disk w) p <> Fs.realpath (disk w) (MulterFile.path file) ->
            Fs.file_size (disk w') p = Fs.file_size (disk w) p)
      /\ (trace w' = trace w
          \/ trace w' = (trace w ++ [Unlinked (MulterFile.path file)])%list)).
Proof.
  split; [done |]. split; [| split].
  - intros Hu. unfold FilesController.uploadFile. rewrite Hu. simpl.
    unfold bind. rewrite FilesControllerFacts.cleanup_run. simpl. eauto.
  - intros Hu Hr. unfold FilesController.uploadFile. rewrite Hu, Hr. simpl.
    unfold bind. rewrite FilesControllerFacts.cleanup_run. simpl. eauto.
  - simpl. rewrite FilesControllerFacts.cleanup_run. simpl.
    pose proof (FsFacts.unlink_file_size (disk w) (MulterFile.path file)) as Hfound.
    destruct (Fs.unlink (disk w) (MulterFile.path file)) as [d|] eqn:Hunlink; simpl.
    + repeat split; try done.
      * by apply (FsFacts.file_size_unlink (disk w)).
      * intros p Hp. by apply (FsFacts.file_size_unlink_other (disk w) (MulterFile.path file)).
      * by right.
    + repeat split; try done.
      * by destruct (Fs.file_size (disk w) (MulterFile.path file)).
      * by left.
Qed.

(** ** The relay upload: round trip and failed notification *)

Lemma requester_as_sub account :
  account <> EmptyString -> FilesController.requester (as_sub account) = Some account.
Proof.
  intros Hne. unfold FilesController.requester, as_sub, js_or. simpl.
  apply String.eqb_neq in Hne. by rewrite Hne.
Qed.

Lemma upload_path_on_disk w filename :
  on_disk w (upload_path filename) = on_disk w ("uploads/" +:+ filename).
Proof. unfold on_disk. f_equal. by apply FsFacts.file_size_dot_slash. Qed.

Lemma uploadFile_quiet_run file sender receiver user w :
  faults w = [] ->
  FilesController.requester user = Some sender -> sender <> EmptyString ->
  receiver <> EmptyString ->
  user_exists sender w = true -> user_exists receiver w = true ->
  let m := relayed_message file sender receiver w in
  FilesController.uploadFile (Some file) (Some receiver) user w
  = (inr (FilesController.mkUploadReply "File uploaded successfully" m),
     emit (Notified m) (emit (Persisted m) (tick (set_messages (messages w ++ [m]) w)))).
Proof.
  intros Hq Hreq Hs Hr Hes Her. unfold FilesController.uploadFile.
  assert (Hts : truthy (FilesController.requester user) = true)
    by (apply FilesControllerFacts.truthy_Some; eauto).
  assert (Htr : truthy (Some receiver) = true)
    by (apply FilesControllerFacts.truthy_Some; eauto).
  rewrite Hts, Htr, Hreq. simpl.
  unfold try_catch, bind, prisma_message_create, notifyFileUploadComplete, await, modify.
  rewrite Hq. simpl. rewrite Hes, Her. simpl. by rewrite Hq.
Qed.

(** X6.  After a successful relay upload, the sender and the receiver can both
    download the file by its stored name, and an account that is neither, and
    was in no earlier message with that URL, is refused with a 404.  The
    message is attributed to the account of the token, not to anything in the
    request body. *)
Theorem relay_upload_then_download (file : MulterFile.t) (sender receiver : string)
    (user : option FilesController.JwtUser) (w : World) :
  faults w = [] ->
  FilesController.requester user = Some sender -> sender <> EmptyString ->
  receiver <> EmptyString ->
  user_exists sender w = true -> user_exists receiver w = true ->
  MulterFile.path file = "uploads/" +:+ MulterFile.filename file ->
  on_disk w (MulterFile.path file) = true ->
  exists reply w',
    FilesController.uploadFile (Some file) (Some receiver) user w = (inr reply, w')
    /\ Message.senderId (FilesController.data reply) = sender
    /\ Message.receiverId (FilesController.data reply) = receiver
    /\ (exists d, FilesController.downloadFile (MulterFile.filename file) user w'
                  = (inr d, emit (Streamed (upload_path (MulterFile.filename file))) w'))
    /\ (exists d, FilesController.downloadFile (MulterFile.filename file)
                    (as_sub receiver) w'
                  = (inr d, emit (Streamed (upload_path (MulterFile.filename file))) w'))
    /\ (forall stranger, stranger <> EmptyString ->
          stranger <> sender -> stranger <> receiver ->
          ~ in_message_with_url w (MulterFile.filename file) stranger ->
          exists msg w'',
            FilesController.downloadFile (MulterFile.filename file) (as_sub stranger) w'
            = (inl (NotFoundException msg), w'')).
Proof.
  intros Hq Hreq Hs Hr Hes Her Hpath Hon.
  pose proof (uploadFile_quiet_run file sender receiver user w Hq Hreq Hs Hr Hes Her) as Hrun.
  simpl in Hrun. set (m := relayed_message file sender receiver w) in *.
  set (w' := emit (Notified m) (emit (Persisted m)
               (tick (set_messages (messages w ++ [m]) w)))) in *.
  assert (Hon' : on_disk w' (upload_path (MulterFile.filename file)) = true).
  { rewrite upload_path_on_disk, <- Hpath. exact Hon. }
  assert (Hin : In m (messages w')) by (simpl; apply in_or_app; right; by left).
  exists (FilesController.mkUploadReply "File uploaded successfully" m), w'.
  split; [done |]. split; [done |]. split; [done |]. split; [| split].
  - apply (FilesControllerFacts.downloadFile_quiet _ user sender); try done.
    exists m. split; [done |]. split; [done | by left].
  - apply (FilesControllerFacts.downloadFile_quiet _ _ receiver); try done.
    + by apply requester_as_sub.
    + exists m. split; [done |]. split; [done | by right].
  - intros stranger Hne Hns Hnr Hold.
    destruct (FilesControllerFacts.downloadFile_refused (MulterFile.filename file)
                (as_sub stranger) stranger w') as (msg & w'' & _ & Hre & _); try done.
    + by apply requester_as_sub.
    + destruct (find _ (messages w')) as [m'|] eqn:Hfind; [|done].
      exfalso.
      assert (Hmsg : in_message_with_url w' (MulterFile.filename file) stranger)
        by (apply FilesControllerFacts.url_query_spec; by rewrite Hfind).
      destruct Hmsg as (m'' & Hin'' & Hurl & Hparty).
      simpl in Hin''. apply in_app_or in Hin'' as [Hin'' | [<- | []]].
      * apply Hold. by exists m''.
      * destruct Hparty as [Hp | Hp]; simpl in Hp; congruence.
    + eauto.
Qed.

Lemma relay_upload_then_download_witness :
  exists reply w',
    FilesController.uploadFile (Some cat_picture) (Some "u-bob") (as_sub "u-alice")
      world_ready = (inr reply, w')
    /\ Message.senderId (FilesController.data reply) = "u-alice"
    /\ Message.receiverId (FilesController.data reply) = "u-bob"
    /\ (exists d, FilesController.downloadFile (MulterFile.filename cat_picture)
                    (as_sub "u-alice") w'
                  = (inr d, emit (Streamed (upload_path (MulterFile.filename cat_picture)))
                              w'))
    /\ (exists d, FilesController.downloadFile (MulterFile.filename cat_picture)
                    (as_sub "u-bob") w'
                  = (inr d, emit (Streamed (upload_path (MulterFile.filename cat_picture)))
                              w'))
    /\ (forall stranger, stranger <> EmptyString ->
          stranger <> "u-alice" -> stranger <> "u-bob" ->
          ~ in_message_with_url world_ready (MulterFile.filename cat_picture) stranger ->
          exists msg w'',
            FilesController.downloadFile (MulterFile.filename cat_picture)
              (as_sub stranger) w'
            = (inl (NotFoundException msg), w'')).
Proof.
  exact (relay_upload_then_download cat_picture "u-alice" "u-bob" (as_sub "u-alice")
           world_ready eq_refl eq_refl ltac:(discriminate) ltac:(discriminate)
           eq_refl eq_refl eq_refl eq_refl).
Defined.

(** X7.  When the notification fails after the message was persisted, the upload
    is reported as failed with the gateway's error, yet the message stays in
    the table while the file is removed: the receiver's later download of it
    answers "File not found". *)
Theorem failed_notification_leaves_message_without_file (file : MulterFile.t)
    (sender receiver e : string) (fl : list (option string))
    (user : option FilesController.JwtUser) (w : World) :
  faults w = None :: Some e :: fl ->
  FilesController.requester user = Some sender -> sender <> EmptyString ->
  receiver <> EmptyString ->
  user_exists sender w = true -> user_exists receiver w = true ->
  MulterFile.path file = "uploads/" +:+ MulterFile.filename file ->
  let m := relayed_message file sender receiver w in
  exists w',
    FilesController.uploadFile (Some file) (Some receiver) user w = (inl (Error e), w')
    /\ messages w' = (messages w ++ [m])%list
    /\ Fs.file_size (disk w') (MulterFile.path file) = None
    /\ (forall m', ~ In (Notified m') (skipn (length (trace w)) (trace w')))
    /\ FilesController.downloadFile (MulterFile.filename file) (as_sub receiver) w'
       = (inl (NotFoundException "File not found"), w').
Proof.
  intros Hq Hreq Hs Hr Hes Her Hpath m.
  unfold FilesController.uploadFile.
  assert (Hts : truthy (FilesController.requester user) = true)
    by (apply FilesControllerFacts.truthy_Some; eauto).
  assert (Htr : truthy (Some receiver) = true)
    by (apply FilesControllerFacts.truthy_Some; eauto).
  rewrite Hts, Htr, Hreq. simpl.
  unfold try_catch, bind at 1. unfold bind at 1.
  unfold prisma_message_create, notifyFileUploadComplete, await.
  rewrite Hq. unfold user_exists in *. simpl. rewrite Hes, Her. simpl.
  fold (relayed_message file sender receiver w). fold m.
  unfold bind. rewrite FilesControllerFacts.cleanup_run.
  set (w1 := set_faults fl (emit (Persisted m)
               (tick (set_messages (messages w ++ [m]) (set_faults (Some e :: fl) w))))).
  set (w' := match Fs.unlink (disk w1) (MulterFile.path file) with
             | Some d => emit (Unlinked (MulterFile.path file)) (set_disk d w1)
             | None => w1
             end).
  exists w'. split; [done |].
  assert (Hgone : Fs.file_size (disk w') (MulterFile.path file) = None).
  { subst w'. pose proof (FsFacts.unlink_file_size (disk w1) (MulterFile.path file)) as Hfound.
    destruct (Fs.unlink (disk w1) (MulterFile.path file)) as [d|] eqn:Hunlink; simpl.
    - by apply (FsFacts.file_size_unlink (disk w)).
    - simpl in Hfound. by destruct (Fs.file_size (disk w) (MulterFile.path file)). }
  split; [by subst w'; destruct (Fs.unlink (disk w1) _) |]. split; [done |]. split.
  - intros m'. subst w'. destruct (Fs.unlink (disk w1) (MulterFile.path file)); simpl;
      rewrite <- ?app_assoc, drop_app_length; simpl; intuition discriminate.
  - apply FilesControllerFacts.downloadFile_missing.
    + rewrite requester_as_sub by done. apply FilesControllerFacts.truthy_Some. eauto.
    + rewrite upload_path_on_disk, <- Hpath. unfold on_disk. by rewrite Hgone.
Qed.

Lemma failed_notification_leaves_message_without_file_witness :
  exists w',
    FilesController.uploadFile (Some cat_picture) (Some "u-bob") (as_sub "u-alice")
      world_notify_down = (inl (Error "socket closed"), w')
    /\ messages w'
       = (messages world_notify_down
          ++ [relayed_message cat_picture "u-alice" "u-bob" world_notify_down])%list
    /\ Fs.file_size (disk w') (MulterFile.path cat_picture) = None
    /\ (forall m', ~ In (Notified m') (skipn (length (trace world_notify_down)) (trace w')))
    /\ FilesController.downloadFile (MulterFile.filename cat_picture) (as_sub "u-bob") w'
       = (inl (NotFoundException "File not found"), w').
Proof.
  exact (failed_notification_leaves_message_without_file cat_picture "u-alice" "u-bob"
           "socket closed" [] (as_sub "u-alice") world_notify_down
           eq_refl eq_refl ltac:(discriminate) ltac:(discriminate)
           eq_refl eq_refl eq_refl).
Defined.

(** ** The metadata upload of [FileController] *)

(** X8.  [FileController.uploadFile] fails only with a [BadRequestException]:
    "No file uploaded" without a file, "Failed to upload file" for every
    failure of the database write, whose own error is not passed on.  A
    failure changes no table and leaves the disk alone, so the file that was
    stored stays there.  A success appends one record that describes the
    stored file and belongs to the caller, who is a user. *)
Theorem metadata_upload_outcomes (file : option MulterFile.t) (sub : string) (w : World) :
  let run := FileController.uploadFile file sub w in
  match run.1 with
  | inl e =>
    (file = None /\ e = BadRequestException "No file uploaded"
     \/ file <> None /\ e = BadRequestException "Failed to upload file")
    /\ same_store w run.2 /\ trace run.2 = trace w
  | inr reply =>
    exists f, file = Some f
      /\ user_exists sub w = true
      /\ files run.2 = (files w ++ [recorded_file f sub w])%list
      /\ users run.2 = users w /\ messages run.2 = messages w /\ disk run.2 = disk w
      /\ FileController.reply_id reply = cuid (clock w)
      /\ FileController.reply_originalName reply = MulterFile.originalname f
      /\ FileController.reply_mimeType reply = MulterFile.mimetype f
      /\ FileController.reply_size reply = MulterFile.size f
      /\ FileController.reply_uploader reply = FileController.select_uploader sub w
  end.
Proof.
  destruct file as [f|]; simpl.
  2:{ split; [by left |]. split; [apply same_store_refl | done]. }
  unfold FileController.uploadFile, try_catch, bind, prisma_file_create, await, get, ret.
  destruct (faults w) as [|[e|] fl]; simpl.
  - destruct (user_exists sub w) eqn:Hu; simpl.
    + exists f. by repeat split.
    + split; [by right |]. by repeat split.
  - split; [by right |]. by repeat split.
  - destruct (user_exists sub (set_faults fl w)) eqn:Hu; simpl.
    + exists f. by repeat split.
    + split; [by right |]. by repeat split.
Qed.

Lemma find_app_none {A} (p : A -> bool) (l l' : list A) :
  find p l = None -> find p (l ++ l')%list = find p l'.
Proof.
  induction l as [|x l IH]; simpl; [done |]. destruct (p x); [discriminate | exact IH].
Qed.

Lemma find_none_false {A} (p : A -> bool) (l : list A) :
  (forall x, In x l -> p x = false) -> find p l = None.
Proof.
  intros Hall. destruct (find p l) as [x|] eqn:Hfind; [|done].
  apply find_some in Hfind as [Hin Hp]. by rewrite (Hall x Hin) in Hp.
Qed.

(** X9.  A file uploaded through [FileController] can at once be read back by
    its uploader under the returned id: [getFileInfo] returns the metadata
    that was uploaded and [getFile] streams the stored file.  Every other
    account gets "File not found". *)
Theorem metadata_upload_then_read (file : MulterFile.t) (sub : string) (w : World) :
  faults w = [] ->
  user_exists sub w = true ->
  fresh_file_id w ->
  on_disk w (join_cwd (MulterFile.path file)) = true ->
  exists reply w',
    FileController.uploadFile (Some file) sub w = (inr reply, w')
    /\ FileController.getFileInfo (FileController.reply_id reply) sub w'
       = (inr (FileController.mkFileInfo (FileController.reply_id reply)
                 (MulterFile.originalname file) (MulterFile.mimetype file)
                 (MulterFile.size file) (FileController.reply_createdAt reply)
                 (FileController.reply_uploader reply)), w')
    /\ (exists d, FileController.getFile (FileController.reply_id reply) sub w'
                  = (inr d, emit (Streamed (join_cwd (MulterFile.path file))) w')
                  /\ FileController.Content_Type d = MulterFile.mimetype file
                  /\ FileController.Content_Length d = MulterFile.size file)
    /\ (forall other, other <> sub ->
          exists w'', FileController.getFile (FileController.reply_id reply) other w'
                      = (inl (NotFoundException "File not found"), w'')).
Proof.
  intros Hq Hu [Hfresh Hunref] Hon.
  set (f := recorded_file file sub w).
  set (w' := emit (FileRecorded f) (tick (set_files (files w ++ [f]) w))).
  assert (Hrun : FileController.uploadFile (Some file) sub w
                 = (inr (FileController.mkUploadReply (File.id f) (File.originalName f)
                           (File.fileName f) (File.mimeType f) (File.size f)
                           (File.createdAt f)
                           (FileController.select_uploader sub w)), w')).
  { unfold FileController.uploadFile, try_catch, bind, prisma_file_create, get, ret.
    rewrite await_quiet by done. simpl. by rewrite Hu. }
  assert (Hlook : lookup_file w' (cuid (clock w)) = Some f).
  { unfold lookup_file in *. simpl. rewrite find_app_none by done.
    simpl. by rewrite String.eqb_refl. }
  assert (Hown : access_decision w' (cuid (clock w)) sub = true).
  { unfold access_decision. fold (lookup_file w' (cuid (clock w))). rewrite Hlook.
    simpl. by rewrite String.eqb_refl. }
  eexists _, w'. split; [exact Hrun |]. simpl. split; [| split].
  - by rewrite (getFileInfo_quiet (cuid (clock w)) sub w' f Hq Hlook Hown).
  - eexists. split.
    + by rewrite (FileControllerFacts.getFile_quiet (cuid (clock w)) sub w' f).
    + by split.
  - intros other Hother.
    destruct (FileControllerFacts.getFile_hidden (cuid (clock w)) other w')
      as (w'' & _ & Hhid); [| by exists w''].
    right. unfold access_decision. fold (lookup_file w' (cuid (clock w))). rewrite Hlook.
    simpl. apply String.eqb_neq in Hother. rewrite String.eqb_sym, Hother. simpl.
    rewrite find_none_false; [done |].
    intros m Hin. apply andb_false_iff. left.
    destruct (column_is (Message.fileId m) (cuid (clock w))) eqn:Hc; [|done].
    apply column_is_true in Hc. by destruct (Hunref m Hin).
Qed.

Lemma world_ready_fresh : fresh_file_id world_ready.
Proof. split; [reflexivity | intros m []]. Defined.

Lemma metadata_upload_then_read_witness :
  exists reply w',
    FileController.uploadFile (Some cat_picture) "u-alice" world_ready = (inr reply, w')
    /\ FileController.getFileInfo (FileController.reply_id reply) "u-alice" w'
       = (inr (FileController.mkFileInfo (FileController.reply_id reply)
                 (MulterFile.originalname cat_picture) (MulterFile.mimetype cat_picture)
                 (MulterFile.size cat_picture) (FileController.reply_createdAt reply)
                 (FileController.reply_uploader reply)), w')
    /\ (exists d, FileController.getFile (FileController.reply_id reply) "u-alice" w'
                  = (inr d, emit (Streamed (join_cwd (MulterFile.path cat_picture))) w')
                  /\ FileController.Content_Type d = MulterFile.mimetype cat_picture
                  /\ FileController.Content_Length d = MulterFile.size cat_picture)
    /\ (forall other, other <> "u-alice" ->
          exists w'', FileController.getFile (FileController.reply_id reply) other w'
                      = (inl (NotFoundException "File not found"), w'')).
Proof.
  exact (metadata_upload_then_read cat_picture "u-alice" world_ready
           eq_refl eq_refl world_ready_fresh eq_refl).
Defined.

(** ** Registration and password sign-in *)

Lemma validateCredentials_returns `{Bcrypt} email password w w' r :
  ManualAuthService.validateCredentials email password w = (inr r, w') ->
  r = match find (fun u => String.eqb (User.email u) email) (users w) with
      | Some user =>
        if truthy (User.password user)
           && bcrypt_compare password (default EmptyString (User.password user))
        then Some (rest_without_password (user_object user))
        else None
      | None => None
      end.
Proof.
  intros Hrun. unfold ManualAuthService.validateCredentials in Hrun.
  apply bind_returns in Hrun as (found_user & w1 & Hfind & Hrun).
  apply await_get_returns in Hfind as [_ Hfound].
  assert (Hu : found_user = find (fun u => String.eqb (User.email u) email) (users w))
    by (by destruct Hfound as [-> | [fl ->]]).
  subst found_user. destruct (find _ (users w)) as [u|]; [| by injection Hrun as <- _].
  destruct (truthy _ && _); by injection Hrun as <- _.
Qed.

Lemma unique_violation_false email username googleId us :
  unique_violation email username googleId us = false ->
  find (fun u => String.eqb (User.email u) email) us = None
  /\ find (fun u => String.eqb (User.username u) username) us = None.
Proof.
  unfold unique_violation. induction us as [|x us IH]; simpl; [done |].
  intros Hfalse. apply orb_false_iff in Hfalse as [Hx Hrest].
  apply orb_false_iff in Hx as [Hx _]. apply orb_false_iff in Hx as [He Hn].
  rewrite He, Hn. by apply IH.
Qed.

Lemma unique_violation_taken email username googleId us u :
  In u us -> User.email u = email \/ User.username u = username ->
  unique_violation email username googleId us = true.
Proof.
  intros Hin Hdup. unfold unique_violation. apply existsb_exists. exists u.
  split; [done |]. destruct Hdup as [<- | <-]; rewrite String.eqb_refl; simpl;
    [done | by rewrite orb_true_r].
Qed.

(** What a returned [prisma.user.create] has done. *)
Lemma user_create_returns data w u w' :
  prisma_user_create data w = (inr u, w') ->
  unique_violation (UserCreateInput.email data) (UserCreateInput.username data)
    (UserCreateInput.googleId data) (users w) = false
  /\ u = User.mk (cuid (clock w)) (UserCreateInput.email data)
           (UserCreateInput.username data) (UserCreateInput.password data)
           (UserCreateInput.googleId data) (UserCreateInput.avatar data)
           (clock w) (clock w)
  /\ users w' = (users w ++ [u])%list
  /\ messages w' = messages w /\ files w' = files w /\ disk w' = disk w.
Proof.
  unfold prisma_user_create, await.
  destruct (faults w) as [|[e|] fl]; [| discriminate |]; simpl;
    destruct (unique_violation _ _ _ (users w)) eqn:Hv; try discriminate;
    intros [= <- <-]; by repeat split.
Qed.

(** What a thrown [prisma.user.create] has left. *)
Lemma user_create_throws data w e w' :
  prisma_user_create data w = (inl e, w') ->
  (exists msg, e = Error msg) /\ same_state w w'.
Proof.
  unfold prisma_user_create, await.
  destruct (faults w) as [|[e'|] fl]; simpl;
    try destruct (unique_violation _ _ _ (users w)) eqn:Hv; try discriminate;
    intros [= <- <-]; (split; [eauto | by repeat split]).
Qed.

(** X10.  Registering and then signing in with the same password returns the
    registered account, for any bcrypt whose [compare] accepts its own [hash];
    a password the hash does not match returns null.  The table holds the
    hash, and the returned account carries the email and username given. *)
Theorem register_then_sign_in `{Bcrypt} (email username password : string)
    (w w' : World) (account : gmap string JsValue) :
  bcrypt_compare password (bcrypt_hash password 10) = true ->
  bcrypt_hash password 10 <> EmptyString ->
  ManualAuthService.createUser email username password w = (inr account, w') ->
  (forall r w'', ManualAuthService.validateCredentials email password w' = (inr r, w'') ->
                 r = Some account)
  /\ (faults w' = [] ->
      ManualAuthService.validateCredentials email password w' = (inr (Some account), w'))
  /\ (forall wrong r w'', bcrypt_compare wrong (bcrypt_hash password 10) = false ->
        ManualAuthService.validateCredentials email wrong w' = (inr r, w'') -> r = None)
  /\ (exists u, users w' = (users w ++ [u])%list
                /\ User.password u = Some (bcrypt_hash password 10)
                /\ User.email u = email /\ User.username u = username
                /\ account = rest_without_password (user_object u)).
Proof.
  intros Hlaw Hne Hrun. unfold ManualAuthService.createUser in Hrun.
  apply bind_returns in Hrun as (u & w1 & Hcreate & Hret).
  injection Hret as <- <-.
  apply user_create_returns in Hcreate as (Hfree & Hu & Husers & _).
  simpl in Hfree, Hu.
  apply unique_violation_false in Hfree as [Hemail _].
  assert (Hfind : find (fun x => String.eqb (User.email x) email) (users w1) = Some u).
  { rewrite Husers, find_app_none by done. simpl. subst u. simpl.
    by rewrite String.eqb_refl. }
  assert (Hpw : User.password u = Some (bcrypt_hash password 10)) by (by subst u).
  assert (Hstored : truthy (User.password u) = true).
  { rewrite Hpw. apply FilesControllerFacts.truthy_Some. eauto. }
  split; [| split; [| split]].
  - intros r w'' Hsign. apply validateCredentials_returns in Hsign.
    rewrite Hfind, Hstored, Hpw in Hsign. simpl in Hsign. by rewrite Hlaw in Hsign.
  - intros Hq. rewrite validateCredentials_quiet by done.
    rewrite Hfind, Hstored, Hpw. simpl. by rewrite Hlaw.
  - intros wrong r w'' Hwrong Hsign. apply validateCredentials_returns in Hsign.
    rewrite Hfind, Hstored, Hpw in Hsign. simpl in Hsign. by rewrite Hwrong in Hsign.
  - exists u. split; [done |]. split; [done |]. by subst u.
Qed.

Lemma register_then_sign_in_witness :
  @ManualAuthService.validateCredentials sample_bcrypt "erin@example.org" "s3cret"
    (after (@ManualAuthService.createUser sample_bcrypt
              "erin@example.org" "erin" "s3cret") world_empty)
  = (inr (Some (rest_without_password
                  (user_object (User.mk "c0" "erin@example.org" "erin"
                                  (Some "hash:s3cret") None None 0 0)))),
     after (@ManualAuthService.createUser sample_bcrypt
              "erin@example.org" "erin" "s3cret") world_empty).
Proof.
  exact (proj1 (proj2 (@register_then_sign_in sample_bcrypt "erin@example.org" "erin"
                         "s3cret" world_empty _ _ eq_refl ltac:(discriminate) eq_refl))
           eq_refl).
Defined.

(** X11.  Registration with an email or a username that is already taken fails
    with a plain error and leaves every table as it was. *)
Theorem register_rejects_duplicates `{Bcrypt} (email username password : string)
    (w : World) (u : User.t) :
  In u (users w) ->
  User.email u = email \/ User.username u = username ->
  exists msg w',
    ManualAuthService.createUser email username password w = (inl (Error msg), w')
    /\ same_state w w'.
Proof.
  intros Hin Hdup.
  destruct (ManualAuthService.createUser email username password w) as [r w'] eqn:Hrun.
  unfold ManualAuthService.createUser, bind in Hrun.
  destruct (prisma_user_create _ w) as [[e|created] w1] eqn:Hcreate.
  - injection Hrun as <- <-. apply user_create_throws in Hcreate as [[msg ->] Hs]. eauto.
  - apply user_create_returns in Hcreate as (Hfree & _). simpl in Hfree.
    by rewrite (unique_violation_taken email username None (users w) u) in Hfree.
Qed.

Lemma register_rejects_duplicates_witness :
  exists msg w',
    @ManualAuthService.createUser sample_bcrypt "alice@example.org" "alice2" "pw"
      world_uploaded = (inl (Error msg), w')
    /\ same_state world_uploaded w'.
Proof.
  exact (@register_rejects_duplicates sample_bcrypt "alice@example.org" "alice2" "pw"
           world_uploaded alice (or_introl eq_refl) (or_introl eq_refl)).
Defined.

(** ** Google sign-in *)

Lemma google_known g w u :
  faults w = [] ->
  find (by_googleId g) (users w) = Some u ->
  GoogleAuthService.validateGoogleUser g w = (inr (rest_without_password (user_object u)), w).
Proof.
  intros Hq Hfind. unfold GoogleAuthService.validateGoogleUser.
  unfold bind at 1, prisma_user_findUnique_googleId. rewrite await_get_quiet by done.
  fold (by_googleId g). by rewrite Hfind.
Qed.

Lemma google_link g w old :
  faults w = [] ->
  find (by_googleId g) (users w) = None ->
  find (by_email g) (users w) = Some old ->
  GoogleAuthService.validateGoogleUser g w
  = (inr (rest_without_password (user_object (linked_user old g w))),
     tick (set_users (linked_users old g w) w)).
Proof.
  intros Hq Hgoogle Hemail. unfold GoogleAuthService.validateGoogleUser.
  unfold bind at 1, prisma_user_findUnique_googleId. rewrite await_get_quiet by done.
  fold (by_googleId g). rewrite Hgoogle.
  unfold bind at 1. unfold bind at 1, prisma_user_findUnique_email.
  rewrite await_get_quiet by done. fold (by_email g). rewrite Hemail.
  unfold prisma_user_update_by_email. rewrite await_quiet by done.
  fold (by_email g). rewrite Hemail.
  rewrite (GoogleAuthFacts.find_none_existsb _ _ _ Hgoogle).
  - done.
  - intros x Hx. by apply andb_true_iff in Hx as [? _].
Qed.

(** The loop returns the first free name of the sequence it walks. *)
Lemma findUniqueUsername_first_free w username :
  faults w = [] ->
  forall fuel candidate counter s,
    GoogleAuthService.findUniqueUsername fuel username candidate counter w
    = (inr (Some s), w) ->
    taken w s = false
    /\ (s = candidate
        \/ taken w candidate = true
           /\ exists k, (counter <= k)%nat /\ s = username +:+ decimal k
                        /\ forall j, (counter <= j < k)%nat ->
                                     taken w (username +:+ decimal j) = true).
Proof.
  intros Hq. induction fuel as [|fuel IH]; intros candidate counter s; simpl;
    [discriminate |].
  unfold bind, prisma_user_findUnique_username. rewrite await_get_quiet by done.
  destruct (find _ (users w)) as [u|] eqn:Hfind.
  - intros Hrun. apply IH in Hrun as [Hfree Hwhich].
    split; [done |]. right. split; [unfold taken; by rewrite Hfind |].
    destruct Hwhich as [-> | (Htaken & k & Hle & -> & Hbefore)].
    + exists counter. split; [lia |]. split; [done |]. intros j Hj. lia.
    + exists k. split; [lia |]. split; [done |]. intros j Hj.
      destruct (decide (j = counter)) as [-> | Hne]; [done |]. apply Hbefore. lia.
  - intros [= <-]. split; [unfold taken; by rewrite Hfind | by left].
Qed.

Lemma google_create g w :
  faults w = [] ->
  find (by_googleId g) (users w) = None ->
  find (by_email g) (users w) = None ->
  exists name,
    GoogleAuthService.findUniqueUsername (S (length (users w)))
      (GoogleAuthService.username g) (GoogleAuthService.username g) 1 w
    = (inr (Some name), w)
    /\ GoogleAuthService.validateGoogleUser g w
       = (inr (rest_without_password (user_object (google_user g name w))),
          tick (set_users (users w ++ [google_user g name w]) w)).
Proof.
  intros Hq Hgoogle Hemail.
  destruct (GoogleAuthFacts.fuel_suffices w (GoogleAuthService.username g) Hq)
    as (name & Hloop & Hfree).
  exists name. split; [done |].
  unfold GoogleAuthService.validateGoogleUser.
  unfold bind at 1, prisma_user_findUnique_googleId. rewrite await_get_quiet by done.
  fold (by_googleId g). rewrite Hgoogle.
  unfold bind at 1. unfold bind at 1, prisma_user_findUnique_email.
  rewrite await_get_quiet by done. fold (by_email g). rewrite Hemail.
  unfold bind at 1, get. unfold bind at 1. rewrite Hloop.
  unfold prisma_user_create. rewrite await_quiet by done. simpl.
  assert (Hok : unique_violation (GoogleAuthService.email g) name
                  (Some (GoogleAuthService.googleId g)) (users w) = false).
  { unfold unique_violation, by_googleId, by_email in *. clear Hq Hloop.
    unfold taken in Hfree. destruct (find _ (users w)) as [?|] eqn:Hname in Hfree;
      [discriminate |].
    induction (users w) as [|x l IH]; simpl in *; [done |].
    destruct (String.eqb (User.email x) (GoogleAuthService.email g)); [discriminate |].
    destruct (String.eqb (User.username x) name); [discriminate |].
    destruct (column_is (User.googleId x) (GoogleAuthService.googleId g));
      [discriminate |].
    simpl. by apply IH. }
  by rewrite Hok.
Qed.

(** X12.  A first Google sign-in (unknown Google id, unknown email) creates an
    account without password whose username is the first free name of the
    sequence [username], [username1], [username2], ...: the requested name if
    nobody has it, otherwise the requested name followed by the least counter
    from 1 on that makes it free. *)
Theorem google_first_sign_in_picks_first_free_username
    (g : GoogleAuthService.GoogleUser) (w : World) :
  faults w = [] ->
  find (by_googleId g) (users w) = None ->
  find (by_email g) (users w) = None ->
  exists name,
    GoogleAuthService.validateGoogleUser g w
    = (inr (rest_without_password (user_object (google_user g name w))),
       tick (set_users (users w ++ [google_user g name w]) w))
    /\ taken w name = false
    /\ (name = GoogleAuthService.username g
        \/ taken w (GoogleAuthService.username g) = true
           /\ exists k, (1 <= k)%nat
                /\ name = GoogleAuthService.username g +:+ decimal k
                /\ forall j, (1 <= j < k)%nat ->
                     taken w (GoogleAuthService.username g +:+ decimal j) = true).
Proof.
  intros Hq Hgoogle Hemail.
  destruct (google_create g w Hq Hgoogle Hemail) as (name & Hloop & Hrun).
  exists name. split; [done |].
  by apply (findUniqueUsername_first_free w _ Hq _ _ _ _ Hloop).
Qed.

Lemma google_first_sign_in_picks_first_free_username_witness :
  exists name,
    GoogleAuthService.validateGoogleUser dave world_uploaded
    = (inr (rest_without_password (user_object (google_user dave name world_uploaded))),
       tick (set_users (users world_uploaded ++ [google_user dave name world_uploaded])
               world_uploaded))
    /\ taken world_uploaded name = false
    /\ (name = GoogleAuthService.username dave
        \/ taken world_uploaded (GoogleAuthService.username dave) = true
           /\ exists k, (1 <= k)%nat
                /\ name = GoogleAuthService.username dave +:+ decimal k
                /\ forall j, (1 <= j < k)%nat ->
                     taken world_uploaded (GoogleAuthService.username dave +:+ decimal j)
                     = true).
Proof.
  exact (google_first_sign_in_picks_first_free_username dave world_uploaded
           eq_refl eq_refl eq_refl).
Defined.

Lemma find_linked_googleId g (new : User.t) (l : list User.t) old :
  by_googleId g new = true ->
  find (by_googleId g) l = None ->
  find (by_email g) l = Some old ->
  find (by_googleId g) (map (fun u => if by_email g u then new else u) l) = Some new.
Proof.
  intros Hnew. induction l as [|x l IH]; simpl; [discriminate |].
  destruct (by_googleId g x) eqn:Hgx; [discriminate |].
  destruct (by_email g x) eqn:Hex.
  - intros _ _. by rewrite Hnew.
  - intros Hnone Hsome. rewrite Hgx. by apply IH.
Qed.

Lemma find_linked_email g (new : User.t) (l : list User.t) old :
  by_email g new = true ->
  find (by_email g) l = Some old ->
  find (by_email g) (map (fun u => if by_email g u then new else u) l) = Some new.
Proof.
  intros Hnew. induction l as [|x l IH]; simpl; [discriminate |].
  destruct (by_email g x) eqn:Hex.
  - intros _. by rewrite Hnew.
  - intros Hsome. rewrite Hex. by apply IH.
Qed.

Lemma by_googleId_linked old g w : by_googleId g (linked_user old g w) = true.
Proof. unfold by_googleId. simpl. apply String.eqb_refl. Qed.

(** X13.  Signing in with Google twice in a row returns the same account the
    second time and writes nothing more, whichever of the three paths
    (known Google id, known email, new account) the first sign-in took. *)
Theorem google_sign_in_twice (g : GoogleAuthService.GoogleUser) (w w' : World)
    (account : gmap string JsValue) :
  faults w = [] ->
  GoogleAuthService.validateGoogleUser g w = (inr account, w') ->
  GoogleAuthService.validateGoogleUser g w' = (inr account, w').
Proof.
  intros Hq Hrun.
  destruct (find (by_googleId g) (users w)) as [u|] eqn:Hgoogle.
  { rewrite (google_known g w u Hq Hgoogle) in Hrun. injection Hrun as <- <-.
    by apply google_known. }
  destruct (find (by_email g) (users w)) as [old|] eqn:Hemail.
  - rewrite (google_link g w old Hq Hgoogle Hemail) in Hrun. injection Hrun as <- <-.
    apply google_known; [done |]. simpl.
    apply (find_linked_googleId g _ _ old); [apply by_googleId_linked | done | done].
  - destruct (google_create g w Hq Hgoogle Hemail) as (name & _ & Hcreate).
    rewrite Hcreate in Hrun. injection Hrun as <- <-.
    apply google_known; [done |]. simpl.
    rewrite find_app_none by done. simpl.
    unfold by_googleId. simpl. by rewrite String.eqb_refl.
Qed.

Lemma google_sign_in_twice_witness :
  GoogleAuthService.validateGoogleUser dave
    (after (GoogleAuthService.validateGoogleUser dave) world_uploaded)
  = (inr (rest_without_password
            (user_object (User.mk "c4" "dave@example.org" "alice1" None (Some "g-dave")
                            None 4 4))),
     after (GoogleAuthService.validateGoogleUser dave) world_uploaded).
Proof.
  exact (google_sign_in_twice dave world_uploaded _ _ eq_refl eq_refl).
Defined.

(** X14.  Linking a Google identity to an existing password account keeps the
    password sign-in working: the account returned by the Google sign-in has
    the id of the existing user and the new Google id, and the password
    verifier returns that same account afterwards. *)
Theorem google_link_keeps_password_sign_in `{Bcrypt}
    (g : GoogleAuthService.GoogleUser) (w : World) (u : User.t) (password : string) :
  faults w = [] ->
  users_email_key w ->
  find (by_googleId g) (users w) = None ->
  verified w (GoogleAuthService.email g) password u ->
  exists account w',
    GoogleAuthService.validateGoogleUser g w = (inr account, w')
    /\ account !! "id" = Some (JsString (User.id u))
    /\ account !! "googleId" = Some (JsString (GoogleAuthService.googleId g))
    /\ length (users w') = length (users w)
    /\ ManualAuthService.validateCredentials (GoogleAuthService.email g) password w'
       = (inr (Some account), w').
Proof.
  intros Hq Hkey Hgoogle (Hin & Hmail & hash & Hhash & Hne & Hmatch).
  assert (Hemail : find (by_email g) (users w) = Some u).
  { pose proof (find_pkey User.email (users w) u Hkey Hin) as Hfind.
    rewrite Hmail in Hfind. exact Hfind. }
  eexists _, _. split; [by apply google_link |].
  split; [exact (rest_keeps_id (linked_user u g w)) |].
  split; [reflexivity |]. split; [simpl; unfold linked_users; by rewrite length_map |].
  rewrite validateCredentials_quiet by done. simpl.
  fold (by_email g). unfold linked_users. fold (by_email g).
  rewrite (find_linked_email g _ _ u); [| | done].
  - simpl. rewrite Hhash. simpl. apply String.eqb_neq in Hne. rewrite Hne. simpl.
    by rewrite Hmatch.
  - unfold by_email. simpl. rewrite Hmail. apply String.eqb_refl.
Qed.

Lemma alice_is_verified :
  @verified sample_bcrypt world_uploaded "alice@example.org" "wonderland" alice.
Proof.
  split; [by left |]. split; [reflexivity |].
  exists "hash:wonderland". split; [reflexivity |]. split; [discriminate | reflexivity].
Defined.

Lemma google_link_keeps_password_sign_in_witness :
  exists account w',
    GoogleAuthService.validateGoogleUser alice_on_google world_uploaded = (inr account, w')
    /\ account !! "id" = Some (JsString (User.id alice))
    /\ account !! "googleId" = Some (JsString (GoogleAuthService.googleId alice_on_google))
    /\ length (users w') = length (users world_uploaded)
    /\ @ManualAuthService.validateCredentials sample_bcrypt
         (GoogleAuthService.email alice_on_google) "wonderland" w'
       = (inr (Some account), w').
Proof.
  exact (@google_link_keeps_password_sign_in sample_bcrypt alice_on_google world_uploaded
           alice "wonderland" eq_refl world_uploaded_email_key eq_refl alice_is_verified).
Defined.

(** ** The login reply *)

(** X15.  [login] hands out four properties of the user and nothing else: for an
    account the password verifier returned, the reply's user object is
    exactly id, email, username and avatar of the verified user, and the
    signed payload is exactly its email with its id as [sub].  Whatever
    object it is given, the reply's user object has no [password]. *)
Theorem login_exposes_public_fields `{Bcrypt} `{JwtService}
    (email password : string) (w w' : World) (account : gmap string JsValue) :
  AuthService.validateUser email password w = (inr (Some account), w') ->
  (exists u, In u (users w) /\ User.email u = email
     /\ AuthService.user (AuthService.login account)
        = <["id" := JsString (User.id u)]>
          (<["email" := JsString (User.email u)]>
          (<["username" := JsString (User.username u)]>
          (<["avatar" := nullable (User.avatar u)]> ∅)))
     /\ AuthService.access_token (AuthService.login account)
        = jwt_sign (<["email" := JsString (User.email u)]>
                    (<["sub" := JsString (User.id u)]> ∅)))
  /\ (forall any : gmap string JsValue,
        AuthService.user (AuthService.login any) !! "password" = None).
Proof.
  intros Hrun. split.
  - unfold AuthService.validateUser in Hrun.
    apply validateCredentials_returns in Hrun.
    destruct (find _ (users w)) as [u|] eqn:Hfind; [|discriminate].
    destruct (truthy _ && _); [|discriminate]. injection Hrun as ->.
    apply find_some in Hfind as [Hin Hmail]. apply String.eqb_eq in Hmail.
    exists u. split; [done |]. split; [done |]. split; reflexivity.
  - intros any. unfold AuthService.login, with_property. simpl.
    destruct (any !! "id"), (any !! "email"), (any !! "username"), (any !! "avatar");
      by simplify_map_eq.
Qed.

Lemma login_exposes_public_fields_witness :
  exists u, In u (users world_uploaded) /\ User.email u = "alice@example.org"
    /\ @AuthService.user
         (@AuthService.login sample_jwt
            (rest_without_password (user_object alice)))
       = <["id" := JsString (User.id u)]>
         (<["email" := JsString (User.email u)]>
         (<["username" := JsString (User.username u)]>
         (<["avatar" := nullable (User.avatar u)]> ∅)))
    /\ @AuthService.access_token
         (@AuthService.login sample_jwt
            (rest_without_password (user_object alice)))
       = @jwt_sign sample_jwt (<["email" := JsString (User.email u)]>
                               (<["sub" := JsString (User.id u)]> ∅)).
Proof.
  exact (proj1 (@login_exposes_public_fields sample_bcrypt sample_jwt
                  "alice@example.org" "wonderland" world_uploaded world_uploaded
                  (rest_without_password (user_object alice)) eq_refl)).
Defined.

(** ** The upload dialog against the server's filter *)

Lemma client_whitelist_is_server_whitelist :
  map fst FileUpload.ALLOWED_TYPES = FileController.ALLOWED_MIME_TYPES.
Proof. reflexivity. Qed.

Lemma found_assoc {V} (l : list (string * V)) (key : string) :
  found (snd <$> find (fun kv => String.eqb (fst kv) key) l) = true
  <-> In key (map fst l).
Proof.
  destruct (find _ l) as [kv|] eqn:Hfind.
  - apply find_some in Hfind as [Hin Hkey]. apply String.eqb_eq in Hkey. subst key.
    split; [intros _; by apply in_map | done].
  - split; [done |]. intros Hin. apply in_map_iff in Hin as (kv & <- & Hin).
    apply (find_none _ _ Hfind) in Hin. by rewrite String.eqb_refl in Hin.
Qed.

Lemma own_entry_whitelisted (key : string) :
  found (FileUpload.own_entry key) = true
  <-> In key FileController.ALLOWED_MIME_TYPES.
Proof.
  rewrite <- client_whitelist_is_server_whitelist. apply found_assoc.
Qed.

(** X16.  For a file whose type is not the name of a property inherited from
    [Object.prototype], the server stores the upload exactly when the dialog
    shows a preview and the file is not exactly as long as the limit: the
    dialog turns away only what is longer than 50 MiB, multer everything that
    reaches 50 MiB, so a whitelisted file of 52428800 bytes passes the dialog
    and is answered with 413.  The dialog checks the type before the size.  A
    type that is such an inherited name but not whitelisted passes the
    dialog, as kind "other", although the server's filter rejects it. *)
Theorem dialog_accepts_what_server_accepts (inherited : string -> bool)
    (formatFileSize : Z -> string) (f : FileUpload.BrowserFile) :
  FileUpload.MAX_FILE_SIZE = limits_fileSize FileController.uploadOptions
  /\ (inherited (FileUpload.type f) = false ->
      (forall stored : MulterFile.t,
         MulterFile.mimetype stored = FileUpload.type f ->
         MulterFile.size stored = FileUpload.size f ->
         (FileInterceptor FileController.uploadOptions stored = Stored
          <-> (exists p reads,
                 FileUpload.handleFileSelect inherited formatFileSize f
                 = FileUpload.Preview p reads)
              /\ FileUpload.size f <> FileUpload.MAX_FILE_SIZE))
      /\ (forall stored : MulterFile.t,
            MulterFile.mimetype stored = FileUpload.type f ->
            MulterFile.size stored = FileUpload.size f ->
            In (FileUpload.type f) FileController.ALLOWED_MIME_TYPES ->
            FileUpload.size f = FileUpload.MAX_FILE_SIZE ->
            (exists p reads,
               FileUpload.handleFileSelect inherited formatFileSize f
               = FileUpload.Preview p reads)
            /\ FileInterceptor FileController.uploadOptions stored = PayloadTooLarge)
      /\ (~ In (FileUpload.type f) FileController.ALLOWED_MIME_TYPES ->
          FileUpload.handleFileSelect inherited formatFileSize f
          = FileUpload.Alert ("File type " +:+ FileUpload.type f +:+ " is not supported")))
  /\ (inherited (FileUpload.type f) = true ->
      ~ In (FileUpload.type f) FileController.ALLOWED_MIME_TYPES ->
      FileUpload.size f <= FileUpload.MAX_FILE_SIZE ->
      FileUpload.handleFileSelect inherited formatFileSize f
      = FileUpload.Preview (FileUpload.mkFilePreview f None FileUpload.other) false
      /\ forall stored : MulterFile.t,
           MulterFile.mimetype stored = FileUpload.type f ->
           FileInterceptor FileController.uploadOptions stored
           = Refused (BadRequestException
                        ("File type " +:+ FileUpload.type f +:+ " is not allowed"))).
Proof.
  split; [reflexivity |]. split.
  - intros Hplain.
    assert (Hget : found (FileUpload.ALLOWED_TYPES_get inherited (FileUpload.type f))
                   = found (FileUpload.own_entry (FileUpload.type f))).
    { unfold FileUpload.ALLOWED_TYPES_get. rewrite Hplain.
      by destruct (FileUpload.own_entry _). }
    assert (Hpreview : (exists p reads,
                          FileUpload.handleFileSelect inherited formatFileSize f
                          = FileUpload.Preview p reads)
                       <-> In (FileUpload.type f) FileController.ALLOWED_MIME_TYPES
                           /\ FileUpload.size f <= FileUpload.MAX_FILE_SIZE).
    { unfold FileUpload.handleFileSelect. rewrite Hget.
      rewrite <- own_entry_whitelisted.
      destruct (found (FileUpload.own_entry (FileUpload.type f))); simpl.
      - destruct (bool_decide_reflect
                    (FileUpload.MAX_FILE_SIZE < FileUpload.size f)) as [Hbig | Hfit].
        + split; [by intros (p & reads & ?) | intros [_ ?]; lia].
        + split; [intros _; split; [done | lia] |].
          intros _. destruct (FileUpload.createPreview inherited f). eauto.
      - split; [by intros (p & reads & ?) | by intros [? _]]. }
    assert (Hstored : forall stored : MulterFile.t,
              MulterFile.mimetype stored = FileUpload.type f ->
              MulterFile.size stored = FileUpload.size f ->
              FileInterceptor FileController.uploadOptions stored
              = if bool_decide (In (FileUpload.type f) FileController.ALLOWED_MIME_TYPES)
                then if bool_decide (FileUpload.size f < FileUpload.MAX_FILE_SIZE)
                     then Stored else PayloadTooLarge
                else Refused (BadRequestException
                                ("File type " +:+ FileUpload.type f +:+ " is not allowed"))).
    { intros stored Htype Hsize. unfold FileInterceptor.
      destruct (fileFilter FileController.uploadOptions stored) as [|e] eqn:Hfilter.
      - apply filter_accepts_whitelisted in Hfilter. rewrite Htype in Hfilter.
        rewrite (bool_decide_eq_true_2 _ Hfilter), Hsize. reflexivity.
      - destruct (bool_decide_reflect
                    (In (FileUpload.type f) FileController.ALLOWED_MIME_TYPES)) as [Hin | Hout].
        + rewrite <- Htype in Hin. apply filter_accepts_whitelisted in Hin. congruence.
        + unfold FileController.uploadOptions, fileFilter in Hfilter.
          destruct (FileController.includes _ _); [discriminate |].
          injection Hfilter as <-. by rewrite Htype. }
    split; [| split].
    + intros stored Htype Hsize. rewrite (Hstored stored Htype Hsize), Hpreview.
      destruct (bool_decide_reflect
                  (In (FileUpload.type f) FileController.ALLOWED_MIME_TYPES)) as [Hin | Hout].
      * destruct (bool_decide_reflect (FileUpload.size f < FileUpload.MAX_FILE_SIZE))
          as [Hshort | Hlong].
        -- split; [intros _; repeat split; [done | lia | lia] | done].
        -- split; [done | intros [[_ ?] ?]; lia].
      * split; [done | by intros [[? _] _]].
    + intros stored Htype Hsize Hin Hlimit. split.
      * apply Hpreview. split; [done | lia].
      * rewrite (Hstored stored Htype Hsize), (bool_decide_eq_true_2 _ Hin).
        by rewrite bool_decide_eq_false_2 by lia.
    + intros Hnot. unfold FileUpload.handleFileSelect. rewrite Hget.
      destruct (found (FileUpload.own_entry (FileUpload.type f))) eqn:Hown; [|done].
      by apply own_entry_whitelisted in Hown.
  - intros Hinh Hnot Hfit.
    assert (Hown : FileUpload.own_entry (FileUpload.type f) = None).
    { destruct (FileUpload.own_entry (FileUpload.type f)) eqn:Ho; [|done].
      exfalso. apply Hnot, own_entry_whitelisted. by rewrite Ho. }
    split.
    + unfold FileUpload.handleFileSelect, FileUpload.createPreview, FileUpload.getFileType,
        FileUpload.ALLOWED_TYPES_get.
      rewrite Hown, Hinh. simpl.
      by destruct (bool_decide_reflect (FileUpload.MAX_FILE_SIZE < FileUpload.size f));
        [lia |].
    + intros stored Htype. unfold FileInterceptor.
      destruct (fileFilter FileController.uploadOptions stored) as [|e] eqn:Hfilter.
      * apply filter_accepts_whitelisted in Hfilter. by rewrite Htype in Hfilter.
      * unfold FileController.uploadOptions, fileFilter in Hfilter.
        destruct (FileController.includes _ _); [discriminate |].
        injection Hfilter as <-. by rewrite Htype.
Qed.

Example dialog_takes_constructor_server_does_not :
  FileUpload.handleFileSelect Object_prototype sample_formatFileSize
    (FileUpload.mkBrowserFile "x" "constructor" 10)
  = FileUpload.Preview
      (FileUpload.mkFilePreview (FileUpload.mkBrowserFile "x" "constructor" 10) None
         FileUpload.other) false
  /\ fileFilter FileController.uploadOptions
       (MulterFile.mk "x" "1" "constructor" 10 "uploads/1")
     = Reject (BadRequestException "File type constructor is not allowed")
  /\ FileUpload.handleFileSelect Object_prototype sample_formatFileSize
       (FileUpload.mkBrowserFile "big.png" "image/png" (60 * 1024 * 1024))
     = FileUpload.Alert "File size must be less than 50 MB"
  /\ FileUpload.handleFileSelect Object_prototype sample_formatFileSize
       (FileUpload.mkBrowserFile "a.png" "image/png" 10)
     = FileUpload.Preview
         (FileUpload.mkFilePreview (FileUpload.mkBrowserFile "a.png" "image/png" 10) None
            FileUpload.image) true.
Proof. by vm_compute. Qed.

(** A picture of exactly 50 MiB: the dialog previews it, the server answers
    413; one byte less and it is stored. *)
Example fifty_mebibytes_run :
  FileUpload.handleFileSelect Object_prototype sample_formatFileSize
    (FileUpload.mkBrowserFile "big.png" "image/png" 52428800)
  = FileUpload.Preview
      (FileUpload.mkFilePreview (FileUpload.mkBrowserFile "big.png" "image/png" 52428800)
         None FileUpload.image) true
  /\ FileInterceptor FileController.uploadOptions
       (MulterFile.mk "big.png" "ab12.png" "image/png" 52428800 "uploads/ab12.png")
     = PayloadTooLarge
  /\ FileInterceptor FileController.uploadOptions
       (MulterFile.mk "big.png" "ab12.png" "image/png" 52428799 "uploads/ab12.png")
     = Stored.
Proof. by vm_compute. Qed.

(** ** The status line of a file message *)

(** X17.  A file message reads "File not available" exactly when it was received,
    is no fallback upload, carries no in-memory data and no usable URL, and
    no transfer is running or has failed; no download button is offered
    then.  A fallback upload reads "via Mutler" whatever else is set, and
    "Available for download" is only shown with a download button. *)
Theorem file_message_status (p : FileMessage.Props) :
  (FileMessage.getStatusMessage p = "File not available"
   <-> FileMessage.isOwn p = false /\ FileMessage.isFallbackUpload p = false
       /\ FileMessage.fileData p = None
       /\ FileMessage.status_is p FileMessage.transferring = false
       /\ FileMessage.status_is p FileMessage.failed = false
       /\ truthy (FileMessage.fileUrl p) = false)
  /\ (FileMessage.getStatusMessage p = "File not available" ->
      FileMessage.isFileAvailable p = false)
  /\ (FileMessage.isFallbackUpload p = true ->
      FileMessage.getStatusMessage p
      = if FileMessage.isOwn p then "Sent via Mutler" else "Received via Mutler")
  /\ (FileMessage.getStatusMessage p = "Available for download" ->
      FileMessage.isFileAvailable p = true).
Proof.
  unfold FileMessage.getStatusMessage, FileMessage.isFileAvailable.
  destruct (FileMessage.isOwn p), (FileMessage.isFallbackUpload p),
    (FileMessage.fileData p) as [d|],
    (FileMessage.status_is p FileMessage.transferring),
    (FileMessage.status_is p FileMessage.failed),
    (truthy (FileMessage.fileUrl p)); simpl;
    (split; [split; [try discriminate; by intros _ | try done; intuition discriminate]
            | split; [try discriminate; done | split; [try done; discriminate
                                                      | try discriminate; done]]]).
Qed.

(** ** Referential integrity over runs of the server *)

Lemma foreign_keys_mono w w' :
  messages w' = messages w -> files w' = files w ->
  (forall id, user_exists id w = true -> user_exists id w' = true) ->
  foreign_keys w -> foreign_keys w'.
Proof.
  intros Hm Hf Hmono [Hmsg Hfile]. split.
  - intros m Hin. rewrite Hm in Hin. destruct (Hmsg m Hin). split; by apply Hmono.
  - intros f Hin. rewrite Hf in Hin. by apply Hmono, Hfile.
Qed.

Lemma keeps_integrity_tables {A} (c : M A) :
  (forall w, same_tables w (c w).2) -> keeps_integrity c.
Proof.
  intros Hsame w [Hfk Hkey]. destruct (Hsame w) as (Hu & Hm & Hf).
  assert (Hex : forall id, user_exists id (c w).2 = user_exists id w)
    by (intros id; unfold user_exists; by rewrite Hu).
  split; [split |].
  - apply (foreign_keys_mono w); try done. intros id. by rewrite Hex.
  - unfold users_email_key. by rewrite Hu.
  - intros id. by rewrite Hex.
Qed.

Lemma keeps_integrity_bind {A B} (c : M A) (k : A -> M B) :
  keeps_integrity c -> (forall a, keeps_integrity (k a)) -> keeps_integrity (bind c k).
Proof.
  intros Hc Hk w Hw. unfold bind. destruct (Hc w Hw) as [H1 Hmono1].
  destruct (c w) as [[e|a] w1]; simpl in *; [done |].
  destruct (Hk a w1 H1) as [H2 Hmono2]. split; [done |]. intros id Hid. auto.
Qed.

Lemma keeps_integrity_try_catch {A} (body : M A) (handler : Exception -> M A) :
  keeps_integrity body -> (forall e, keeps_integrity (handler e)) ->
  keeps_integrity (try_catch body handler).
Proof.
  intros Hb Hh w Hw. unfold try_catch. destruct (Hb w Hw) as [H1 Hmono1].
  destruct (body w) as [[e|a] w1]; simpl in *; [|done].
  destruct (Hh e w1 H1) as [H2 Hmono2]. split; [done |]. intros id Hid. auto.
Qed.

Lemma keeps_integrity_await {A} (call : M A) :
  keeps_integrity call -> keeps_integrity (await call).
Proof.
  intros Hc w Hw. unfold await. destruct (faults w) as [|[e|] fl]; [by apply Hc | |].
  - by split.
  - apply (Hc (set_faults fl w)). exact Hw.
Qed.

Lemma keeps_integrity_ret {A} (a : A) : keeps_integrity (ret a).
Proof. by apply keeps_integrity_tables. Qed.

Lemma keeps_integrity_throw {A} (e : Exception) : keeps_integrity (@throw A e).
Proof. by apply keeps_integrity_tables. Qed.

Lemma keeps_integrity_get {A} (f : World -> A) : keeps_integrity (get f).
Proof. by apply keeps_integrity_tables. Qed.

Lemma keeps_integrity_existsSync p : keeps_integrity (existsSync p).
Proof. apply keeps_integrity_get. Qed.

Lemma keeps_integrity_unlinkSync p : keeps_integrity (unlinkSync p).
Proof.
  apply keeps_integrity_tables. intros w. unfold unlinkSync.
  by destruct (Fs.unlink (disk w) p).
Qed.

Lemma keeps_integrity_pipe_file p : keeps_integrity (pipe_file p).
Proof. by apply keeps_integrity_tables. Qed.

Lemma keeps_integrity_statSync_size p : keeps_integrity (statSync_size p).
Proof.
  apply keeps_integrity_tables. intros w. unfold statSync_size.
  by destruct (Fs.file_size (disk w) p).
Qed.

Lemma keeps_integrity_notify m : keeps_integrity (notifyFileUploadComplete m).
Proof. apply keeps_integrity_await. by apply keeps_integrity_tables. Qed.

Lemma keeps_integrity_message_create data : keeps_integrity (prisma_message_create data).
Proof.
  apply keeps_integrity_await. intros w [[Hmsg Hfile] Hkey].
  destruct (user_exists _ w) eqn:Hs; [destruct (user_exists (MessageCreateInput.receiverId data) w) eqn:Hr |];
    simpl; try (split; [split; [by split | done] | done]).
  split; [split; [split |] |]; try done.
  intros m Hin. apply in_app_or in Hin as [Hin | [<- | []]]; [by apply Hmsg | by split].
Qed.

Lemma keeps_integrity_file_create data : keeps_integrity (prisma_file_create data).
Proof.
  apply keeps_integrity_await. intros w [[Hmsg Hfile] Hkey].
  destruct (user_exists _ w) eqn:Hu; simpl; [| by split].
  split; [split; [split |] |]; try done.
  intros f Hin. apply in_app_or in Hin as [Hin | [<- | []]]; [by apply Hfile | done].
Qed.

Lemma user_exists_app (id : string) (us : list User.t) (u : User.t) :
  found (find (fun x => String.eqb (User.id x) id) us) = true ->
  found (find (fun x => String.eqb (User.id x) id) (us ++ [u])) = true.
Proof.
  rewrite !found_find. intros (x & Hin & Hx). exists x. split; [|done].
  apply in_or_app. by left.
Qed.

Lemma keeps_integrity_user_create data : keeps_integrity (prisma_user_create data).
Proof.
  apply keeps_integrity_await. intros w [Hfk Hkey].
  destruct (unique_violation _ _ _ (users w)) eqn:Hv; simpl; [by split |].
  set (u := User.mk _ _ _ _ _ _ _ _).
  set (w' := tick (set_users (users w ++ [u]) w)).
  assert (Hmono : forall id, user_exists id w = true -> user_exists id w' = true).
  { intros id. unfold user_exists. simpl. by apply user_exists_app. }
  split; [split |]; [by apply (foreign_keys_mono w) | | done].
  unfold users_email_key in *. simpl. rewrite fmap_app.
  apply list.NoDup_app.
  split; [done |]. split; [| apply list.NoDup_singleton].
  intros e He Hnew. apply list_elem_of_singleton in Hnew. subst e.
  apply unique_violation_false in Hv as [Hfree _].
  apply list_elem_of_fmap in He as (x & Hx & Hin). apply list_elem_of_In in Hin.
  apply (find_none _ _ Hfree) in Hin. simpl in Hx. rewrite <- Hx in Hin.
  by rewrite String.eqb_refl in Hin.
Qed.

Lemma same_email_same_user (us : list User.t) (x y : User.t) :
  NoDup (User.email <$> us) -> In x us -> In y us -> User.email x = User.email y -> x = y.
Proof.
  intros Hkey Hx Hy Heq.
  pose proof (find_pkey User.email us x Hkey Hx) as H1.
  pose proof (find_pkey User.email us y Hkey Hy) as H2.
  rewrite Heq in H1. congruence.
Qed.

Lemma map_ext_in_fmap {A B} (f : A -> B) (g : A -> A) (l : list A) :
  (forall x, In x l -> f (g x) = f x) -> f <$> map g l = f <$> l.
Proof.
  induction l as [|x l IH]; simpl; [done |]. intros Hall.
  rewrite Hall by (by left). f_equal. apply IH. intros y Hy. apply Hall. by right.
Qed.

Lemma found_find_map_id (g : User.t -> User.t) (l : list User.t) id :
  (forall x, In x l -> User.id (g x) = User.id x) ->
  found (find (fun x => String.eqb (User.id x) id) (map g l))
  = found (find (fun x => String.eqb (User.id x) id) l).
Proof.
  induction l as [|x l IH]; simpl; [done |]. intros Hall.
  rewrite Hall by (by left). destruct (String.eqb (User.id x) id); [done |].
  apply IH. intros y Hy. apply Hall. by right.
Qed.

Lemma keeps_integrity_user_update email googleId avatar :
  keeps_integrity (prisma_user_update_by_email email googleId avatar).
Proof.
  apply keeps_integrity_await. intros w [Hfk Hkey].
  destruct (find (fun u => String.eqb (User.email u) email) (users w)) as [old|] eqn:Hold;
    [| by split].
  destruct (existsb _ (users w)); simpl; [by split |].
  pose proof (find_some _ _ Hold) as [Hin Hmail]. apply String.eqb_eq in Hmail.
  set (new := User.mk _ _ _ _ _ _ _ _).
  set (upd := fun u : User.t => if String.eqb (User.email u) email then new else u).
  assert (Hsame : forall x, In x (users w) -> User.email (upd x) = User.email x
                                               /\ User.id (upd x) = User.id x).
  { intros x Hx. unfold upd. destruct (String.eqb (User.email x) email) eqn:Hxe; [|done].
    apply String.eqb_eq in Hxe.
    assert (x = old) as ->
      by (apply (same_email_same_user (users w)); [exact Hkey | done | done | congruence]).
    by subst new. }
  assert (Hmono : forall id, user_exists id w = true ->
            user_exists id (tick (set_users (map upd (users w)) w)) = true).
  { intros id. unfold user_exists. simpl. rewrite found_find_map_id; [done |].
    intros x Hx. by apply Hsame. }
  split; [split |]; [by apply (foreign_keys_mono w) | | done].
  unfold users_email_key in *. simpl. rewrite map_ext_in_fmap; [done |].
  intros x Hx. by apply Hsame.
Qed.

Create HintDb integrity discriminated.

#[local] Hint Resolve keeps_integrity_ret keeps_integrity_throw keeps_integrity_get
  keeps_integrity_await keeps_integrity_existsSync keeps_integrity_unlinkSync
  keeps_integrity_pipe_file keeps_integrity_statSync_size keeps_integrity_notify
  keeps_integrity_message_create keeps_integrity_file_create keeps_integrity_user_create
  keeps_integrity_user_update : integrity.

Ltac integrity_step :=
  match goal with
  | |- keeps_integrity (bind _ _) => apply keeps_integrity_bind; [| intros ?]
  | |- keeps_integrity (try_catch _ _) => apply keeps_integrity_try_catch; [| intros ?]
  | |- keeps_integrity (if ?b then _ else _) => destruct b
  | |- keeps_integrity (match ?x with _ => _ end) => destruct x
  | |- keeps_integrity _ => solve [auto with integrity]
  end.

Ltac integrity := repeat integrity_step.

Lemma keeps_integrity_checkFileAccess fileId userId :
  keeps_integrity (FileController.checkFileAccess fileId userId).
Proof.
  unfold FileController.checkFileAccess, prisma_file_findUnique, prisma_message_findFirst.
  integrity.
Qed.

#[local] Hint Resolve keeps_integrity_checkFileAccess : integrity.

Lemma keeps_integrity_cleanup p : keeps_integrity (FilesController.cleanup p).
Proof. unfold FilesController.cleanup. integrity. Qed.

#[local] Hint Resolve keeps_integrity_cleanup : integrity.

Lemma keeps_integrity_findUniqueUsername fuel username candidate counter :
  keeps_integrity (GoogleAuthService.findUniqueUsername fuel username candidate counter).
Proof.
  revert candidate counter. induction fuel as [|fuel IH]; intros candidate counter; simpl.
  - apply keeps_integrity_ret.
  - unfold prisma_user_findUnique_username. integrity.
Qed.

#[local] Hint Resolve keeps_integrity_findUniqueUsername : integrity.

Lemma keeps_integrity_handle `{Bcrypt} (r : Request) (w : World) :
  integrity w ->
  integrity (handle r w)
  /\ forall id, user_exists id w = true -> user_exists id (handle r w) = true.
Proof.
  assert (Hgoal : forall A (c : M A), keeps_integrity c ->
            integrity w ->
            integrity (after c w)
            /\ forall id, user_exists id w = true -> user_exists id (after c w) = true)
    by (intros A c Hc; apply Hc).
  destruct r; simpl; apply Hgoal.
  - unfold FileController.uploadFile. integrity.
  - unfold FileController.getFile, prisma_file_findUnique. integrity.
  - unfold FileController.getFileInfo, prisma_file_findUnique. integrity.
  - unfold FilesController.uploadFile. integrity.
  - unfold FilesController.downloadFile, prisma_message_findFirst. integrity.
  - unfold ManualAuthService.validateCredentials, prisma_user_findUnique_email. integrity.
  - unfold ManualAuthService.createUser. integrity.
  - unfold GoogleAuthService.validateGoogleUser, prisma_user_findUnique_googleId,
      prisma_user_findUnique_email. integrity.
Qed.

(** X18.  Over every sequence of requests the modelled code can serve, if the
    sender and receiver of every message and the uploader of every file are
    users and emails are unique at the start, they still are at the end, and
    no user id that existed has disappeared: handlers create and link
    accounts but never remove or renumber one. *)
Theorem serving_keeps_integrity `{Bcrypt} (rs : list Request) (w : World) :
  foreign_keys w -> users_email_key w ->
  foreign_keys (serve rs w) /\ users_email_key (serve rs w)
  /\ forall id, user_exists id w = true -> user_exists id (serve rs w) = true.
Proof.
  intros Hfk Hkey.
  assert (Hall : integrity (serve rs w)
                 /\ forall id, user_exists id w = true -> user_exists id (serve rs w) = true).
  { assert (Hw : integrity w) by (by split). clear Hfk Hkey.
    revert w Hw. induction rs as [|r rs IH]; intros w Hw; [by split |].
    change (serve (r :: rs) w) with (serve rs (handle r w)).
    destruct (keeps_integrity_handle r w Hw) as [H1 Hmono1].
    destruct (IH (handle r w) H1) as [H2 Hmono2]. split; [done |]. auto. }
  destruct Hall as [[? ?] ?]. split; [done | by split].
Qed.

Lemma world_ready_foreign_keys : foreign_keys world_ready.
Proof. split; intros x []. Defined.

Lemma world_ready_email_key : users_email_key world_ready.
Proof. apply (bool_decide_unpack _). vm_compute. exact I. Defined.

Lemma serving_keeps_integrity_witness :
  foreign_keys (@serve sample_bcrypt sample_requests world_ready)
  /\ users_email_key (@serve sample_bcrypt sample_requests world_ready)
  /\ forall id, user_exists id world_ready = true ->
                user_exists id (@serve sample_bcrypt sample_requests world_ready) = true.
Proof.
  exact (@serving_keeps_integrity sample_bcrypt sample_requests world_ready
           world_ready_foreign_keys world_ready_email_key).
Defined.

(** ** The file card against the upload dialog *)

Lemma prefix_split (sub s : string) :
  String.prefix sub s = true <-> exists rest, s = sub +:+ rest.
Proof.
  revert s. induction sub as [|a sub IH]; intros s.
  - split; [intros _; by exists s | intros _; by destruct s].
  - destruct s as [|c s]; simpl; [split; [done | by intros (rest & ?)] |].
    destruct (ascii_dec a c) as [-> | Hne].
    + rewrite IH. split; intros (rest & Heq); exists rest; [by rewrite Heq |].
      by injection Heq.
    + split; [done |]. intros (rest & Heq). by injection Heq as <- _.
Qed.

Lemma js_includes_cons (sub : string) (c : ascii) (s : string) :
  js_includes sub (String c s) = String.prefix sub (String c s) || js_includes sub s.
Proof. reflexivity. Qed.

Lemma js_includes_spec (sub s : string) :
  js_includes sub s = true <-> exists before after_, s = before +:+ sub +:+ after_.
Proof.
  induction s as [|c s IH].
  - change (js_includes sub EmptyString) with (String.prefix sub EmptyString || false).
    rewrite orb_false_r, prefix_split. split.
    + intros (rest & Heq). by exists EmptyString, rest.
    + intros (before & after_ & Heq). destruct before; [by exists after_ | discriminate].
  - rewrite js_includes_cons, orb_true_iff, prefix_split, IH. split.
    + intros [(rest & Heq) | (before & after_ & ->)].
      * by exists EmptyString, rest.
      * by exists (String c before), after_.
    + intros (before & after_ & Heq). destruct before as [|b before].
      * left. by exists after_.
      * right. injection Heq as -> ->. eauto.
Qed.

(** X19.  For every MIME type the server admits, the file card shows the icon
    the upload dialog's table assigns to it, and offers a preview exactly for
    the types the dialog classifies as images and for PDF.  For any type at
    all, a type that starts with "image/" gets the image icon and a preview. *)
Theorem file_card_agrees_with_dialog (inherited : string -> bool) (mimeType : string) :
  (In mimeType FileController.ALLOWED_MIME_TYPES ->
   FileMessageById.getFileIcon mimeType = FileUpload.getFileIcon inherited mimeType
   /\ (FileMessageById.isPreviewable mimeType = true
       <-> FileUpload.getFileType inherited mimeType = FileUpload.image
           \/ mimeType = "application/pdf"))
  /\ (String.prefix "image/" mimeType = true ->
      FileMessageById.getFileIcon mimeType = FileUpload.Image
      /\ FileMessageById.isPreviewable mimeType = true
      /\ FileMessageById.getFileTypeColor mimeType = "text-green-600 bg-green-50").
Proof.
  split.
  - intros Hin. unfold FileController.ALLOWED_MIME_TYPES in Hin.
    repeat (destruct Hin as [<- | Hin];
            [split; [reflexivity
                    | split; [intros Hp; try discriminate Hp; (by left) || (by right)
                             | intros [Hk | Hk]; try discriminate Hk; reflexivity]] |]).
    destruct Hin.
  - intros Himg. unfold FileMessageById.getFileIcon, FileMessageById.isPreviewable,
      FileMessageById.getFileTypeColor. by rewrite Himg.
Qed.
